(** * OpenStack base connection and vCloud task waiter

    A shallow embedding of

      - [libcloud/common/openstack.py]: [OpenStackBaseConnection]
        (constructor, [request], [get_endpoint], [add_default_headers],
        [_populate_hosts_and_request_paths]);
      - [libcloud/common/openstack.py]: [OpenStackResponse]
        ([has_content_type], [parse_body]) and
        [OpenStackDriverMixin.openstack_connection_kwargs];
      - [libcloud/compute/drivers/vcloud.py]:
        [VCloudNodeDriver._wait_for_task_completion], [destroy_node],
        [_uniquer], [list_sizes] and the memory validators, [fixxpath],
        and the login of [VCloudConnection];
      - [mist/api/dns/methods.py]: [filter_list_zones].

    Python objects are records, [None]-able attributes are [option]s,
    dictionaries are [gmap]s, raised exceptions are the [Raise] case of
    [result], and attribute mutation is explicit state passing.  A
    character of a [string] stands for one code point below 256. *)

From Stdlib Require Import ZArith String Ascii List Bool Lia.
From Stdlib Require Import DecimalString.
From stdpp Require Import base option list strings gmap.

Local Open Scope Z_scope.
Local Open Scope string_scope.

(** ** Python primitives used by the two modules *)

Module Py.

(** [bool(x)] for a value that is a [str] or [None]. *)
Definition truthy (x : option string) : bool :=
  match x with
  | None => false
  | Some s => negb (String.eqb s "")
  end.

(** [x is None]. *)
Definition is_None {A} (x : option A) : bool :=
  match x with
  | None => true
  | Some _ => false
  end.

(** [str.isspace] on one character: TAB..CR, FS..US, SPACE, NEL, NBSP. *)
Definition isspace (a : ascii) : bool :=
  let n := N_of_ascii a in
  ((9 <=? n) && (n <=? 13) || (28 <=? n) && (n <=? 32)
   || (n =? 133) || (n =? 160))%N.

(** [str.split()] with no separator: the maximal runs of characters
    that are not whitespace, in order.  [cur] is the run being read. *)
Fixpoint split_from (cur : string) (s : string) : list string :=
  match s with
  | EmptyString => if String.eqb cur "" then [] else [cur]
  | String a s' =>
      if isspace a
      then (if String.eqb cur "" then split_from "" s'
            else cur :: split_from "" s')
      else split_from (cur +:+ String a "") s'
  end.

Definition split (s : string) : list string := split_from "" s.

(** [str.lstrip()], [str.rstrip()] and [str.strip()]. *)
Fixpoint lstrip (s : string) : string :=
  match s with
  | EmptyString => ""
  | String a s' => if isspace a then lstrip s' else s
  end.

Fixpoint rstrip (s : string) : string :=
  match s with
  | EmptyString => ""
  | String a s' =>
      let r := rstrip s' in
      if String.eqb r "" && isspace a then "" else String a r
  end.

Definition strip (s : string) : string := rstrip (lstrip s).

(** [s.startswith(p)]. *)
Definition startswith (s p : string) : bool := String.prefix p s.

(** [str.upper], as far as ASCII letters go; [request] only compares the
    result with "POST" and "PUT", which no other character below 256
    helps to spell. *)
Definition upper_ascii (a : ascii) : ascii :=
  let n := N_of_ascii a in
  if ((97 <=? n) && (n <=? 122))%N then ascii_of_N (n - 32) else a.

Fixpoint upper (s : string) : string :=
  match s with
  | EmptyString => ""
  | String a s' => String (upper_ascii a) (upper s')
  end.

(** [str(n)] for an integer. *)
Definition str_of_Z (n : Z) : string :=
  NilZero.string_of_int (Z.to_int n).

End Py.

Example split_two : Py.split "compute 2.60" = ["compute"; "2.60"].
Proof. reflexivity. Qed.

Example split_runs : Py.split "  a   b c " = ["a"; "b"; "c"].
Proof. reflexivity. Qed.

Example strip_both : Py.strip "  a b  " = "a b".
Proof. reflexivity. Qed.

Example str_neg : Py.str_of_Z (-5) = "-5" /\ Py.str_of_Z 600 = "600" /\ Py.str_of_Z 0 = "0".
Proof. repeat split; reflexivity. Qed.

(** ** [libcloud/common/openstack.py] *)

Module OpenStack.

Definition AUTH_API_VERSION : string := "1.1".

(** [httplib.UNAUTHORIZED]. *)
Definition UNAUTHORIZED : Z := 401.

(** Modelled from the spec: the name of the auth-token header of section
    4.4 step 3.  The constant is imported from
    [libcloud.common.openstack_identity], which is not among the sources;
    it is given the name the identity module uses. *)
Definition AUTH_TOKEN_HEADER : string := "X-Auth-Token".

(** Exceptions that cross the functions below.  [BaseHTTPError] is what
    the [except] clause of [request] catches; [OtherError] stands for any
    other exception of a collaborator (invalid credentials, malformed
    response, socket errors). *)
Inductive exn : Type :=
| LibcloudError (msg : string)
| BaseHTTPError (code : Z) (message : string)
| OtherError (name : string).

Inductive result (A : Type) : Type :=
| Ok (a : A)
| Raise (e : exn).
Arguments Ok {A} a.
Arguments Raise {A} e.

Definition is_ok {A} (r : result A) : bool :=
  match r with Ok _ => true | Raise _ => false end.

(** A Python [dict] of headers or query parameters; a value may be [None]. *)
Abbreviation dict := (gmap string (option string)).

(** Calls that leave the connection object. *)
Inductive event : Type :=
| EvNewIdentity
| EvAuthenticate (kwargs : list (string * string))
| EvClearCachedAuthContext
| EvCatalogGetEndpoint (service_type name region : option string)
| EvConnect (host : option string) (port : option Z) (secure : bool)
| EvBaseRequest.

Definition is_authenticate (e : event) : bool :=
  match e with EvAuthenticate _ => true | _ => false end.

Definition is_clear (e : event) : bool :=
  match e with EvClearCachedAuthContext => true | _ => false end.

Definition is_catalog_lookup (e : event) : bool :=
  match e with EvCatalogGetEndpoint _ _ _ => true | _ => false end.

Definition is_base_request (e : event) : bool :=
  match e with EvBaseRequest => true | _ => false end.

Definition count (p : event -> bool) (l : list event) : nat :=
  length (filter (fun e => p e = true) l).

(** Keyword arguments of the constructor, after the ones of the base
    class. *)
Record Kwargs : Type := {
  ex_force_base_url : option string;
  ex_force_auth_url : option string;
  ex_force_auth_version : option string;
  ex_force_auth_token : option string;
  ex_token_scope : option string;
  ex_domain_name : option string;
  ex_tenant_name : option string;
  ex_tenant_domain_id : option string;
  ex_force_service_type : option string;
  ex_force_service_name : option string;
  ex_force_service_region : option string;
  ex_force_microversion : option string;
  ex_auth_cache : option string;
}.

(** Class attributes, which a provider's subclass overrides. *)
Record ClassAttrs : Type := {
  cls_auth_url : option string;
  cls_service_type : option string;
  cls_service_name : option string;
  cls_service_region : option string;
  cls_accept_format : option string;
  cls_auth_version : option string;
  cls_default_content_type : option string;
}.

(** Attributes that only the constructor assigns. *)
Record Settings : Type := {
  user_id : string;
  key : string;
  timeout : option Z;
  proxy_url : option string;
  auth_url : option string;
  service_type : option string;
  service_name : option string;
  service_region : option string;
  accept_format : option string;
  default_content_type : option string;
  _auth_version : option string;
  base_url : option string;
  _ex_force_base_url : option string;
  _ex_force_auth_url : option string;
  _ex_force_auth_token : option string;
  _ex_token_scope : option string;
  _ex_domain_name : option string;
  _ex_tenant_name : option string;
  _ex_tenant_domain_id : option string;
  _ex_force_service_type : option string;
  _ex_force_service_name : option string;
  _ex_force_service_region : option string;
  _ex_force_microversion : option string;
  _ex_auth_cache : option string;
}.

Section Connection.

(** The identity connection, the parsed service catalog, the raw
    catalog, the user record and the response object live in modules
    that are not among the sources ([openstack_identity], [base]);
    they are abstract here, with the operations the connection calls
    on them. *)
Context {Osa Catalog Urls UserInfo Response : Type}.

(** What [_populate_hosts_and_request_paths] reads from the object
    that [authenticate] returns. *)
Record AuthResult : Type := {
  res_auth_token : option string;
  res_auth_token_expires : option Z;
  res_auth_user_info : option UserInfo;
  res_urls : Urls;
}.

(** The connection object. *)
Record Conn : Type := {
  cfg : Settings;
  auth_token : option string;
  auth_token_expires : option Z;
  auth_user_info : option UserInfo;
  service_catalog : option Catalog;
  _osa : option Osa;
  host : option string;
  port : option Z;
  secure : bool;
  request_path : option string;
}.

(** The connection, the wall clock and the calls made so far. *)
Record World : Type := {
  self : Conn;
  now : Z;
  log : list event;
}.

Record RequestArgs : Type := {
  action : string;
  params : option dict;
  data : string;
  headers : option dict;
  method : string;
  raw : bool;
}.

(** [get_class_for_auth_version(...)(auth_url=..., parent_conn=self, ...)]. *)
Variable identity_new : Conn -> result Osa.
(** [osa.is_token_valid()], at a given time. *)
Variable is_token_valid : Z -> Osa -> bool.
(** [osa.authenticate] with its keyword arguments: the identity connection afterwards
    and the attributes of the returned object. *)
Variable authenticate : list (string * string) -> Z -> Osa -> result (Osa * AuthResult).
(** [osa.clear_cached_auth_context()]. *)
Variable clear_cached_auth_context : Osa -> Osa.
(** [OpenStackServiceCatalog(service_catalog=..., auth_version=...)]. *)
Variable OpenStackServiceCatalog : Urls -> option string -> result Catalog.
(** [catalog.get_endpoint(service_type=, name=, region=).url]. *)
Variable catalog_get_endpoint :
  Catalog -> option string -> option string -> option string -> result (option string).
(** [Connection._tuple_from_url]. *)
Variable _tuple_from_url :
  option string -> result (option string * option Z * bool * option string).
(** [Connection.connect]. *)
Variable connect : option string -> option Z -> bool -> result unit.
(** [Connection.request] of the base class. *)
Variable base_request : RequestArgs -> World -> result Response * World.
(** [Connection.morph_action_hook] of the base class. *)
Variable base_morph_action_hook : Conn -> string -> string.

(** *** State and exceptions *)

Definition M (A : Type) : Type := World -> result A * World.

Definition ret {A} (a : A) : M A := fun w => (Ok a, w).

Definition raise {A} (e : exn) : M A := fun w => (Raise e, w).

Definition bind {A B} (m : M A) (k : A -> M B) : M B :=
  fun w =>
    match m w with
    | (Ok a, w') => k a w'
    | (Raise e, w') => (Raise e, w')
    end.

Definition lift {A} (r : result A) : M A := fun w => (r, w).

Definition get_self : M Conn := fun w => (Ok (self w), w).

Definition put_self (c : Conn) : M unit :=
  fun w => (Ok tt, {| self := c; now := now w; log := log w |}).

Definition emit (e : event) : M unit :=
  fun w => (Ok tt, {| self := self w; now := now w; log := log w ++ [e] |}).

Definition clock : M Z := fun w => (Ok (now w), w).

(** [try: m except BaseHTTPError as ex: h ex; raise]. *)
Definition try_except_http {A} (m : M A) (h : Z -> M unit) : M A :=
  fun w =>
    match m w with
    | (Raise (BaseHTTPError code msg), w') =>
        match h code w' with
        | (Ok _, w'') => (Raise (BaseHTTPError code msg), w'')
        | (Raise e, w'') => (Raise e, w'')
        end
    | r => r
    end.

#[local] Instance M_ret : MRet M := @ret.
#[local] Instance M_bind : MBind M := fun A B k m => bind m k.

(** *** Attribute assignment *)

Definition set_osa (o : Osa) (c : Conn) : Conn :=
  {| cfg := cfg c; auth_token := auth_token c;
     auth_token_expires := auth_token_expires c;
     auth_user_info := auth_user_info c;
     service_catalog := service_catalog c; _osa := Some o;
     host := host c; port := port c; secure := secure c;
     request_path := request_path c |}.

Definition set_auth (r : AuthResult) (c : Conn) : Conn :=
  {| cfg := cfg c; auth_token := res_auth_token r;
     auth_token_expires := res_auth_token_expires r;
     auth_user_info := res_auth_user_info r;
     service_catalog := service_catalog c; _osa := _osa c;
     host := host c; port := port c; secure := secure c;
     request_path := request_path c |}.

Definition set_service_catalog (osc : Catalog) (c : Conn) : Conn :=
  {| cfg := cfg c; auth_token := auth_token c;
     auth_token_expires := auth_token_expires c;
     auth_user_info := auth_user_info c;
     service_catalog := Some osc; _osa := _osa c;
     host := host c; port := port c; secure := secure c;
     request_path := request_path c |}.

Definition set_conn_info
    (t : option string * option Z * bool * option string) (c : Conn) : Conn :=
  let '(h, p, s, rp) := t in
  {| cfg := cfg c; auth_token := auth_token c;
     auth_token_expires := auth_token_expires c;
     auth_user_info := auth_user_info c;
     service_catalog := service_catalog c; _osa := _osa c;
     host := h; port := p; secure := s; request_path := rp |}.

(** *** [_get_auth_url] *)

Definition _get_auth_url (s : Settings) : option string :=
  match _ex_force_auth_url s with
  | Some u => Some u
  | None => auth_url s
  end.

(** *** [__init__]

    [b] holds what the base-class constructor has stored when it
    returns; the body below is what follows that call. *)

Record BaseInit : Type := {
  b_user_id : string;
  b_key : string;
  b_secure : bool;
  b_host : option string;
  b_port : option Z;
  b_timeout : option Z;
  b_proxy_url : option string;
  b_request_path : option string;
}.

Definition __init__ (cls : ClassAttrs) (b : BaseInit) (k : Kwargs) : result Conn :=
  let version1 :=
    if Py.truthy (ex_force_auth_version k) then ex_force_auth_version k
    else cls_auth_version cls in
  if Py.truthy (ex_force_auth_token k) && negb (Py.truthy (ex_force_base_url k))
  then Raise (LibcloudError
         "Must also provide ex_force_base_url when specifying ex_force_auth_token.")
  else
    let token :=
      if Py.truthy (ex_force_auth_token k) then ex_force_auth_token k else None in
    let version2 :=
      if negb (Py.truthy version1) then Some AUTH_API_VERSION else version1 in
    let s :=
      {| user_id := b_user_id b; key := b_key b; timeout := b_timeout b;
         proxy_url := b_proxy_url b; auth_url := cls_auth_url cls;
         service_type := cls_service_type cls;
         service_name := cls_service_name cls;
         service_region := cls_service_region cls;
         accept_format := cls_accept_format cls;
         default_content_type := cls_default_content_type cls;
         _auth_version := version2;
         base_url := ex_force_base_url k;
         _ex_force_base_url := ex_force_base_url k;
         _ex_force_auth_url := ex_force_auth_url k;
         _ex_force_auth_token := ex_force_auth_token k;
         _ex_token_scope := ex_token_scope k;
         _ex_domain_name := ex_domain_name k;
         _ex_tenant_name := ex_tenant_name k;
         _ex_tenant_domain_id := ex_tenant_domain_id k;
         _ex_force_service_type := ex_force_service_type k;
         _ex_force_service_name := ex_force_service_name k;
         _ex_force_service_region := ex_force_service_region k;
         _ex_force_microversion := ex_force_microversion k;
         _ex_auth_cache := ex_auth_cache k |} in
    if negb (Py.truthy (_get_auth_url s))
    then Raise (LibcloudError "OpenStack instance must have auth_url set")
    else
      Ok {| cfg := s; auth_token := token; auth_token_expires := None;
            auth_user_info := None; service_catalog := None; _osa := None;
            host := b_host b; port := b_port b; secure := b_secure b;
            request_path := b_request_path b |}.

(** *** [get_auth_class] *)

Definition get_auth_class : M Osa :=
  c ← get_self;
  match _osa c with
  | Some o => ret o
  | None =>
      emit EvNewIdentity;;
      o ← lift (identity_new c);
      put_self (set_osa o c);;
      ret o
  end.

(** *** [get_service_name] *)

Definition get_service_name (c : Conn) : option string :=
  if Py.truthy (_ex_force_service_name (cfg c))
  then _ex_force_service_name (cfg c)
  else service_name (cfg c).

(** *** [get_endpoint] *)

Definition effective (forced default : option string) : option string :=
  if Py.truthy forced then forced else default.

Definition get_endpoint : M (option string) :=
  c ← get_self;
  let service_type := effective (_ex_force_service_type (cfg c)) (service_type (cfg c)) in
  let service_name := effective (_ex_force_service_name (cfg c)) (service_name (cfg c)) in
  let service_region :=
    effective (_ex_force_service_region (cfg c)) (service_region (cfg c)) in
  match service_catalog c with
  | None => raise (OtherError "AttributeError")
  | Some osc =>
      emit (EvCatalogGetEndpoint service_type service_name service_region);;
      url ← lift (catalog_get_endpoint osc service_type service_name service_region);
      if negb (Py.truthy url)
      then raise (LibcloudError "Could not find specified endpoint")
      else ret url
  end.

(** *** [add_default_headers] *)

(** The tokens of the forced microversion string:
    [(service_type, microversion)]. *)
Definition parse_microversion (mv : string) : result (string * string) :=
  match Py.split (Py.strip mv) with
  | [service; version] => Ok (service, version)
  | [version] => Ok ("compute", version)
  | _ => Raise (LibcloudError "Invalid microversion format: servicename X.XX")
  end.

(** [self.service_type and self.service_type.startswith(service_type)]. *)
Definition service_type_matches (c : Conn) (service : string) : bool :=
  match service_type (cfg c) with
  | Some st => negb (String.eqb st "") && Py.startswith st service
  | None => false
  end.

Definition add_default_headers (c : Conn) (headers : dict) : result dict :=
  let headers := <[AUTH_TOKEN_HEADER := auth_token c]> headers in
  let headers := <["Accept" := accept_format (cfg c)]> headers in
  if Py.truthy (_ex_force_microversion (cfg c)) then
    match parse_microversion (default "" (_ex_force_microversion (cfg c))) with
    | Raise e => Raise e
    | Ok (service, version) =>
        if service_type_matches c service
        then Ok (<["OpenStack-API-Version" :=
                     Some (service +:+ " " +:+ version)]> headers)
        else Ok headers
    end
  else Ok headers.

(** *** [_set_up_connection_info] *)

Definition _set_up_connection_info (url : option string) : M unit :=
  c ← get_self;
  let prev_conn := (host c, port c, secure c) in
  result ← lift (_tuple_from_url url);
  put_self (set_conn_info result c);;
  c' ← get_self;
  let new_conn := (host c', port c', secure c') in
  if decide (new_conn = prev_conn) then ret tt
  else
    emit (EvConnect (host c') (port c') (secure c'));;
    lift (connect (host c') (port c') (secure c')).

(** *** [_populate_hosts_and_request_paths] *)

Definition auth_kwargs (version : option string) : list (string * string) :=
  if decide (version = Some "2.0_apikey") then [("auth_type", "api_key")]
  else if decide (version = Some "2.0_password") then [("auth_type", "password")]
  else [].

Definition _populate_hosts_and_request_paths : M unit :=
  osa ← get_auth_class;
  c ← get_self;
  if Py.truthy (_ex_force_auth_token (cfg c)) then
    _set_up_connection_info (_ex_force_base_url (cfg c))
  else
    t ← clock;
    (if negb (is_token_valid t osa) then
       let kwargs := auth_kwargs (_auth_version (cfg c)) in
       emit (EvAuthenticate kwargs);;
       r ← lift (authenticate kwargs t osa);
       put_self (set_auth (snd r) (set_osa (fst r) c));;
       osc ← lift (OpenStackServiceCatalog (res_urls (snd r)) (_auth_version (cfg c)));
       c1 ← get_self;
       put_self (set_service_catalog osc c1)
     else ret tt);;
    c2 ← get_self;
    url ← (if Py.truthy (_ex_force_base_url (cfg c2))
           then ret (_ex_force_base_url (cfg c2))
           else get_endpoint);
    _set_up_connection_info url.

(** *** [morph_action_hook] *)

Definition morph_action_hook (action : string) : M string :=
  _populate_hosts_and_request_paths;;
  c ← get_self;
  ret (base_morph_action_hook c action).

(** *** [request] *)

Definition is_post_or_put (method : string) : bool :=
  let m := Py.upper method in
  String.eqb m "POST" || String.eqb m "PUT".

(** [headers or {}]: [None] and the empty dictionary give a new empty
    dictionary. *)
Definition dict_or_empty (d : option dict) : dict := default ∅ d.

Definition request_args (c : Conn) (a : RequestArgs) : RequestArgs :=
  let headers := dict_or_empty (headers a) in
  let params := dict_or_empty (params a) in
  let headers :=
    if is_post_or_put (method a) && Py.truthy (default_content_type (cfg c))
    then <["Content-Type" := default_content_type (cfg c)]> headers
    else headers in
  {| action := action a; params := Some params; data := data a;
     headers := Some headers; method := method a; raw := raw a |}.

(** The body of the [except BaseHTTPError] clause, before [raise]. *)
Definition on_http_error (code : Z) : M unit :=
  c ← get_self;
  if Z.eqb code UNAUTHORIZED && Py.is_None (_ex_force_auth_token (cfg c))
  then
    o ← get_auth_class;
    emit EvClearCachedAuthContext;;
    c' ← get_self;
    put_self (set_osa (clear_cached_auth_context o) c')
  else ret tt.

Definition request (a : RequestArgs) : M Response :=
  c ← get_self;
  try_except_http
    (emit EvBaseRequest;; base_request (request_args c a))
    on_http_error.

(** *** Several calls in a row

    [after_calls m times w] is the world after one call of [m] per
    element of [times], the clock being set to that element before
    the call; a call that raises does not stop the next one. *)

Definition at_time (t : Z) (w : World) : World :=
  {| self := self w; now := t; log := log w |}.

Fixpoint after_calls {A} (m : M A) (times : list Z) (w : World) : World :=
  match times with
  | [] => w
  | t :: times' => after_calls m times' (snd (m (at_time t w)))
  end.

(** *** Facts about [split] and [strip] *)

Lemma append_cons (a : ascii) (s t : string) :
  String a s +:+ t = String a (s +:+ t).
Proof. reflexivity. Qed.

Lemma append_nil_r (s : string) : s +:+ "" = s.
Proof.
  induction s as [|a s IH]; [reflexivity|].
  rewrite append_cons, IH. reflexivity.
Qed.

Lemma append_snoc (s t : string) (a : ascii) :
  (s +:+ String a "") +:+ t = s +:+ String a t.
Proof.
  induction s as [|b s IH]; [reflexivity|].
  rewrite !append_cons, IH. reflexivity.
Qed.

Lemma eqb_empty_app (cur : string) (a : ascii) :
  String.eqb (cur +:+ String a "") "" = false.
Proof. destruct cur; reflexivity. Qed.

Lemma split_from_lstrip (s : string) :
  Py.split_from "" (Py.lstrip s) = Py.split_from "" s.
Proof.
  induction s as [|a s IH]; simpl; [reflexivity|].
  destruct (Py.isspace a) eqn:Ha; simpl.
  - exact IH.
  - rewrite Ha. reflexivity.
Qed.

Lemma split_from_rstrip (s : string) :
  forall cur, Py.split_from cur (Py.rstrip s) = Py.split_from cur s.
Proof.
  induction s as [|a s IH]; intros cur; simpl; [reflexivity|].
  destruct (String.eqb (Py.rstrip s) "") eqn:Hr; simpl.
  - apply String.eqb_eq in Hr.
    destruct (Py.isspace a) eqn:Ha; simpl.
    + rewrite <- (IH ""), Hr. simpl. reflexivity.
    + rewrite Ha. apply IH.
  - destruct (Py.isspace a) eqn:Ha; rewrite ?IH; reflexivity.
Qed.

Lemma split_strip (s : string) : Py.split (Py.strip s) = Py.split s.
Proof.
  unfold Py.split, Py.strip.
  rewrite split_from_rstrip. apply split_from_lstrip.
Qed.

(** A token is a non-empty run without whitespace. *)
Fixpoint no_space (s : string) : bool :=
  match s with
  | EmptyString => true
  | String a s' => negb (Py.isspace a) && no_space s'
  end.

Definition is_token (t : string) : Prop := t <> "" /\ no_space t = true.

Lemma no_space_snoc (cur : string) (a : ascii) :
  no_space cur = true -> Py.isspace a = false ->
  no_space (cur +:+ String a "") = true.
Proof.
  intros Hc Ha. induction cur as [|b cur IH]; simpl in *.
  - rewrite Ha. reflexivity.
  - apply andb_true_iff in Hc as [Hb Hc]. rewrite Hb. simpl. auto.
Qed.

Lemma split_from_tokens (s : string) :
  forall cur, no_space cur = true -> Forall is_token (Py.split_from cur s).
Proof.
  induction s as [|a s IH]; intros cur Hc; simpl.
  - destruct (String.eqb_spec cur ""); constructor; [split; assumption | constructor].
  - destruct (Py.isspace a) eqn:Ha.
    + destruct (String.eqb_spec cur "").
      * apply IH. reflexivity.
      * constructor; [split; assumption | apply IH; reflexivity].
    + apply IH. apply no_space_snoc; assumption.
Qed.

Lemma split_tokens (s : string) : Forall is_token (Py.split s).
Proof. apply split_from_tokens. reflexivity. Qed.

(** Splitting around one whitespace character splits each side. *)
Lemma split_from_app (s1 s2 : string) (a : ascii) :
  Py.isspace a = true ->
  forall cur,
    Py.split_from cur (s1 +:+ String a s2) = (Py.split_from cur s1 ++ Py.split s2)%list.
Proof.
  intros Ha. induction s1 as [|b s1 IH]; intros cur; simpl.
  - rewrite Ha. destruct (String.eqb cur ""); reflexivity.
  - destruct (Py.isspace b); [destruct (String.eqb cur "")|]; simpl;
      rewrite IH; reflexivity.
Qed.

(** A token splits into itself. *)
Lemma split_from_token (t : string) :
  no_space t = true ->
  forall cur, Py.split_from cur t =
              if String.eqb (cur +:+ t) "" then [] else [cur +:+ t].
Proof.
  induction t as [|a t IH]; intros Ht cur; simpl in *.
  - rewrite append_nil_r. reflexivity.
  - apply andb_true_iff in Ht as [Ha Ht].
    apply negb_true_iff in Ha. rewrite Ha, (IH Ht).
    rewrite append_snoc. reflexivity.
Qed.

(** *** Microversion parsing *)

Lemma parse_microversion_split (mv : string) :
  parse_microversion mv =
    match Py.split mv with
    | [service; version] => Ok (service, version)
    | [version] => Ok ("compute", version)
    | _ => Raise (LibcloudError "Invalid microversion format: servicename X.XX")
    end.
Proof. unfold parse_microversion. rewrite split_strip. reflexivity. Qed.

Lemma parse_microversion_ok (mv : string) :
  is_ok (parse_microversion mv) =
    (length (Py.split mv) =? 1)%nat || (length (Py.split mv) =? 2)%nat.
Proof.
  rewrite parse_microversion_split.
  destruct (Py.split mv) as [|a [|b [|c l]]]; reflexivity.
Qed.

Lemma add_default_headers_ok (c : Conn) (h : dict) :
  is_ok (add_default_headers c h) =
    match _ex_force_microversion (cfg c) with
    | Some mv => String.eqb mv "" || is_ok (parse_microversion mv)
    | None => true
    end.
Proof.
  unfold add_default_headers.
  destruct (_ex_force_microversion (cfg c)) as [mv|]; simpl; [|reflexivity].
  destruct (String.eqb mv ""); simpl; [reflexivity|].
  destruct (parse_microversion mv) as [[service version]|e]; simpl; [|reflexivity].
  destruct (service_type_matches c service); reflexivity.
Qed.

(** *** Tokens, as the description of [str.split] has them

    A string read from left to right is a gap, a token, a gap, a token
    and so on, and a last gap.  Gaps are runs of whitespace, tokens are
    runs without whitespace that are not empty, and only the first and
    the last gap may be empty. *)

Fixpoint all_space (s : string) : bool :=
  match s with
  | EmptyString => true
  | String a s' => Py.isspace a && all_space s'
  end.

(** Each token after the gap before it, then the last gap. *)
Fixpoint laid_out (l : list (string * string)) (trailing : string) : string :=
  match l with
  | [] => trailing
  | (gap, token) :: l' => gap +:+ token +:+ laid_out l' trailing
  end.

Definition separated (l : list (string * string)) : Prop :=
  Forall (fun cell => all_space (fst cell) = true /\ fst cell <> "" /\ is_token (snd cell)) l.

Definition well_laid_out (l : list (string * string)) (trailing : string) : Prop :=
  all_space trailing = true /\
  match l with
  | [] => True
  | (gap, token) :: l' => all_space gap = true /\ is_token token /\ separated l'
  end.

Definition starts_blank (s : string) : bool :=
  match s with
  | EmptyString => true
  | String a _ => Py.isspace a
  end.

Lemma split_from_gap (gap s : string) :
  all_space gap = true -> Py.split_from "" (gap +:+ s) = Py.split_from "" s.
Proof.
  induction gap as [|a gap IH]; intros H; [reflexivity|].
  simpl in H. apply andb_true_iff in H as [Ha Hgap].
  rewrite append_cons. simpl. rewrite Ha. exact (IH Hgap).
Qed.

Lemma split_from_run (t : string) :
  no_space t = true ->
  forall cur s, Py.split_from cur (t +:+ s) = Py.split_from (cur +:+ t) s.
Proof.
  induction t as [|a t IH]; intros H cur s.
  - rewrite append_nil_r. reflexivity.
  - simpl in H. apply andb_true_iff in H as [Ha Ht]. apply negb_true_iff in Ha.
    rewrite append_cons. simpl. rewrite Ha, (IH Ht), append_snoc. reflexivity.
Qed.

Lemma split_from_boundary (cur s : string) :
  cur <> "" -> starts_blank s = true ->
  Py.split_from cur s = cur :: Py.split_from "" s.
Proof.
  intros Hcur Hs. destruct s as [|a s]; simpl in *.
  - destruct (String.eqb_spec cur ""); [contradiction | reflexivity].
  - rewrite Hs. destruct (String.eqb_spec cur ""); [contradiction | reflexivity].
Qed.

Lemma split_from_cell (gap token rest : string) :
  all_space gap = true -> is_token token -> starts_blank rest = true ->
  Py.split_from "" (gap +:+ token +:+ rest) = token :: Py.split_from "" rest.
Proof.
  intros Hgap [Hne Htoken] Hrest.
  rewrite (split_from_gap _ _ Hgap), (split_from_run _ Htoken).
  change ("" +:+ token) with token.
  apply split_from_boundary; assumption.
Qed.

Lemma all_space_starts_blank (s : string) : all_space s = true -> starts_blank s = true.
Proof.
  destruct s as [|a s]; simpl; [reflexivity|].
  intros H. apply andb_true_iff in H as [Ha _]. exact Ha.
Qed.

Lemma laid_out_starts_blank (l : list (string * string)) (trailing : string) :
  separated l -> all_space trailing = true -> starts_blank (laid_out l trailing) = true.
Proof.
  intros Hl Htr. destruct l as [|[gap token] l]; simpl.
  - apply all_space_starts_blank. exact Htr.
  - inversion Hl as [|? ? (Hgap & Hne & _) _]; subst. simpl in *.
    destruct gap as [|a gap]; [contradiction|].
    rewrite append_cons. simpl in *. apply andb_true_iff in Hgap as [Ha _]. exact Ha.
Qed.

Lemma split_all_space (s : string) : all_space s = true -> Py.split_from "" s = [].
Proof.
  intros H. rewrite <- (append_nil_r s), (split_from_gap _ _ H). reflexivity.
Qed.

Lemma split_separated (l : list (string * string)) (trailing : string) :
  separated l -> all_space trailing = true ->
  Py.split_from "" (laid_out l trailing) = map snd l.
Proof.
  intros Hl Htr. induction Hl as [|[gap token] l (Hgap & _ & Htoken) Hl IH]; simpl.
  - apply split_all_space. exact Htr.
  - simpl in *. rewrite (split_from_cell _ _ _ Hgap Htoken), IH; [reflexivity|].
    apply laid_out_starts_blank; assumption.
Qed.

(** [str.split] returns the tokens of the layout, in order. *)
Lemma split_laid_out (l : list (string * string)) (trailing : string) :
  well_laid_out l trailing -> Py.split (laid_out l trailing) = map snd l.
Proof.
  intros [Htr Hl]. unfold Py.split. destruct l as [|[gap token] l]; simpl.
  - apply split_all_space. exact Htr.
  - destruct Hl as (Hgap & Htoken & Hl).
    rewrite (split_from_cell _ _ _ Hgap Htoken), (split_separated _ _ Hl Htr);
      [reflexivity|].
    apply laid_out_starts_blank; assumption.
Qed.

(** Every string has such a layout. *)
Lemma every_string_laid_out (s : string) :
  exists l trailing, well_laid_out l trailing /\ s = laid_out l trailing.
Proof.
  induction s as [|a s (l & trailing & [Htr Hl] & ->)].
  - exists [], "". split; [split|]; reflexivity.
  - destruct (Py.isspace a) eqn:Ha.
    + destruct l as [|[gap token] l].
      * exists [], (String a trailing). split; [split; [|exact I]|reflexivity].
        simpl. rewrite Ha, Htr. reflexivity.
      * destruct Hl as (Hgap & Htoken & Hl).
        exists ((String a gap, token) :: l), trailing.
        split; [split; [exact Htr|]|reflexivity].
        split; [|split; assumption]. simpl. rewrite Ha, Hgap. reflexivity.
    + assert (Hone : is_token (String a "")).
      { split; [discriminate|]. simpl. rewrite Ha. reflexivity. }
      destruct l as [|[gap token] l].
      * exists [("", String a "")], trailing.
        split; [split; [exact Htr|]|reflexivity].
        split; [reflexivity|]. split; [exact Hone | constructor].
      * destruct Hl as (Hgap & [Hne Htoken] & Hl).
        destruct gap as [|b gap].
        -- exists (("", String a token) :: l), trailing.
           split; [split; [exact Htr|]|reflexivity].
           split; [reflexivity|]. split; [|exact Hl].
           split; [discriminate|]. simpl. rewrite Ha, Htoken. reflexivity.
        -- exists (("", String a "") :: (String b gap, token) :: l), trailing.
           split; [split; [exact Htr|]|reflexivity].
           split; [reflexivity|]. split; [exact Hone|].
           constructor; [|exact Hl]. simpl.
           split; [exact Hgap|]. split; [discriminate|]. split; assumption.
Qed.

(** C4 (amended). A microversion string that lays out as gaps and tokens
    is split into exactly those tokens, in order, and every string lays
    out so.  Two tokens are the service and the version; one token is the
    version of service "compute"; any other number of tokens, none
    included, raises [LibcloudError] when it is parsed.
    [add_default_headers] parses the forced microversion when it is set
    and not the empty string, raises what the parse raises, and attaches
    the header from the pair that the parse gives.  The empty string
    counts as not set: nothing is parsed and nothing is raised. *)
Theorem microversion_parsing
    (l : list (string * string)) (trailing : string) (c : Conn) (h : dict) :
  well_laid_out l trailing ->
  let mv := laid_out l trailing in
  let parsed :=
    match map snd l with
    | [service; version] => Ok (service, version)
    | [version] => Ok ("compute", version)
    | _ => Raise (LibcloudError "Invalid microversion format: servicename X.XX")
    end in
  let sent :=
    <["Accept" := accept_format (cfg c)]> (<[AUTH_TOKEN_HEADER := auth_token c]> h) in
  Py.split (Py.strip mv) = map snd l /\
  parse_microversion mv = parsed /\
  (_ex_force_microversion (cfg c) = Some mv -> mv <> "" ->
   add_default_headers c h =
     match parsed with
     | Ok (service, version) =>
         Ok (if service_type_matches c service
             then <["OpenStack-API-Version" := Some (service +:+ " " +:+ version)]> sent
             else sent)
     | Raise e => Raise e
     end) /\
  (_ex_force_microversion (cfg c) = Some "" \/ _ex_force_microversion (cfg c) = None ->
   add_default_headers c h = Ok sent) /\
  (forall s : string,
     exists l' trailing', well_laid_out l' trailing' /\ s = laid_out l' trailing').
Proof.
  intros Hl mv parsed sent.
  assert (Hsplit : Py.split (Py.strip mv) = map snd l)
    by (rewrite split_strip; apply split_laid_out; exact Hl).
  assert (Hparse : parse_microversion mv = parsed).
  { unfold parse_microversion, parsed. rewrite Hsplit. reflexivity. }
  split; [exact Hsplit|]. split; [exact Hparse|]. split; [|split].
  - intros Hmv Hne. unfold add_default_headers. rewrite Hmv. simpl.
    destruct (String.eqb_spec mv ""); [contradiction|]. simpl.
    rewrite Hparse. fold sent.
    destruct parsed as [[service version]|e]; [|reflexivity].
    destruct (service_type_matches c service); reflexivity.
  - intros [Hmv|Hmv]; unfold add_default_headers; rewrite Hmv; reflexivity.
  - apply every_string_laid_out.
Qed.

(** *** The constructor *)

Definition MSG_TOKEN_NEEDS_BASE_URL : string :=
  "Must also provide ex_force_base_url when specifying ex_force_auth_token.".

(** C8. A forced auth token without a forced base URL makes the
    constructor raise [LibcloudError]; no connection object results. *)
Theorem init_forced_token_requires_base_url
    (cls : ClassAttrs) (b : BaseInit) (k : Kwargs) :
  Py.truthy (ex_force_auth_token k) = true ->
  Py.truthy (ex_force_base_url k) = false ->
  __init__ cls b k = Raise (LibcloudError MSG_TOKEN_NEEDS_BASE_URL) /\
  is_ok (__init__ cls b k) = false.
Proof.
  intros Ht Hb. unfold __init__. rewrite Ht, Hb. simpl. split; reflexivity.
Qed.

(** A connection object that the constructor returns has a forced base
    URL whenever it has a forced token, and carries that token. *)
Lemma init_ok_inv (cls : ClassAttrs) (b : BaseInit) (k : Kwargs) (c : Conn) :
  __init__ cls b k = Ok c ->
  _ex_force_auth_token (cfg c) = ex_force_auth_token k /\
  _ex_force_base_url (cfg c) = ex_force_base_url k /\
  (Py.truthy (ex_force_auth_token k) = true ->
   Py.truthy (ex_force_base_url k) = true /\ auth_token c = ex_force_auth_token k) /\
  (Py.truthy (ex_force_auth_token k) = false -> auth_token c = None) /\
  _osa c = None /\ service_catalog c = None.
Proof.
  unfold __init__. intros H.
  destruct (Py.truthy (ex_force_auth_token k)) eqn:Ht;
    destruct (Py.truthy (ex_force_base_url k)) eqn:Hb; simpl in H;
    try discriminate;
    match type of H with
    | (if ?g then _ else _) = _ => destruct g; [discriminate|]
    end;
    injection H as <-; simpl; repeat split; auto; discriminate.
Qed.

(** *** Unfolding the state monad *)

Ltac munfold :=
  unfold mbind, M_bind, mret, M_ret, bind, ret, raise, lift, get_self,
    put_self, emit, clock in *.

Lemma count_app (p : event -> bool) (l1 l2 : list event) :
  count p (l1 ++ l2) = (count p l1 + count p l2)%nat.
Proof. unfold count. rewrite filter_app, length_app. reflexivity. Qed.

(** *** [get_auth_class] *)

(** The identity connection is created at most once and nothing else is
    touched. *)
Lemma get_auth_class_ok (w : World) (o : Osa) :
  fst (get_auth_class w) = Ok o ->
  exists l,
    snd (get_auth_class w) =
      {| self := set_osa o (self w); now := now w; log := (log w ++ l)%list |} /\
    (l = [] \/ l = [EvNewIdentity]).
Proof.
  unfold get_auth_class. munfold. simpl.
  destruct w as [c t lg]; simpl.
  destruct (_osa c) as [o'|] eqn:Ho; simpl.
  - intros [= ->]. exists []. rewrite app_nil_r. split; [|left; reflexivity].
    destruct c; simpl in *. subst. reflexivity.
  - destruct (identity_new c) as [o'|e]; simpl; [|discriminate].
    intros [= ->]. exists [EvNewIdentity]. split; [reflexivity | right; reflexivity].
Qed.

(** *** [request] *)

(** The world in which the base class's [request] starts. *)
Definition entering_base_request (w : World) : World :=
  {| self := self w; now := now w; log := (log w ++ [EvBaseRequest])%list |}.

(** With a forced token, or with any status other than 401, the handler
    of [request] changes nothing. *)
Lemma request_http_error_kept
    (a : RequestArgs) (w w1 : World) (code : Z) (message : string) :
  base_request (request_args (self w) a) (entering_base_request w)
    = (Raise (BaseHTTPError code message), w1) ->
  Z.eqb code UNAUTHORIZED && Py.is_None (_ex_force_auth_token (cfg (self w1))) = false ->
  request a w = (Raise (BaseHTTPError code message), w1).
Proof.
  intros Hbase Hguard.
  unfold request, try_except_http. munfold. simpl.
  fold (entering_base_request w). rewrite Hbase.
  unfold on_http_error. munfold. simpl. rewrite Hguard.
  destruct w1; reflexivity.
Qed.

(** C1. When the base request fails with status 401: with no forced auth
    token ([_ex_force_auth_token is None]) the cached auth context is
    cleared exactly once and the same error is raised again; with a forced
    token nothing is cleared.  In both cases the base request is not
    called a second time. *)
Theorem request_unauthorized
    (a : RequestArgs) (w w1 : World) (message : string) :
  base_request (request_args (self w) a) (entering_base_request w)
    = (Raise (BaseHTTPError UNAUTHORIZED message), w1) ->
  (forall o : Osa,
     _ex_force_auth_token (cfg (self w1)) = None ->
     fst (get_auth_class w1) = Ok o ->
     exists l,
       request a w =
         (Raise (BaseHTTPError UNAUTHORIZED message),
          {| self := set_osa (clear_cached_auth_context o) (self w1);
             now := now w1; log := (log w1 ++ l)%list |}) /\
       count is_clear l = 1%nat /\ count is_base_request l = 0%nat /\
       last l = Some EvClearCachedAuthContext) /\
  (forall token : string,
     _ex_force_auth_token (cfg (self w1)) = Some token ->
     request a w = (Raise (BaseHTTPError UNAUTHORIZED message), w1)).
Proof.
  intros Hbase. split.
  - intros o Hnone Ho.
    destruct (get_auth_class_ok _ _ Ho) as (l & Hw & Hl).
    exists (l ++ [EvClearCachedAuthContext])%list.
    split; [|destruct Hl as [-> | ->]; repeat split; reflexivity].
    unfold request, try_except_http. munfold. simpl.
    fold (entering_base_request w). rewrite Hbase.
    unfold on_http_error. munfold. simpl. rewrite Hnone. simpl.
    destruct (get_auth_class w1) as [r w2] eqn:Hg. simpl in Ho, Hw. subst r w2.
    simpl. rewrite <- app_assoc.
    destruct (self w1); reflexivity.
  - intros token Hsome.
    apply request_http_error_kept; [exact Hbase|].
    rewrite Hsome. reflexivity.
Qed.

(** *** [_set_up_connection_info] *)

Definition conn_info (c : Conn) : option string * option Z * bool * option string :=
  (host c, port c, secure c, request_path c).

(** What authentication stores on the connection. *)
Definition session (c : Conn) :=
  (cfg c, auth_token c, auth_token_expires c, auth_user_info c,
   service_catalog c, _osa c).

Definition is_connect (e : event) : bool :=
  match e with EvConnect _ _ _ => true | _ => false end.

Definition is_new_identity (e : event) : bool :=
  match e with EvNewIdentity => true | _ => false end.

(** Events of a list all satisfy [p]. *)
Definition only (p : event -> bool) (l : list event) : Prop := forallb p l = true.

Lemma only_app (p : event -> bool) (l1 l2 : list event) :
  only p l1 -> only p l2 -> only p (l1 ++ l2).
Proof. unfold only. rewrite forallb_app. intros -> ->. reflexivity. Qed.

Lemma only_count_0 (p q : event -> bool) (l : list event) :
  (forall e, p e = true -> q e = false) -> only p l -> count q l = 0%nat.
Proof.
  intros Hpq. unfold only, count. induction l as [|e l IH]; simpl; [reflexivity|].
  intros H. apply andb_true_iff in H as [He Hl].
  rewrite filter_cons. destruct (decide (q e = true)) as [Hq|_]; [|auto].
  rewrite (Hpq e He) in Hq. discriminate.
Qed.

Lemma only_weaken (p q : event -> bool) (l : list event) :
  (forall e, p e = true -> q e = true) -> only p l -> only q l.
Proof.
  intros Hpq. unfold only. induction l as [|e l IH]; simpl; [reflexivity|].
  intros H. apply andb_true_iff in H as [He Hl].
  rewrite (Hpq e He), IH; auto.
Qed.

Lemma set_up_connection_info_spec (url : option string) (w : World) :
  exists l,
    session (self (snd (_set_up_connection_info url w))) = session (self w) /\
    now (snd (_set_up_connection_info url w)) = now w /\
    log (snd (_set_up_connection_info url w)) = (log w ++ l)%list /\
    only is_connect l /\
    match _tuple_from_url url with
    | Ok t =>
        conn_info (self (snd (_set_up_connection_info url w))) = t /\
        (fst (_set_up_connection_info url w) = Ok tt \/
         exists e, fst (_set_up_connection_info url w) = Raise e /\
                   connect (host (self (snd (_set_up_connection_info url w))))
                           (port (self (snd (_set_up_connection_info url w))))
                           (secure (self (snd (_set_up_connection_info url w))))
                     = Raise e)
    | Raise e =>
        fst (_set_up_connection_info url w) = Raise e /\
        snd (_set_up_connection_info url w) = w
    end.
Proof.
  unfold _set_up_connection_info. munfold. destruct w as [c t lg]. simpl.
  destruct (_tuple_from_url url) as [[[[h p] s] rp]|e]; simpl.
  - destruct (decide ((h, p, s) = (host c, port c, secure c))) as [Heq|Hne]; simpl.
    + exists []. rewrite app_nil_r. repeat split; auto.
    + exists [EvConnect h p s]. repeat split; auto.
      destruct (connect h p s) as [[]|e]; simpl; [left; reflexivity|].
      right. exists e. split; reflexivity.
  - exists []. rewrite app_nil_r. repeat split; auto.
Qed.

(** *** [_populate_hosts_and_request_paths] with a forced token *)

(** Events that reach neither the identity service nor the catalog. *)
Definition is_local (e : event) : bool := is_new_identity e || is_connect e.

(** The attributes that neither [get_auth_class] nor
    [_set_up_connection_info] assigns. *)
Definition credentials (c : Conn) :=
  (cfg c, auth_token c, auth_token_expires c, auth_user_info c, service_catalog c).

Lemma get_auth_class_spec (w : World) :
  exists l,
    log (snd (get_auth_class w)) = (log w ++ l)%list /\
    only is_new_identity l /\
    now (snd (get_auth_class w)) = now w /\
    credentials (self (snd (get_auth_class w))) = credentials (self w) /\
    conn_info (self (snd (get_auth_class w))) = conn_info (self w) /\
    match fst (get_auth_class w) with
    | Ok o => _osa (self (snd (get_auth_class w))) = Some o /\
              (_osa (self w) = Some o \/
               _osa (self w) = None /\ identity_new (self w) = Ok o)
    | Raise e => self (snd (get_auth_class w)) = self w /\
                 _osa (self w) = None /\ identity_new (self w) = Raise e
    end.
Proof.
  unfold get_auth_class. munfold. destruct w as [c t lg]. simpl.
  destruct (_osa c) as [o|] eqn:Ho; simpl.
  - exists []. rewrite app_nil_r. repeat split; auto.
  - exists [EvNewIdentity].
    destruct (identity_new c) as [o|e]; simpl; repeat split; auto.
Qed.

Lemma get_auth_class_cfg (w : World) :
  cfg (self (snd (get_auth_class w))) = cfg (self w).
Proof.
  destruct (get_auth_class_spec w) as (_ & _ & _ & _ & H & _).
  injection H; auto.
Qed.

Lemma populate_forced_token_eq (w : World) :
  Py.truthy (_ex_force_auth_token (cfg (self w))) = true ->
  _populate_hosts_and_request_paths w =
    match get_auth_class w with
    | (Ok _, w1) => _set_up_connection_info (_ex_force_base_url (cfg (self w))) w1
    | (Raise e, w1) => (Raise e, w1)
    end.
Proof.
  intros Hforced. pose proof (get_auth_class_cfg w) as Hcfg.
  unfold _populate_hosts_and_request_paths.
  unfold mbind at 1, M_bind at 1, bind at 1.
  destruct (get_auth_class w) as [[o|e] w1]; simpl in *; [|reflexivity].
  unfold mbind at 1, M_bind at 1, bind at 1, get_self at 1.
  rewrite Hcfg, Hforced. reflexivity.
Qed.

Lemma only_local_identity (l : list event) : only is_new_identity l -> only is_local l.
Proof.
  apply only_weaken. intros ev Hev. unfold is_local. rewrite Hev. reflexivity.
Qed.

Lemma only_local_connect (l : list event) : only is_connect l -> only is_local l.
Proof.
  apply only_weaken. intros ev Hev. unfold is_local. rewrite Hev. apply orb_true_r.
Qed.

Lemma populate_forced_token (w : World) :
  Py.truthy (_ex_force_auth_token (cfg (self w))) = true ->
  exists l,
    log (snd (_populate_hosts_and_request_paths w)) = (log w ++ l)%list /\
    only is_local l /\
    now (snd (_populate_hosts_and_request_paths w)) = now w /\
    credentials (self (snd (_populate_hosts_and_request_paths w)))
      = credentials (self w) /\
    (fst (_populate_hosts_and_request_paths w) = Ok tt ->
     _tuple_from_url (_ex_force_base_url (cfg (self w)))
       = Ok (conn_info (self (snd (_populate_hosts_and_request_paths w))))).
Proof.
  intros Hforced. rewrite (populate_forced_token_eq w Hforced).
  destruct (get_auth_class_spec w) as (l1 & Hlog1 & Hl1 & Hnow1 & Hcred1 & _ & Hres1).
  destruct (get_auth_class w) as [[o|e] w1]; simpl in *.
  - destruct (set_up_connection_info_spec (_ex_force_base_url (cfg (self w))) w1)
      as (l2 & Hsess & Hnow2 & Hlog2 & Hl2 & Hres2).
    exists (l1 ++ l2)%list.
    rewrite Hlog2, Hlog1, app_assoc, Hnow2, Hnow1.
    split; [reflexivity|]. split.
    { apply only_app; [apply only_local_identity | apply only_local_connect]; assumption. }
    split; [reflexivity|]. split.
    { rewrite <- Hcred1. unfold credentials, session in *. injection Hsess. congruence. }
    intros Hok.
    destruct (_tuple_from_url (_ex_force_base_url (cfg (self w)))) as [t|e].
    + destruct Hres2 as [-> _]. reflexivity.
    + destruct Hres2 as [Hr _]. rewrite Hr in Hok. discriminate.
  - exists l1. destruct Hres1 as (Hself & _). rewrite Hself.
    repeat split; auto; [apply only_local_identity; assumption | discriminate].
Qed.

(** With a forced token the call returns as soon as the identity object
    can be built, the forced URL can be taken apart and the connection can
    be opened. *)
Lemma populate_forced_token_returns (w : World) :
  Py.truthy (_ex_force_auth_token (cfg (self w))) = true ->
  is_ok (fst (get_auth_class w)) = true ->
  is_ok (_tuple_from_url (_ex_force_base_url (cfg (self w)))) = true ->
  (forall h p s, connect h p s = Ok tt) ->
  fst (_populate_hosts_and_request_paths w) = Ok tt.
Proof.
  intros Hforced Hid Hurl Hconn. rewrite (populate_forced_token_eq w Hforced).
  destruct (get_auth_class w) as [[o|e] w1]; simpl in *; [|discriminate].
  destruct (set_up_connection_info_spec (_ex_force_base_url (cfg (self w))) w1)
    as (l2 & _ & _ & _ & _ & Hres2).
  destruct (_tuple_from_url (_ex_force_base_url (cfg (self w)))) as [t|e]; [|discriminate].
  destruct Hres2 as [_ [Hok | (e & _ & He)]]; [exact Hok|].
  rewrite Hconn in He. discriminate.
Qed.

(** *** [morph_action_hook] and the auth header *)

Lemma morph_action_hook_eq (action : string) (w : World) :
  morph_action_hook action w =
    match _populate_hosts_and_request_paths w with
    | (Ok _, w1) => (Ok (base_morph_action_hook (self w1) action), w1)
    | (Raise e, w1) => (Raise e, w1)
    end.
Proof.
  unfold morph_action_hook. unfold mbind at 1, M_bind at 1, bind at 1.
  destruct (_populate_hosts_and_request_paths w) as [[u|e] w1]; reflexivity.
Qed.

Lemma morph_action_hook_world (action : string) (w : World) :
  snd (morph_action_hook action w) = snd (_populate_hosts_and_request_paths w).
Proof.
  rewrite morph_action_hook_eq.
  destruct (_populate_hosts_and_request_paths w) as [[u|e] w1]; reflexivity.
Qed.

Lemma morph_action_hook_ok (action : string) (w : World) :
  is_ok (fst (morph_action_hook action w))
    = is_ok (fst (_populate_hosts_and_request_paths w)).
Proof.
  rewrite morph_action_hook_eq.
  destruct (_populate_hosts_and_request_paths w) as [[u|e] w1]; reflexivity.
Qed.

Lemma add_default_headers_token (c : Conn) (h h' : dict) :
  add_default_headers c h = Ok h' ->
  h' !! AUTH_TOKEN_HEADER = Some (auth_token c).
Proof.
  unfold add_default_headers, AUTH_TOKEN_HEADER.
  destruct (Py.truthy (_ex_force_microversion (cfg c))).
  - destruct (parse_microversion _) as [[service version]|e]; [|discriminate].
    destruct (service_type_matches c service); intros [= <-].
    + rewrite lookup_insert_ne by discriminate.
      rewrite lookup_insert_ne by discriminate.
      apply lookup_insert_eq.
    + rewrite lookup_insert_ne by discriminate.
      apply lookup_insert_eq.
  - intros [= <-]. rewrite lookup_insert_ne by discriminate.
    apply lookup_insert_eq.
Qed.

(** *** A connection with a forced token *)

(** The world of a connection that has just been constructed. *)
Definition fresh (c : Conn) (t0 : Z) : World :=
  {| self := c; now := t0; log := [] |}.

Lemma forced_token_invariant (action : string) (c : Conn) (times : list Z) :
  Py.truthy (_ex_force_auth_token (cfg c)) = true ->
  forall w,
    cfg (self w) = cfg c -> auth_token (self w) = auth_token c ->
    only is_local (log w) ->
    cfg (self (after_calls (morph_action_hook action) times w)) = cfg c /\
    auth_token (self (after_calls (morph_action_hook action) times w)) = auth_token c /\
    only is_local (log (after_calls (morph_action_hook action) times w)).
Proof.
  intros Hforced. induction times as [|t times IH]; intros w Hcfg Htok Hlog; simpl.
  - auto.
  - rewrite morph_action_hook_world.
    assert (Hf : Py.truthy (_ex_force_auth_token (cfg (self (at_time t w)))) = true)
      by (simpl; rewrite Hcfg; exact Hforced).
    destruct (populate_forced_token (at_time t w) Hf) as (l & Hl & Honly & _ & Hcred & _).
    unfold credentials in Hcred. simpl in Hcred, Hl.
    apply IH.
    + injection Hcred. congruence.
    + injection Hcred. congruence.
    + rewrite Hl. apply only_app; assumption.
Qed.

Lemma init_ok_settings (cls : ClassAttrs) (b : BaseInit) (k : Kwargs) (c : Conn) :
  __init__ cls b k = Ok c ->
  _ex_force_microversion (cfg c) = ex_force_microversion k /\
  accept_format (cfg c) = cls_accept_format cls.
Proof.
  unfold __init__. intros H.
  destruct (Py.truthy (ex_force_auth_token k) && negb (Py.truthy (ex_force_base_url k)));
    [discriminate|].
  match type of H with
  | (if ?g then _ else _) = _ => destruct g; [discriminate|]
  end.
  injection H as <-. split; reflexivity.
Qed.

Lemma add_default_headers_plain (c : Conn) (h : dict) :
  Py.truthy (_ex_force_microversion (cfg c)) = false ->
  add_default_headers c h
    = Ok (<["Accept" := accept_format (cfg c)]> (<[AUTH_TOKEN_HEADER := auth_token c]> h)).
Proof. intros H. unfold add_default_headers. rewrite H. reflexivity. Qed.

Lemma add_default_headers_depends (c c' : Conn) (h : dict) :
  cfg c' = cfg c -> auth_token c' = auth_token c ->
  add_default_headers c' h = add_default_headers c h.
Proof.
  intros Hcfg Htok. unfold add_default_headers, service_type_matches.
  rewrite Hcfg, Htok. reflexivity.
Qed.

(** C3. A connection constructed with a forced auth token and a forced
    base URL never authenticates: after any number of request
    preparations ([morph_action_hook], at any times) the log holds no
    call of [authenticate].  The default headers are returned exactly
    when no microversion is forced or the forced one parses, and then
    the auth header carries the forced token as given; without a forced
    microversion they are the given headers with that token and the
    accept format.  A preparation that returns has taken host, port,
    scheme and path from the forced base URL itself, and it does return,
    with those, when the identity object can be built, the URL parsed
    and the connection opened. *)
Theorem forced_token_skips_authentication
    (cls : ClassAttrs) (b : BaseInit) (k : Kwargs) (c : Conn)
    (action : string) (times : list Z) (t0 : Z) :
  __init__ cls b k = Ok c ->
  Py.truthy (ex_force_auth_token k) = true ->
  Py.truthy (ex_force_base_url k) = true ->
  let w := after_calls (morph_action_hook action) times (fresh c t0) in
  count is_authenticate (log w) = 0%nat /\
  (forall h h' : dict,
     add_default_headers (self w) h = Ok h' ->
     h' !! AUTH_TOKEN_HEADER = Some (ex_force_auth_token k)) /\
  (forall t : Z,
     is_ok (fst (morph_action_hook action (at_time t w))) = true ->
     _tuple_from_url (ex_force_base_url k)
       = Ok (conn_info (self (snd (morph_action_hook action (at_time t w)))))) /\
  (forall t : Z,
     is_ok (fst (get_auth_class (at_time t w))) = true ->
     is_ok (_tuple_from_url (ex_force_base_url k)) = true ->
     (forall h p s, connect h p s = Ok tt) ->
     is_ok (fst (morph_action_hook action (at_time t w))) = true) /\
  (forall h : dict,
     is_ok (add_default_headers (self w) h)
       = negb (Py.truthy (ex_force_microversion k))
         || is_ok (parse_microversion (default "" (ex_force_microversion k))) /\
     (Py.truthy (ex_force_microversion k) = false ->
      add_default_headers (self w) h
        = Ok (<["Accept" := cls_accept_format cls]>
                (<[AUTH_TOKEN_HEADER := ex_force_auth_token k]> h))) /\
     (is_ok (add_default_headers (self w) h) = true ->
      exists h',
        add_default_headers (self w) h = Ok h' /\
        h' !! AUTH_TOKEN_HEADER = Some (ex_force_auth_token k))) /\
  (forall (t : Z) (info : option string * option Z * bool * option string),
     is_ok (fst (get_auth_class (at_time t w))) = true ->
     _tuple_from_url (ex_force_base_url k) = Ok info ->
     (forall h p s, connect h p s = Ok tt) ->
     is_ok (fst (morph_action_hook action (at_time t w))) = true /\
     conn_info (self (snd (morph_action_hook action (at_time t w)))) = info).
Proof.
  intros Hinit Htok Hbase w.
  destruct (init_ok_inv _ _ _ _ Hinit) as (Hft & Hfb & Hforced & _).
  destruct (init_ok_settings _ _ _ _ Hinit) as (Hmv & Haccept).
  destruct (Hforced Htok) as [_ Hauth].
  assert (Hf : Py.truthy (_ex_force_auth_token (cfg c)) = true) by (rewrite Hft; exact Htok).
  destruct (forced_token_invariant action c times Hf (fresh c t0))
    as (Hcfg & Htoken & Hlog); try reflexivity.
  fold w in Hcfg, Htoken, Hlog.
  assert (Hfw : forall t, Py.truthy (_ex_force_auth_token (cfg (self (at_time t w)))) = true)
    by (intros t; simpl; rewrite Hcfg; exact Hf).
  assert (Hheader : forall h h' : dict,
             add_default_headers (self w) h = Ok h' ->
             h' !! AUTH_TOKEN_HEADER = Some (ex_force_auth_token k)).
  { intros h h' Hh. rewrite (add_default_headers_token _ _ _ Hh), Htoken, Hauth.
    reflexivity. }
  assert (Hinfo : forall t : Z,
             is_ok (fst (morph_action_hook action (at_time t w))) = true ->
             _tuple_from_url (ex_force_base_url k)
               = Ok (conn_info (self (snd (morph_action_hook action (at_time t w)))))).
  { intros t Hok. rewrite morph_action_hook_ok in Hok.
    rewrite morph_action_hook_world.
    destruct (populate_forced_token (at_time t w) (Hfw t)) as (l & _ & _ & _ & _ & Hurl).
    simpl in Hurl. rewrite Hcfg, Hfb in Hurl. apply Hurl.
    destruct (fst (_populate_hosts_and_request_paths (at_time t w))) as [[]|e];
      [reflexivity | discriminate]. }
  assert (Hreturns : forall t : Z,
             is_ok (fst (get_auth_class (at_time t w))) = true ->
             is_ok (_tuple_from_url (ex_force_base_url k)) = true ->
             (forall h p s, connect h p s = Ok tt) ->
             is_ok (fst (morph_action_hook action (at_time t w))) = true).
  { intros t Hid Hurl Hconn. rewrite morph_action_hook_ok.
    rewrite (populate_forced_token_returns (at_time t w)); auto.
    simpl. rewrite Hcfg, Hfb. exact Hurl. }
  split; [|split; [exact Hheader|split; [exact Hinfo|split; [exact Hreturns|split]]]].
  - apply (only_count_0 is_local); [|exact Hlog].
    intros [] He; try discriminate; reflexivity.
  - intros h.
    assert (Hok : is_ok (add_default_headers (self w) h)
                  = negb (Py.truthy (ex_force_microversion k))
                    || is_ok (parse_microversion (default "" (ex_force_microversion k)))).
    { rewrite add_default_headers_ok, Hcfg, Hmv.
      destruct (ex_force_microversion k) as [mv|]; [|reflexivity].
      simpl. rewrite negb_involutive. reflexivity. }
    split; [exact Hok|]. split.
    + intros Hnone. rewrite add_default_headers_plain by (rewrite Hcfg, Hmv; exact Hnone).
      rewrite Hcfg, Haccept, Htoken, Hauth. reflexivity.
    + intros Hyes. destruct (add_default_headers (self w) h) as [h'|e] eqn:Hh;
        [|discriminate].
      exists h'. split; [reflexivity|]. exact (Hheader h h' Hh).
  - intros t info Hid Hurl Hconn.
    assert (Hok : is_ok (fst (morph_action_hook action (at_time t w))) = true).
    { apply Hreturns; [exact Hid | rewrite Hurl; reflexivity | exact Hconn]. }
    split; [exact Hok|].
    pose proof (Hinfo t Hok) as Hi. rewrite Hurl in Hi. injection Hi as ->. reflexivity.
Qed.

(** *** [get_endpoint] *)

Definition log_event (e : event) (w : World) : World :=
  {| self := self w; now := now w; log := (log w ++ [e])%list |}.

Lemma get_endpoint_eq (w : World) :
  get_endpoint w =
    let st := effective (_ex_force_service_type (cfg (self w))) (service_type (cfg (self w))) in
    let sn := effective (_ex_force_service_name (cfg (self w))) (service_name (cfg (self w))) in
    let sr :=
      effective (_ex_force_service_region (cfg (self w))) (service_region (cfg (self w))) in
    match service_catalog (self w) with
    | None => (Raise (OtherError "AttributeError"), w)
    | Some osc =>
        match catalog_get_endpoint osc st sn sr with
        | Ok url =>
            if Py.truthy url then (Ok url, log_event (EvCatalogGetEndpoint st sn sr) w)
            else (Raise (LibcloudError "Could not find specified endpoint"),
                  log_event (EvCatalogGetEndpoint st sn sr) w)
        | Raise e => (Raise e, log_event (EvCatalogGetEndpoint st sn sr) w)
        end
    end.
Proof.
  unfold get_endpoint. munfold. simpl.
  destruct (service_catalog (self w)) as [osc|]; [|reflexivity].
  simpl. destruct (catalog_get_endpoint osc _ _ _) as [url|e]; simpl; [|reflexivity].
  destruct (Py.truthy url); reflexivity.
Qed.

(** The last two statements of [_populate_hosts_and_request_paths]. *)
Definition resolve_and_connect : M unit :=
  c2 ← get_self;
  url ← (if Py.truthy (_ex_force_base_url (cfg c2))
         then mret (_ex_force_base_url (cfg c2))
         else get_endpoint);
  _set_up_connection_info url.

Definition is_lookup_or_connect (e : event) : bool :=
  is_catalog_lookup e || is_connect e.

Lemma resolve_and_connect_eq (w : World) :
  resolve_and_connect w =
    if Py.truthy (_ex_force_base_url (cfg (self w)))
    then _set_up_connection_info (_ex_force_base_url (cfg (self w))) w
    else match get_endpoint w with
         | (Ok url, w1) => _set_up_connection_info url w1
         | (Raise e, w1) => (Raise e, w1)
         end.
Proof.
  unfold resolve_and_connect.
  unfold mbind at 1, M_bind at 1, bind at 1, get_self at 1. simpl.
  destruct (Py.truthy (_ex_force_base_url (cfg (self w)))); reflexivity.
Qed.

Lemma only_lookup_connect (l : list event) :
  only is_connect l -> only is_lookup_or_connect l.
Proof.
  apply only_weaken. intros ev Hev. unfold is_lookup_or_connect.
  rewrite Hev. apply orb_true_r.
Qed.

Lemma resolve_and_connect_spec (w : World) :
  exists l,
    log (snd (resolve_and_connect w)) = (log w ++ l)%list /\
    only is_lookup_or_connect l /\
    now (snd (resolve_and_connect w)) = now w /\
    session (self (snd (resolve_and_connect w))) = session (self w) /\
    (Py.truthy (_ex_force_base_url (cfg (self w))) = true -> only is_connect l).
Proof.
  rewrite resolve_and_connect_eq.
  destruct (Py.truthy (_ex_force_base_url (cfg (self w)))) eqn:Hb.
  - destruct (set_up_connection_info_spec (_ex_force_base_url (cfg (self w))) w)
      as (l & Hsess & Hnow & Hlog & Hl & _).
    exists l. repeat split; auto. apply only_lookup_connect. exact Hl.
  - rewrite get_endpoint_eq. simpl.
    destruct (service_catalog (self w)) as [osc|] eqn:Hosc.
    + set (ev := EvCatalogGetEndpoint _ _ _).
      destruct (catalog_get_endpoint osc _ _ _) as [url|e].
      * destruct (Py.truthy url).
        -- destruct (set_up_connection_info_spec url (log_event ev w))
             as (l & Hsess & Hnow & Hlog & Hl & _).
           exists (ev :: l). simpl in *. rewrite Hlog, <- app_assoc.
           repeat split; auto; try discriminate.
           unfold only. simpl. apply only_lookup_connect. exact Hl.
        -- exists [ev]. repeat split; auto; discriminate.
      * exists [ev]. repeat split; auto; discriminate.
    + exists []. simpl. rewrite app_nil_r. repeat split; auto; discriminate.
Qed.

(** *** [_populate_hosts_and_request_paths] without a forced token *)

(** The body of [if not osa.is_token_valid()]. *)
Definition authenticate_step (o : Osa) (w1 : World) : result unit * World :=
  let kwargs := auth_kwargs (_auth_version (cfg (self w1))) in
  match authenticate kwargs (now w1) o with
  | Raise e => (Raise e, log_event (EvAuthenticate kwargs) w1)
  | Ok (o', r) =>
      let c2 := set_auth r (set_osa o' (self w1)) in
      let lg := (log w1 ++ [EvAuthenticate kwargs])%list in
      match OpenStackServiceCatalog (res_urls r) (_auth_version (cfg (self w1))) with
      | Raise e => (Raise e, {| self := c2; now := now w1; log := lg |})
      | Ok osc =>
          (Ok tt, {| self := set_service_catalog osc c2; now := now w1; log := lg |})
      end
  end.

Lemma populate_eq (w : World) :
  _populate_hosts_and_request_paths w =
    match get_auth_class w with
    | (Raise e, w1) => (Raise e, w1)
    | (Ok o, w1) =>
        if Py.truthy (_ex_force_auth_token (cfg (self w1)))
        then _set_up_connection_info (_ex_force_base_url (cfg (self w1))) w1
        else if is_token_valid (now w1) o then resolve_and_connect w1
        else match authenticate_step o w1 with
             | (Ok _, w2) => resolve_and_connect w2
             | (Raise e, w2) => (Raise e, w2)
             end
    end.
Proof.
  unfold _populate_hosts_and_request_paths.
  unfold mbind at 1, M_bind at 1, bind at 1.
  destruct (get_auth_class w) as [[o|e] w1]; [|reflexivity].
  unfold mbind at 1, M_bind at 1, bind at 1, get_self at 1.
  destruct (Py.truthy (_ex_force_auth_token (cfg (self w1)))); [reflexivity|].
  unfold mbind at 1, M_bind at 1, bind at 1, clock at 1.
  fold resolve_and_connect.
  destruct (is_token_valid (now w1) o); simpl.
  - unfold mbind at 1, M_bind at 1, bind at 1, mret, M_ret, ret. reflexivity.
  - unfold authenticate_step, log_event. munfold. simpl.
    destruct (authenticate _ (now w1) o) as [[o' r]|e]; simpl; [|reflexivity].
    destruct (OpenStackServiceCatalog _ _) as [osc|e]; reflexivity.
Qed.

Lemma get_auth_class_cached (w : World) (o : Osa) :
  _osa (self w) = Some o -> get_auth_class w = (Ok o, w).
Proof.
  intros Ho. unfold get_auth_class. munfold. simpl. rewrite Ho. reflexivity.
Qed.

Lemma no_authenticate_local (l : list event) :
  only is_local l -> count is_authenticate l = 0%nat.
Proof. apply only_count_0. intros [] He; try discriminate; reflexivity. Qed.

Lemma no_authenticate_lookup_connect (l : list event) :
  only is_lookup_or_connect l -> count is_authenticate l = 0%nat.
Proof. apply only_count_0. intros [] He; try discriminate; reflexivity. Qed.

Lemma no_authenticate_identity (l : list event) :
  only is_new_identity l -> count is_authenticate l = 0%nat.
Proof. apply only_count_0. intros [] He; try discriminate; reflexivity. Qed.

(** A valid token: nothing is asked of the identity service and what
    authentication stored stays as it is. *)
Lemma populate_valid_token (w : World) (o : Osa) :
  _osa (self w) = Some o ->
  is_token_valid (now w) o = true ->
  exists l,
    log (snd (_populate_hosts_and_request_paths w)) = (log w ++ l)%list /\
    count is_authenticate l = 0%nat /\
    session (self (snd (_populate_hosts_and_request_paths w))) = session (self w) /\
    now (snd (_populate_hosts_and_request_paths w)) = now w.
Proof.
  intros Ho Hvalid. rewrite populate_eq, (get_auth_class_cached w o Ho).
  destruct (Py.truthy (_ex_force_auth_token (cfg (self w)))).
  - destruct (set_up_connection_info_spec (_ex_force_base_url (cfg (self w))) w)
      as (l & Hsess & Hnow & Hlog & Hl & _).
    exists l. repeat split; auto.
    apply no_authenticate_local, only_local_connect, Hl.
  - rewrite Hvalid.
    destruct (resolve_and_connect_spec w) as (l & Hlog & Hl & Hnow & Hsess & _).
    exists l. repeat split; auto.
    apply no_authenticate_lookup_connect, Hl.
Qed.

(** No valid token and no forced token: [authenticate] is called once and
    its result is stored. *)
Lemma populate_authenticates (w : World) (o o' : Osa) (r : AuthResult) :
  Py.truthy (_ex_force_auth_token (cfg (self w))) = false ->
  fst (get_auth_class w) = Ok o ->
  is_token_valid (now w) o = false ->
  authenticate (auth_kwargs (_auth_version (cfg (self w)))) (now w) o = Ok (o', r) ->
  exists l,
    log (snd (_populate_hosts_and_request_paths w)) = (log w ++ l)%list /\
    count is_authenticate l = 1%nat /\
    now (snd (_populate_hosts_and_request_paths w)) = now w /\
    cfg (self (snd (_populate_hosts_and_request_paths w))) = cfg (self w) /\
    _osa (self (snd (_populate_hosts_and_request_paths w))) = Some o' /\
    auth_token (self (snd (_populate_hosts_and_request_paths w))) = res_auth_token r /\
    auth_token_expires (self (snd (_populate_hosts_and_request_paths w)))
      = res_auth_token_expires r /\
    auth_user_info (self (snd (_populate_hosts_and_request_paths w)))
      = res_auth_user_info r.
Proof.
  intros Hforced Hid Hinvalid Hauth. rewrite populate_eq.
  destruct (get_auth_class_spec w) as (l1 & Hlog1 & Hl1 & Hnow1 & Hcred1 & _ & _).
  destruct (get_auth_class w) as [[o1|e] w1]; simpl in *; [|discriminate].
  injection Hid as ->.
  assert (Hcfg : cfg (self w1) = cfg (self w)) by (injection Hcred1; auto).
  rewrite Hcfg, Hforced, Hnow1, Hinvalid.
  unfold authenticate_step. rewrite Hcfg, Hnow1, Hauth.
  set (ev := EvAuthenticate _).
  destruct (OpenStackServiceCatalog _ _) as [osc|e].
  - match goal with |- context [resolve_and_connect ?w2] =>
      destruct (resolve_and_connect_spec w2) as (l3 & Hlog3 & Hl3 & Hnow3 & Hsess3 & _)
    end.
    exists (l1 ++ ev :: l3)%list.
    split; [rewrite Hlog3; simpl; rewrite Hlog1, <- !app_assoc; reflexivity|].
    split.
    { rewrite count_app, (no_authenticate_identity _ Hl1).
      change (ev :: l3) with ([ev] ++ l3)%list.
      rewrite count_app, (no_authenticate_lookup_connect _ Hl3). reflexivity. }
    split; [rewrite Hnow3; reflexivity|].
    unfold session in Hsess3. simpl in Hsess3.
    injection Hsess3 as -> -> -> -> _ ->. rewrite Hcfg. repeat split; reflexivity.
  - exists (l1 ++ [ev])%list. simpl. rewrite Hlog1, <- app_assoc.
    split; [reflexivity|]. split.
    { rewrite count_app, (no_authenticate_identity _ Hl1). reflexivity. }
    rewrite Hcfg. repeat split; reflexivity.
Qed.

(** C6. If the identity connection reports a valid token when a request
    is prepared, [authenticate] is not called and the stored token,
    expiry, user info, service catalog and identity object are unchanged.
    Hence two preparations in a row, the first without a valid token and
    the second while the token obtained by the first is still valid, call
    [authenticate] exactly once, and the second leaves what the first
    stored as it is. *)
Theorem valid_token_is_reused :
  (forall (w : World) (o : Osa),
     _osa (self w) = Some o ->
     is_token_valid (now w) o = true ->
     exists l,
       log (snd (_populate_hosts_and_request_paths w)) = (log w ++ l)%list /\
       count is_authenticate l = 0%nat /\
       session (self (snd (_populate_hosts_and_request_paths w))) = session (self w)) /\
  (forall (w : World) (o o' : Osa) (r : AuthResult) (t2 : Z),
     Py.truthy (_ex_force_auth_token (cfg (self w))) = false ->
     fst (get_auth_class w) = Ok o ->
     is_token_valid (now w) o = false ->
     authenticate (auth_kwargs (_auth_version (cfg (self w)))) (now w) o = Ok (o', r) ->
     is_token_valid t2 o' = true ->
     let w1 := snd (_populate_hosts_and_request_paths w) in
     let w2 := snd (_populate_hosts_and_request_paths (at_time t2 w1)) in
     exists l,
       log w2 = (log w ++ l)%list /\
       count is_authenticate l = 1%nat /\
       session (self w2) = session (self w1) /\
       auth_token (self w2) = res_auth_token r /\
       auth_token_expires (self w2) = res_auth_token_expires r /\
       auth_user_info (self w2) = res_auth_user_info r).
Proof.
  split.
  - intros w o Ho Hvalid.
    destruct (populate_valid_token w o Ho Hvalid) as (l & Hlog & Hc & Hs & _).
    exists l. auto.
  - intros w o o' r t2 Hforced Hid Hinvalid Hauth Hvalid w1 w2.
    destruct (populate_authenticates w o o' r Hforced Hid Hinvalid Hauth)
      as (l1 & Hlog1 & Hc1 & _ & _ & Hosa & Htok & Hexp & Hinfo).
    fold w1 in Hlog1, Hosa, Htok, Hexp, Hinfo.
    destruct (populate_valid_token (at_time t2 w1) o' Hosa Hvalid)
      as (l2 & Hlog2 & Hc2 & Hs2 & _).
    fold w2 in Hlog2, Hs2. simpl in Hlog2, Hs2.
    exists (l1 ++ l2)%list.
    split; [rewrite Hlog2, Hlog1, app_assoc; reflexivity|].
    split; [rewrite count_app, Hc1, Hc2; reflexivity|].
    split; [exact Hs2|].
    unfold session in Hs2. injection Hs2 as _ -> -> -> _ _. auto.
Qed.

(** *** Endpoint selection *)

Lemma set_up_connection_info_ok (url : option string) (w : World) :
  is_ok (fst (_set_up_connection_info url w)) = true ->
  _tuple_from_url url = Ok (conn_info (self (snd (_set_up_connection_info url w)))).
Proof.
  intros Hok.
  destruct (set_up_connection_info_spec url w) as (l & _ & _ & _ & _ & Hres).
  destruct (_tuple_from_url url) as [t|e].
  - destruct Hres as [-> _]. reflexivity.
  - destruct Hres as [Hr _]. rewrite Hr in Hok. discriminate.
Qed.

Lemma no_lookup_connect (l : list event) :
  only is_connect l -> count is_catalog_lookup l = 0%nat.
Proof. apply only_count_0. intros [] He; try discriminate; reflexivity. Qed.

Lemma no_lookup_identity (l : list event) :
  only is_new_identity l -> count is_catalog_lookup l = 0%nat.
Proof. apply only_count_0. intros [] He; try discriminate; reflexivity. Qed.

Lemma authenticate_step_spec (o : Osa) (w1 : World) :
  cfg (self (snd (authenticate_step o w1))) = cfg (self w1) /\
  log (snd (authenticate_step o w1))
    = (log w1 ++ [EvAuthenticate (auth_kwargs (_auth_version (cfg (self w1))))])%list.
Proof.
  unfold authenticate_step.
  destruct (authenticate _ (now w1) o) as [[o' r]|e]; simpl; [|auto].
  destruct (OpenStackServiceCatalog _ _) as [osc|e]; simpl; auto.
Qed.

(** With a forced base URL no call of the catalog is made, whatever else
    happens, and a call that returns has taken the connection details from
    that URL. *)
Lemma populate_forced_base_url (w : World) :
  Py.truthy (_ex_force_base_url (cfg (self w))) = true ->
  exists l,
    log (snd (_populate_hosts_and_request_paths w)) = (log w ++ l)%list /\
    count is_catalog_lookup l = 0%nat /\
    (is_ok (fst (_populate_hosts_and_request_paths w)) = true ->
     _tuple_from_url (_ex_force_base_url (cfg (self w)))
       = Ok (conn_info (self (snd (_populate_hosts_and_request_paths w))))).
Proof.
  intros Hb. rewrite populate_eq.
  destruct (get_auth_class_spec w) as (l1 & Hlog1 & Hl1 & _ & Hcred1 & _ & _).
  destruct (get_auth_class w) as [[o|e] w1]; simpl in *.
  - assert (Hcfg : cfg (self w1) = cfg (self w)) by (injection Hcred1; auto).
    rewrite Hcfg.
    assert (Hsetup : forall w2 l2,
              cfg (self w2) = cfg (self w) ->
              log w2 = (log w ++ l2)%list -> count is_catalog_lookup l2 = 0%nat ->
              exists l,
                log (snd (_set_up_connection_info (_ex_force_base_url (cfg (self w))) w2))
                  = (log w ++ l)%list /\
                count is_catalog_lookup l = 0%nat /\
                (is_ok (fst (_set_up_connection_info (_ex_force_base_url (cfg (self w))) w2))
                   = true ->
                 _tuple_from_url (_ex_force_base_url (cfg (self w)))
                   = Ok (conn_info (self (snd (_set_up_connection_info
                                                 (_ex_force_base_url (cfg (self w))) w2)))))).
    { intros w2 l2 Hcfg2 Hlog2 Hc2.
      destruct (set_up_connection_info_spec (_ex_force_base_url (cfg (self w))) w2)
        as (l3 & _ & _ & Hlog3 & Hl3 & _).
      exists (l2 ++ l3)%list. rewrite Hlog3, Hlog2, app_assoc.
      split; [reflexivity|]. split.
      - rewrite count_app, Hc2, (no_lookup_connect _ Hl3). reflexivity.
      - apply set_up_connection_info_ok. }
    destruct (Py.truthy (_ex_force_auth_token (cfg (self w)))).
    + apply (Hsetup w1 l1); auto. apply no_lookup_identity, Hl1.
    + destruct (is_token_valid (now w1) o).
      * rewrite resolve_and_connect_eq, Hcfg, Hb.
        apply (Hsetup w1 l1); auto. apply no_lookup_identity, Hl1.
      * destruct (authenticate_step_spec o w1) as [Hcfg2 Hlog2].
        destruct (authenticate_step o w1) as [[u|e] w2]; simpl in *.
        -- assert (Hcfg2' : cfg (self w2) = cfg (self w)) by congruence.
           rewrite resolve_and_connect_eq, Hcfg2', Hb.
           apply (Hsetup w2 (l1 ++ [EvAuthenticate (auth_kwargs (_auth_version (cfg (self w1))))])%list);
             auto.
           ++ rewrite Hlog2, Hlog1, app_assoc. reflexivity.
           ++ rewrite count_app, (no_lookup_identity _ Hl1). reflexivity.
        -- exists (l1 ++ [EvAuthenticate (auth_kwargs (_auth_version (cfg (self w1))))])%list.
           rewrite Hlog2, Hlog1, app_assoc. split; [reflexivity|]. split.
           ++ rewrite count_app, (no_lookup_identity _ Hl1). reflexivity.
           ++ discriminate.
  - exists l1. split; [assumption|]. split; [apply no_lookup_identity, Hl1 | discriminate].
Qed.

Lemma set_up_connection_info_returns
    (url : option string) (w : World)
    (info : option string * option Z * bool * option string) :
  _tuple_from_url url = Ok info ->
  (forall h p s, connect h p s = Ok tt) ->
  fst (_set_up_connection_info url w) = Ok tt /\
  conn_info (self (snd (_set_up_connection_info url w))) = info.
Proof.
  intros Hurl Hconn.
  destruct (set_up_connection_info_spec url w) as (l & _ & _ & _ & _ & Hres).
  rewrite Hurl in Hres. destruct Hres as [Hinfo [Hok | (e & _ & He)]].
  - split; assumption.
  - rewrite Hconn in He. discriminate.
Qed.

(** With a forced base URL the call returns, with the connection details
    of that URL, when the identity object is there, the URL can be taken
    apart, the connection can be opened and, where the call has to
    authenticate, the handshake succeeds and the catalog can be built. *)
Lemma populate_forced_base_url_returns
    (w : World) (o : Osa) (info : option string * option Z * bool * option string) :
  Py.truthy (_ex_force_base_url (cfg (self w))) = true ->
  fst (get_auth_class w) = Ok o ->
  _tuple_from_url (_ex_force_base_url (cfg (self w))) = Ok info ->
  (forall h p s, connect h p s = Ok tt) ->
  (Py.truthy (_ex_force_auth_token (cfg (self w))) = true \/
   is_token_valid (now w) o = true \/
   exists o' r osc,
     authenticate (auth_kwargs (_auth_version (cfg (self w)))) (now w) o = Ok (o', r) /\
     OpenStackServiceCatalog (res_urls r) (_auth_version (cfg (self w))) = Ok osc) ->
  fst (_populate_hosts_and_request_paths w) = Ok tt /\
  conn_info (self (snd (_populate_hosts_and_request_paths w))) = info.
Proof.
  intros Hb Hid Hurl Hconn Hcase. rewrite populate_eq.
  destruct (get_auth_class_spec w) as (l1 & _ & _ & Hnow1 & Hcred1 & _ & _).
  destruct (get_auth_class w) as [[o1|e] w1]; simpl in *; [|discriminate].
  injection Hid as ->.
  assert (Hcfg : cfg (self w1) = cfg (self w)) by (injection Hcred1; auto).
  rewrite Hcfg, Hnow1.
  destruct (Py.truthy (_ex_force_auth_token (cfg (self w)))) eqn:Hforced.
  - apply set_up_connection_info_returns; assumption.
  - destruct (is_token_valid (now w) o) eqn:Hvalid.
    + rewrite resolve_and_connect_eq, Hcfg, Hb.
      apply set_up_connection_info_returns; assumption.
    + destruct Hcase as [Hc | [Hc | (o' & r & osc & Hauth & Hosc)]]; try discriminate.
      unfold authenticate_step. rewrite Hcfg, Hnow1, Hauth, Hosc.
      rewrite resolve_and_connect_eq. simpl. rewrite Hcfg, Hb.
      apply set_up_connection_info_returns; assumption.
Qed.

(** A catalog that cannot be built stops the call where it authenticates,
    before any URL is used. *)
Lemma populate_catalog_failure
    (w : World) (o o' : Osa) (r : AuthResult) (e : exn) :
  Py.truthy (_ex_force_auth_token (cfg (self w))) = false ->
  fst (get_auth_class w) = Ok o ->
  is_token_valid (now w) o = false ->
  authenticate (auth_kwargs (_auth_version (cfg (self w)))) (now w) o = Ok (o', r) ->
  OpenStackServiceCatalog (res_urls r) (_auth_version (cfg (self w))) = Raise e ->
  fst (_populate_hosts_and_request_paths w) = Raise e /\
  conn_info (self (snd (_populate_hosts_and_request_paths w))) = conn_info (self w) /\
  exists l,
    log (snd (_populate_hosts_and_request_paths w)) = (log w ++ l)%list /\
    count is_connect l = 0%nat.
Proof.
  intros Hforced Hid Hinvalid Hauth Hosc. rewrite populate_eq.
  destruct (get_auth_class_spec w) as (l1 & Hlog1 & Hl1 & Hnow1 & Hcred1 & Hinfo1 & _).
  destruct (get_auth_class w) as [[o1|e1] w1]; simpl in *; [|discriminate].
  injection Hid as ->.
  assert (Hcfg : cfg (self w1) = cfg (self w)) by (injection Hcred1; auto).
  rewrite Hcfg, Hforced, Hnow1, Hinvalid.
  unfold authenticate_step. rewrite Hcfg, Hnow1, Hauth, Hosc. simpl.
  split; [reflexivity|]. split; [exact Hinfo1|].
  eexists. rewrite Hlog1, <- app_assoc. split; [reflexivity|].
  rewrite count_app.
  rewrite (only_count_0 is_new_identity is_connect l1); [reflexivity | | exact Hl1].
  intros [] He; try discriminate; reflexivity.
Qed.

(** C7 (amended). [get_endpoint] asks the catalog for the effective
    service type, name and region, each being the forced value when one
    is given (not [None], not empty) and the default otherwise.  When a
    forced base URL is given, [_populate_hosts_and_request_paths] looks
    nothing up in the catalog, and a call that returns has taken the
    connection details from that URL; it does return, with those details,
    when the identity object is there, the URL can be taken apart, the
    connection can be opened and, if the call has to authenticate, the
    handshake succeeds and the catalog can be built.  For the catalog is
    still built from the response whenever the call authenticates: a
    failure to build it is raised before the URL is used. *)
Theorem endpoint_overrides :
  (forall forced default : option string,
     effective forced default =
       match forced with
       | Some s => if String.eqb s "" then default else Some s
       | None => default
       end) /\
  (forall (w : World) (osc : Catalog),
     service_catalog (self w) = Some osc ->
     let st := effective (_ex_force_service_type (cfg (self w))) (service_type (cfg (self w))) in
     let sn := effective (_ex_force_service_name (cfg (self w))) (service_name (cfg (self w))) in
     let sr :=
       effective (_ex_force_service_region (cfg (self w))) (service_region (cfg (self w))) in
     log (snd (get_endpoint w)) = (log w ++ [EvCatalogGetEndpoint st sn sr])%list /\
     fst (get_endpoint w) =
       match catalog_get_endpoint osc st sn sr with
       | Ok url =>
           if Py.truthy url then Ok url
           else Raise (LibcloudError "Could not find specified endpoint")
       | Raise e => Raise e
       end) /\
  (forall w : World,
     Py.truthy (_ex_force_base_url (cfg (self w))) = true ->
     exists l,
       log (snd (_populate_hosts_and_request_paths w)) = (log w ++ l)%list /\
       count is_catalog_lookup l = 0%nat /\
       (is_ok (fst (_populate_hosts_and_request_paths w)) = true ->
        _tuple_from_url (_ex_force_base_url (cfg (self w)))
          = Ok (conn_info (self (snd (_populate_hosts_and_request_paths w)))))) /\
  (forall (w : World) (o : Osa) (info : option string * option Z * bool * option string),
     Py.truthy (_ex_force_base_url (cfg (self w))) = true ->
     fst (get_auth_class w) = Ok o ->
     _tuple_from_url (_ex_force_base_url (cfg (self w))) = Ok info ->
     (forall h p s, connect h p s = Ok tt) ->
     (Py.truthy (_ex_force_auth_token (cfg (self w))) = true \/
      is_token_valid (now w) o = true \/
      exists o' r osc,
        authenticate (auth_kwargs (_auth_version (cfg (self w)))) (now w) o = Ok (o', r) /\
        OpenStackServiceCatalog (res_urls r) (_auth_version (cfg (self w))) = Ok osc) ->
     fst (_populate_hosts_and_request_paths w) = Ok tt /\
     conn_info (self (snd (_populate_hosts_and_request_paths w))) = info) /\
  (forall (w : World) (o o' : Osa) (r : AuthResult) (e : exn),
     Py.truthy (_ex_force_base_url (cfg (self w))) = true ->
     Py.truthy (_ex_force_auth_token (cfg (self w))) = false ->
     fst (get_auth_class w) = Ok o ->
     is_token_valid (now w) o = false ->
     authenticate (auth_kwargs (_auth_version (cfg (self w)))) (now w) o = Ok (o', r) ->
     OpenStackServiceCatalog (res_urls r) (_auth_version (cfg (self w))) = Raise e ->
     fst (_populate_hosts_and_request_paths w) = Raise e /\
     conn_info (self (snd (_populate_hosts_and_request_paths w))) = conn_info (self w) /\
     exists l,
       log (snd (_populate_hosts_and_request_paths w)) = (log w ++ l)%list /\
       count is_connect l = 0%nat).
Proof.
  split; [|split; [|split; [|split]]].
  - intros [s|] d; unfold effective; simpl; [|reflexivity].
    destruct (String.eqb s ""); reflexivity.
  - intros w osc Hosc st sn sr. rewrite get_endpoint_eq. simpl. rewrite Hosc.
    fold st sn sr.
    destruct (catalog_get_endpoint osc st sn sr) as [url|e]; [|split; reflexivity].
    destruct (Py.truthy url); split; reflexivity.
  - apply populate_forced_base_url.
  - apply populate_forced_base_url_returns.
  - intros w o o' r e _. apply populate_catalog_failure.
Qed.

(** *** The microversion header *)

(** The connection with another forced service type. *)
Definition with_force_service_type (v : option string) (c : Conn) : Conn :=
  let s := cfg c in
  {| cfg :=
       {| user_id := user_id s; key := key s; timeout := timeout s;
          proxy_url := proxy_url s; auth_url := auth_url s;
          service_type := service_type s; service_name := service_name s;
          service_region := service_region s; accept_format := accept_format s;
          default_content_type := default_content_type s;
          _auth_version := _auth_version s; base_url := base_url s;
          _ex_force_base_url := _ex_force_base_url s;
          _ex_force_auth_url := _ex_force_auth_url s;
          _ex_force_auth_token := _ex_force_auth_token s;
          _ex_token_scope := _ex_token_scope s;
          _ex_domain_name := _ex_domain_name s;
          _ex_tenant_name := _ex_tenant_name s;
          _ex_tenant_domain_id := _ex_tenant_domain_id s;
          _ex_force_service_type := v;
          _ex_force_service_name := _ex_force_service_name s;
          _ex_force_service_region := _ex_force_service_region s;
          _ex_force_microversion := _ex_force_microversion s;
          _ex_auth_cache := _ex_auth_cache s |};
     auth_token := auth_token c; auth_token_expires := auth_token_expires c;
     auth_user_info := auth_user_info c; service_catalog := service_catalog c;
     _osa := _osa c; host := host c; port := port c; secure := secure c;
     request_path := request_path c |}.

(** The service type that [get_endpoint] would look up. *)
Definition effective_service_type (c : Conn) : option string :=
  effective (_ex_force_service_type (cfg c)) (service_type (cfg c)).

(** [t and t.startswith(p)] for a service type that may be [None]. *)
Definition type_startswith (t : option string) (p : string) : bool :=
  match t with
  | Some st => Py.startswith st p
  | None => false
  end.

Lemma parse_microversion_service (mv service version : string) :
  parse_microversion mv = Ok (service, version) -> service <> "".
Proof.
  rewrite parse_microversion_split. pose proof (split_tokens mv) as Htok.
  destruct (Py.split mv) as [|a [|b [|x l]]]; try discriminate.
  - intros [= <- _]. discriminate.
  - intros [= <- _]. inversion Htok as [|? ? [Ha _] _]. exact Ha.
Qed.

Lemma service_type_matches_startswith (c : Conn) (service : string) :
  service <> "" ->
  service_type_matches c service = type_startswith (service_type (cfg c)) service.
Proof.
  intros Hs. unfold service_type_matches, type_startswith.
  destruct (service_type (cfg c)) as [st|]; [|reflexivity].
  destruct (String.eqb_spec st "") as [->|_]; [|reflexivity].
  simpl. unfold Py.startswith. destruct service; [congruence | reflexivity].
Qed.

(** C2 (amended). For a forced microversion string that parses, the
    header [OpenStack-API-Version] is attached if and only if the
    connection's own [service_type] attribute (the class default) is set
    and starts with the service named by the microversion string; its
    value is that service and the version.  The forced service type plays
    no part: changing it does not change the headers. *)
Theorem microversion_header_follows_class_service_type
    (c : Conn) (h : dict) (mv service version : string) :
  _ex_force_microversion (cfg c) = Some mv ->
  parse_microversion mv = Ok (service, version) ->
  h !! "OpenStack-API-Version" = None ->
  (exists h',
     add_default_headers c h = Ok h' /\
     h' !! "OpenStack-API-Version" =
       if type_startswith (service_type (cfg c)) service
       then Some (Some (service +:+ " " +:+ version))
       else None) /\
  (forall forced : option string,
     add_default_headers (with_force_service_type forced c) h = add_default_headers c h).
Proof.
  intros Hmv Hparse Hh. split.
  - unfold add_default_headers. rewrite Hmv. simpl.
    assert (Hne : String.eqb mv "" = false).
    { destruct (String.eqb_spec mv "") as [->|]; [discriminate | reflexivity]. }
    rewrite Hne. simpl. rewrite Hparse.
    rewrite (service_type_matches_startswith c service)
      by (eapply parse_microversion_service; eassumption).
    destruct (type_startswith (service_type (cfg c)) service); eexists; split;
      try reflexivity.
    + apply lookup_insert_eq.
    + unfold AUTH_TOKEN_HEADER. rewrite !lookup_insert_ne by discriminate. exact Hh.
  - intros forced. reflexivity.
Qed.

(** *** An empty forced token *)

(** C10. The empty string as forced auth token is handled in two ways.
    The constructor accepts it without a forced base URL and does not
    take it as the token, and preparing a request authenticates as usual
    (both test the truth value of the token).  But when a request then
    fails with status 401 the cached auth context is not cleared, because
    that test is [_ex_force_auth_token is None]. *)
Theorem empty_forced_token_inconsistent
    (cls : ClassAttrs) (b : BaseInit) (k : Kwargs) :
  ex_force_auth_token k = Some "" ->
  ex_force_base_url k = None ->
  Py.truthy (match ex_force_auth_url k with
             | Some u => Some u
             | None => cls_auth_url cls
             end) = true ->
  exists c,
    __init__ cls b k = Ok c /\
    auth_token c = None /\
    (forall (t0 : Z) (o o' : Osa) (r : AuthResult),
       identity_new c = Ok o ->
       is_token_valid t0 o = false ->
       authenticate (auth_kwargs (_auth_version (cfg c))) t0 o = Ok (o', r) ->
       count is_authenticate (log (snd (_populate_hosts_and_request_paths (fresh c t0))))
         = 1%nat /\
       auth_token (self (snd (_populate_hosts_and_request_paths (fresh c t0))))
         = res_auth_token r) /\
    (forall (a : RequestArgs) (w w1 : World) (message : string),
       cfg (self w1) = cfg c ->
       base_request (request_args (self w) a) (entering_base_request w)
         = (Raise (BaseHTTPError UNAUTHORIZED message), w1) ->
       request a w = (Raise (BaseHTTPError UNAUTHORIZED message), w1)).
Proof.
  intros Htok Hbase Hurl.
  destruct (__init__ cls b k) as [c|e] eqn:Hinit.
  - destruct (init_ok_inv _ _ _ _ Hinit) as (Hft & _ & _ & Hnone & Hosa & _).
    exists c. split; [reflexivity|]. split; [apply Hnone; rewrite Htok; reflexivity|].
    split.
    + intros t0 o o' r Hid Hinvalid Hauth.
      assert (Hforced : Py.truthy (_ex_force_auth_token (cfg (self (fresh c t0)))) = false)
        by (simpl; rewrite Hft, Htok; reflexivity).
      assert (Hget : fst (get_auth_class (fresh c t0)) = Ok o).
      { unfold get_auth_class. munfold. simpl. rewrite Hosa. simpl. rewrite Hid. reflexivity. }
      destruct (populate_authenticates (fresh c t0) o o' r Hforced Hget Hinvalid Hauth)
        as (l & Hlog & Hc & _ & _ & _ & Htoken & _).
      rewrite Hlog. simpl. split; assumption.
    + intros a w w1 message Hcfg Hreq.
      apply request_http_error_kept; [exact Hreq|].
      rewrite Hcfg, Hft, Htok. reflexivity.
  - exfalso. revert Hinit. unfold __init__. rewrite Htok, Hbase. simpl.
    unfold _get_auth_url. simpl.
    destruct (ex_force_auth_url k) as [u|]; simpl in *; rewrite Hurl; discriminate.
Qed.

(** ** Further properties of the connection *)

(** *** The constructor, completely *)

(** X1. The constructor returns a connection exactly when a forced token
    comes with a forced base URL and the auth URL is set, the forced auth
    URL standing for the class's as soon as it is not [None], even when
    it is empty.  Of the two errors the one about the token is raised
    first.  A connection that is returned has an auth version that is not
    empty: the forced one, else the class's, else "1.1". *)
Theorem init_succeeds_iff (cls : ClassAttrs) (b : BaseInit) (k : Kwargs) :
  let token_ok :=
    negb (Py.truthy (ex_force_auth_token k) && negb (Py.truthy (ex_force_base_url k))) in
  let url_ok :=
    Py.truthy (match ex_force_auth_url k with
               | Some u => Some u
               | None => cls_auth_url cls
               end) in
  is_ok (__init__ cls b k) = token_ok && url_ok /\
  (token_ok = false ->
   __init__ cls b k = Raise (LibcloudError MSG_TOKEN_NEEDS_BASE_URL)) /\
  (token_ok = true -> url_ok = false ->
   __init__ cls b k = Raise (LibcloudError "OpenStack instance must have auth_url set")) /\
  (forall c, __init__ cls b k = Ok c ->
     Py.truthy (_auth_version (cfg c)) = true /\
     _auth_version (cfg c) =
       (if Py.truthy (ex_force_auth_version k) then ex_force_auth_version k
        else if Py.truthy (cls_auth_version cls) then cls_auth_version cls
        else Some AUTH_API_VERSION) /\
     conn_info c = (b_host b, b_port b, b_secure b, b_request_path b)).
Proof.
  intros token_ok url_ok. subst token_ok url_ok. unfold __init__, _get_auth_url. simpl.
  destruct (Py.truthy (ex_force_auth_token k) && negb (Py.truthy (ex_force_base_url k)));
    simpl.
  { repeat split; try discriminate. }
  set (url := match ex_force_auth_url k with
              | Some u => Some u
              | None => cls_auth_url cls
              end).
  destruct (Py.truthy url); simpl.
  - split; [reflexivity|]. split; [discriminate|]. split; [discriminate|].
    intros c [= <-]. simpl. unfold conn_info. simpl.
    destruct (Py.truthy (ex_force_auth_version k)) eqn:Hv; simpl.
    + rewrite Hv. auto.
    + destruct (Py.truthy (cls_auth_version cls)) eqn:Hc; simpl; rewrite ?Hc; auto.
  - repeat split; try discriminate.
Qed.

(** *** [request] on anything but status 401 *)

Definition is_unauthorized {A} (r : result A) : bool :=
  match r with
  | Raise (BaseHTTPError code _) => Z.eqb code UNAUTHORIZED
  | _ => false
  end.

(** X2. Whatever the base request does other than raising an HTTP error
    with status 401 (a response, an HTTP error with another status, any
    other exception), [request] hands it on and leaves the connection as
    the base request left it: nothing is cleared and the identity object
    is not even looked up. *)
Theorem request_passes_through
    (a : RequestArgs) (w w1 : World) (r : result Response) :
  base_request (request_args (self w) a) (entering_base_request w) = (r, w1) ->
  is_unauthorized r = false ->
  request a w = (r, w1).
Proof.
  intros Hbase Hr.
  unfold request, try_except_http. munfold. simpl.
  fold (entering_base_request w). rewrite Hbase.
  destruct r as [resp|[msg|code msg|name]]; try reflexivity.
  simpl in Hr. unfold on_http_error. munfold. simpl. rewrite Hr. simpl.
  destruct w1; reflexivity.
Qed.

(** *** Reuse of the open connection *)

(** X4. [_set_up_connection_info] opens a connection exactly when host,
    port or scheme differ from the ones in place, and a second call with
    the same URL changes nothing and opens nothing, even when the first
    call's [connect] raised. *)
Theorem set_up_connection_info_reuses
    (url : option string) (w : World)
    (h : option string) (p : option Z) (s : bool) (rp : option string) :
  _tuple_from_url url = Ok (h, p, s, rp) ->
  let w1 := snd (_set_up_connection_info url w) in
  log w1 = (if decide ((h, p, s) = (host (self w), port (self w), secure (self w)))
            then log w else log w ++ [EvConnect h p s])%list /\
  conn_info (self w1) = (h, p, s, rp) /\
  _set_up_connection_info url w1 = (Ok tt, w1).
Proof.
  intros Hurl w1. subst w1.
  unfold _set_up_connection_info. munfold. destruct w as [c t lg]. simpl.
  rewrite Hurl. simpl.
  destruct (decide ((h, p, s) = (host c, port c, secure c))) as [Heq|Hne]; simpl.
  - split; [reflexivity|]. split; [reflexivity|].
    destruct (decide ((h, p, s) = (h, p, s))); [|congruence].
    reflexivity.
  - destruct (connect h p s) as [[]|e]; simpl; (split; [reflexivity|]);
      (split; [reflexivity|]);
      (destruct (decide ((h, p, s) = (h, p, s))); [|congruence]); reflexivity.
Qed.

(** *** The service catalog *)




(** *** After an eviction *)

Lemma request_unauthorized_world
    (a : RequestArgs) (w w1 : World) (message : string) (o : Osa) :
  base_request (request_args (self w) a) (entering_base_request w)
    = (Raise (BaseHTTPError UNAUTHORIZED message), w1) ->
  _ex_force_auth_token (cfg (self w1)) = None ->
  fst (get_auth_class w1) = Ok o ->
  exists l,
    snd (request a w) =
      {| self := set_osa (clear_cached_auth_context o) (self w1);
         now := now w1; log := (log w1 ++ l)%list |}.
Proof.
  intros Hbase Hnone Ho.
  destruct (get_auth_class_ok _ _ Ho) as (l & Hw & _).
  exists (l ++ [EvClearCachedAuthContext])%list.
  unfold request, try_except_http. munfold. simpl.
  fold (entering_base_request w). rewrite Hbase.
  unfold on_http_error. munfold. simpl. rewrite Hnone. simpl.
  destruct (get_auth_class w1) as [r w2] eqn:Hg. simpl in Ho, Hw. subst r w2.
  simpl. rewrite <- app_assoc.
  destruct (self w1); reflexivity.
Qed.

(** X5. After a request has failed with status 401 and the cached auth
    context has been cleared, the next preparation authenticates again,
    once, and stores the new token, provided the cleared identity object
    no longer reports a valid token.  Until then the connection's own
    [auth_token] attribute still holds the old token. *)
Theorem eviction_forces_reauthentication
    (a : RequestArgs) (w w1 : World) (message : string)
    (o o' : Osa) (r : AuthResult) (t : Z) :
  base_request (request_args (self w) a) (entering_base_request w)
    = (Raise (BaseHTTPError UNAUTHORIZED message), w1) ->
  _ex_force_auth_token (cfg (self w1)) = None ->
  fst (get_auth_class w1) = Ok o ->
  is_token_valid t (clear_cached_auth_context o) = false ->
  authenticate (auth_kwargs (_auth_version (cfg (self w1)))) t
    (clear_cached_auth_context o) = Ok (o', r) ->
  let w2 := snd (request a w) in
  let w3 := snd (_populate_hosts_and_request_paths (at_time t w2)) in
  auth_token (self w2) = auth_token (self w1) /\
  exists l,
    log w3 = (log w2 ++ l)%list /\
    count is_authenticate l = 1%nat /\
    auth_token (self w3) = res_auth_token r /\
    _osa (self w3) = Some o'.
Proof.
  intros Hbase Hnone Ho Hinvalid Hauth w2 w3.
  destruct (request_unauthorized_world a w w1 message o Hbase Hnone Ho) as (l0 & Hw2).
  fold w2 in Hw2.
  assert (Hcfg : cfg (self w2) = cfg (self w1)) by (rewrite Hw2; reflexivity).
  assert (Hosa : _osa (self w2) = Some (clear_cached_auth_context o))
    by (rewrite Hw2; reflexivity).
  split; [rewrite Hw2; reflexivity|].
  assert (Hforced : Py.truthy (_ex_force_auth_token (cfg (self (at_time t w2)))) = false)
    by (simpl; rewrite Hcfg, Hnone; reflexivity).
  assert (Hget : fst (get_auth_class (at_time t w2)) = Ok (clear_cached_auth_context o))
    by (rewrite (get_auth_class_cached (at_time t w2) _ Hosa); reflexivity).
  assert (Hauth' : authenticate (auth_kwargs (_auth_version (cfg (self (at_time t w2)))))
                     (now (at_time t w2)) (clear_cached_auth_context o) = Ok (o', r))
    by (simpl; rewrite Hcfg; exact Hauth).
  destruct (populate_authenticates (at_time t w2) _ o' r Hforced Hget Hinvalid Hauth')
    as (l & Hlog & Hc & _ & _ & Hosa3 & Htok & _).
  exists l. repeat split; assumption.
Qed.

(** *** The microversion header, read back *)

Lemma split_two_tokens (s v : string) :
  is_token s -> is_token v -> Py.split (s +:+ " " +:+ v) = [s; v].
Proof.
  intros [Hs Hns] [Hv Hnv].
  change (s +:+ " " +:+ v) with (s +:+ String " " v).
  unfold Py.split. rewrite split_from_app by reflexivity.
  unfold Py.split. rewrite !split_from_token by assumption.
  change ("" +:+ s) with s. change ("" +:+ v) with v.
  destruct (String.eqb_spec s ""); [contradiction|].
  destruct (String.eqb_spec v ""); [contradiction|]. reflexivity.
Qed.

(** X3. The value of the microversion header is itself a microversion
    string for the same service and version: parsing "service version"
    gives back the pair, so a one-token microversion is normalised to
    "compute version" and parsing the header changes nothing any more. *)
Theorem microversion_header_reparses (mv service version : string) :
  parse_microversion mv = Ok (service, version) ->
  parse_microversion (service +:+ " " +:+ version) = Ok (service, version).
Proof.
  intros Hparse.
  assert (Htok : is_token service /\ is_token version).
  { rewrite parse_microversion_split in Hparse. pose proof (split_tokens mv) as Hall.
    destruct (Py.split mv) as [|x [|y [|z l]]]; try discriminate.
    - injection Hparse as <- <-. inversion Hall as [|? ? Hx _]. split; [|exact Hx].
      split; [discriminate | reflexivity].
    - injection Hparse as <- <-. inversion Hall as [|? ? Hx Hrest].
      inversion Hrest as [|? ? Hy _]. split; assumption. }
  destruct Htok as [Hs Hv].
  rewrite parse_microversion_split, (split_two_tokens _ _ Hs Hv). reflexivity.
Qed.

(** *** [OpenStackDriverMixin] *)

(** [if value: rv[key] = value]. *)
Definition put_if_truthy (key : string) (value : option string)
    (rv : gmap string string) : gmap string string :=
  match value with
  | Some s => if Py.truthy value then <[key := s]> rv else rv
  | None => rv
  end.

(** [if value is not None: rv[key] = value]. *)
Definition put_if_not_None (key : string) (value : option string)
    (rv : gmap string string) : gmap string string :=
  match value with
  | Some s => <[key := s]> rv
  | None => rv
  end.

(** [openstack_connection_kwargs]; the mixin's constructor stores its
    keyword arguments as they are, so the mixin is its [Kwargs]. *)
Definition openstack_connection_kwargs (m : Kwargs) : gmap string string :=
  let rv := ∅ in
  let rv := put_if_truthy "ex_force_base_url" (ex_force_base_url m) rv in
  let rv := put_if_truthy "ex_force_auth_token" (ex_force_auth_token m) rv in
  let rv := put_if_truthy "ex_force_auth_url" (ex_force_auth_url m) rv in
  let rv := put_if_truthy "ex_force_auth_version" (ex_force_auth_version m) rv in
  let rv := put_if_truthy "ex_token_scope" (ex_token_scope m) rv in
  let rv := put_if_truthy "ex_domain_name" (ex_domain_name m) rv in
  let rv := put_if_truthy "ex_tenant_name" (ex_tenant_name m) rv in
  let rv := put_if_truthy "ex_tenant_domain_id" (ex_tenant_domain_id m) rv in
  let rv := put_if_truthy "ex_force_service_type" (ex_force_service_type m) rv in
  let rv := put_if_truthy "ex_force_service_name" (ex_force_service_name m) rv in
  let rv := put_if_truthy "ex_force_service_region" (ex_force_service_region m) rv in
  let rv := put_if_not_None "ex_auth_cache" (ex_auth_cache m) rv in
  let rv := put_if_truthy "ex_force_microversion" (ex_force_microversion m) rv in
  rv.

(** Modelled from the spec: [OpenStackIdentityTokenScope.PROJECT], the
    default of [ex_token_scope], which is defined in the identity module
    that is not among the sources; the scope kinds are project, domain and
    unscoped. *)
Definition TOKEN_SCOPE_PROJECT : string := "project".

(** The keyword arguments that [OpenStackBaseConnection.__init__] sees
    when it is called with the dictionary [rv] as keywords: the entry of
    [rv] where there is one, the default of the signature otherwise. *)
Definition call_with_kwargs (rv : gmap string string) : Kwargs :=
  {| ex_force_base_url := rv !! "ex_force_base_url";
     ex_force_auth_url := rv !! "ex_force_auth_url";
     ex_force_auth_version := rv !! "ex_force_auth_version";
     ex_force_auth_token := rv !! "ex_force_auth_token";
     ex_token_scope := Some (default TOKEN_SCOPE_PROJECT (rv !! "ex_token_scope"));
     ex_domain_name := Some (default "Default" (rv !! "ex_domain_name"));
     ex_tenant_name := rv !! "ex_tenant_name";
     ex_tenant_domain_id := Some (default "default" (rv !! "ex_tenant_domain_id"));
     ex_force_service_type := rv !! "ex_force_service_type";
     ex_force_service_name := rv !! "ex_force_service_name";
     ex_force_service_region := rv !! "ex_force_service_region";
     ex_force_microversion := rv !! "ex_force_microversion";
     ex_auth_cache := rv !! "ex_auth_cache" |}.

(** [None] for a value that is not truthy. *)
Definition truthy_or_None (v : option string) : option string :=
  if Py.truthy v then v else None.

Lemma lookup_put_if_truthy_eq (key : string) (v : option string) (rv : gmap string string) :
  put_if_truthy key v rv !! key = if Py.truthy v then v else rv !! key.
Proof.
  unfold put_if_truthy. destruct v as [s|]; [|reflexivity].
  destruct (Py.truthy (Some s)); [apply lookup_insert_eq | reflexivity].
Qed.

Lemma lookup_put_if_truthy_ne (key key' : string) (v : option string)
    (rv : gmap string string) :
  key <> key' -> put_if_truthy key v rv !! key' = rv !! key'.
Proof.
  intros Hne. unfold put_if_truthy. destruct v as [s|]; [|reflexivity].
  destruct (Py.truthy (Some s)); [apply lookup_insert_ne; exact Hne | reflexivity].
Qed.

Lemma lookup_put_if_not_None_eq (key : string) (v : option string)
    (rv : gmap string string) :
  put_if_not_None key v rv !! key = match v with Some s => Some s | None => rv !! key end.
Proof.
  unfold put_if_not_None. destruct v as [s|]; [apply lookup_insert_eq | reflexivity].
Qed.

Lemma lookup_put_if_not_None_ne (key key' : string) (v : option string)
    (rv : gmap string string) :
  key <> key' -> put_if_not_None key v rv !! key' = rv !! key'.
Proof.
  intros Hne. unfold put_if_not_None. destruct v as [s|]; [|reflexivity].
  apply lookup_insert_ne. exact Hne.
Qed.

Ltac lookup_kwargs :=
  unfold openstack_connection_kwargs; cbv zeta;
  repeat first
    [ rewrite lookup_put_if_truthy_ne by discriminate
    | rewrite lookup_put_if_not_None_ne by discriminate
    | rewrite lookup_put_if_truthy_eq
    | rewrite lookup_put_if_not_None_eq
    | rewrite lookup_empty ].

Lemma truthy_truthy_or_None (v : option string) :
  Py.is_None (truthy_or_None v) = negb (Py.truthy (truthy_or_None v)).
Proof.
  unfold truthy_or_None. destruct (Py.truthy v) eqn:Hv; [|reflexivity].
  rewrite Hv. destruct v; [reflexivity | discriminate].
Qed.

Lemma truthy_default (d : string) (v : option string) :
  d <> "" -> Py.truthy (Some (default d (truthy_or_None v))) = true.
Proof.
  intros Hd. unfold truthy_or_None.
  destruct v as [s|]; simpl.
  - destruct (String.eqb_spec s ""); simpl.
    + destruct (String.eqb_spec d ""); [contradiction | reflexivity].
    + destruct (String.eqb_spec s ""); [contradiction | reflexivity].
  - destruct (String.eqb_spec d ""); [contradiction | reflexivity].
Qed.

(** X7. The keyword arguments that the driver mixin hands to the
    connection never carry an empty string: each forced value arrives as
    given when it is not empty and is [None] otherwise, the cache arrives
    whenever it is not [None], and scope, domain name and tenant domain id
    fall back to the defaults of the signature.  So on a connection built
    from them the forced token is [None] exactly when it is not truthy,
    the test of [request] and the tests of the constructor and of
    [_populate_hosts_and_request_paths] agree, and the connection's token
    is the mixin's. *)
Theorem mixin_kwargs_never_empty (m : Kwargs) :
  let k := call_with_kwargs (openstack_connection_kwargs m) in
  (ex_force_base_url k = truthy_or_None (ex_force_base_url m) /\
   ex_force_auth_url k = truthy_or_None (ex_force_auth_url m) /\
   ex_force_auth_version k = truthy_or_None (ex_force_auth_version m) /\
   ex_force_auth_token k = truthy_or_None (ex_force_auth_token m) /\
   ex_tenant_name k = truthy_or_None (ex_tenant_name m) /\
   ex_force_service_type k = truthy_or_None (ex_force_service_type m) /\
   ex_force_service_name k = truthy_or_None (ex_force_service_name m) /\
   ex_force_service_region k = truthy_or_None (ex_force_service_region m) /\
   ex_force_microversion k = truthy_or_None (ex_force_microversion m) /\
   ex_auth_cache k = ex_auth_cache m) /\
  (ex_token_scope k
     = Some (default TOKEN_SCOPE_PROJECT (truthy_or_None (ex_token_scope m))) /\
   ex_domain_name k = Some (default "Default" (truthy_or_None (ex_domain_name m))) /\
   ex_tenant_domain_id k
     = Some (default "default" (truthy_or_None (ex_tenant_domain_id m))) /\
   Py.truthy (ex_token_scope k) = true /\
   Py.truthy (ex_domain_name k) = true /\
   Py.truthy (ex_tenant_domain_id k) = true) /\
  (forall (cls : ClassAttrs) (b : BaseInit) (c : Conn),
     __init__ cls b k = Ok c ->
     Py.is_None (_ex_force_auth_token (cfg c))
       = negb (Py.truthy (_ex_force_auth_token (cfg c))) /\
     auth_token c = truthy_or_None (ex_force_auth_token m)).
Proof.
  intros k.
  assert (H1 : ex_force_auth_token k = truthy_or_None (ex_force_auth_token m))
    by (subst k; simpl; lookup_kwargs; reflexivity).
  assert (Hs : ex_token_scope k
               = Some (default TOKEN_SCOPE_PROJECT (truthy_or_None (ex_token_scope m))))
    by (subst k; simpl; lookup_kwargs; reflexivity).
  assert (Hd : ex_domain_name k
               = Some (default "Default" (truthy_or_None (ex_domain_name m))))
    by (subst k; simpl; lookup_kwargs; reflexivity).
  assert (Ht : ex_tenant_domain_id k
               = Some (default "default" (truthy_or_None (ex_tenant_domain_id m))))
    by (subst k; simpl; lookup_kwargs; reflexivity).
  split; [|split].
  - subst k; simpl; repeat split; lookup_kwargs; try reflexivity.
    destruct (ex_auth_cache m); reflexivity.
  - split; [exact Hs|]. split; [exact Hd|]. split; [exact Ht|].
    rewrite Hs, Hd, Ht. repeat split; apply truthy_default; discriminate.
  - intros cls b c Hinit.
    destruct (init_ok_inv _ _ _ _ Hinit) as (Hft & _ & Hforced & Hnone & _).
    rewrite Hft, H1. split; [apply truthy_truthy_or_None|].
    destruct (Py.truthy (ex_force_auth_token k)) eqn:Hk.
    + destruct (Hforced eq_refl) as [_ ->]. exact H1.
    + rewrite (Hnone eq_refl). rewrite H1 in Hk. unfold truthy_or_None in *.
      destruct (Py.truthy (ex_force_auth_token m)) eqn:Hm; [|reflexivity].
      rewrite Hm in Hk. discriminate.
Qed.

End Connection.

(** ** A scripted identity service

    Concrete collaborators on which the statements above are run: an
    identity service that hands out tokens "T1", "T2", ... each valid for
    3600 seconds, a catalog with one endpoint, and a transport that
    answers every request with status 401. *)

Module Scenario.

Record identity : Type := {
  issued : nat;
  cached_token : option string;
  cached_expires : option Z;
}.

Definition identity_new (c : @Conn identity unit unit) : result identity :=
  Ok {| issued := 0; cached_token := None; cached_expires := None |}.

Definition is_token_valid (t : Z) (o : identity) : bool :=
  Py.truthy (cached_token o) &&
  match cached_expires o with
  | Some e => Z.ltb t e
  | None => true
  end.

Definition authenticate (kwargs : list (string * string)) (t : Z) (o : identity)
  : result (identity * @AuthResult unit unit) :=
  let token := Some ("T" +:+ Py.str_of_Z (Z.of_nat (S (issued o)))) in
  Ok ({| issued := S (issued o); cached_token := token;
         cached_expires := Some (t + 3600) |},
      {| res_auth_token := token; res_auth_token_expires := Some (t + 3600);
         res_auth_user_info := None; res_urls := tt |}).

Definition clear_cached_auth_context (o : identity) : identity :=
  {| issued := issued o; cached_token := None; cached_expires := None |}.

Definition OpenStackServiceCatalog (urls : unit) (version : option string)
  : result unit := Ok tt.

Definition catalog_get_endpoint (osc : unit) (st sn sr : option string)
  : result (option string) := Ok (Some "https://compute.example.com/v2").

Definition _tuple_from_url (url : option string)
  : result (option string * option Z * bool * option string) :=
  match url with
  | Some u => Ok (Some u, Some 443, true, Some "/")
  | None => Raise (OtherError "AttributeError")
  end.

Definition connect (h : option string) (p : option Z) (s : bool) : result unit :=
  Ok tt.

Definition base_morph_action_hook (c : @Conn identity unit unit) (action : string)
  : string := action.

Definition populate : M unit :=
  _populate_hosts_and_request_paths identity_new is_token_valid authenticate
    OpenStackServiceCatalog catalog_get_endpoint _tuple_from_url connect.

Definition prepare (action : string) : M string :=
  morph_action_hook identity_new is_token_valid authenticate
    OpenStackServiceCatalog catalog_get_endpoint _tuple_from_url connect
    base_morph_action_hook action.

(** The base request prepares the request and then meets status 401. *)
Definition base_request (a : RequestArgs) (w : @World identity unit unit)
  : result unit * @World identity unit unit :=
  match prepare (action a) w with
  | (Ok _, w1) => (Raise (BaseHTTPError UNAUTHORIZED "Unauthorized"), w1)
  | (Raise e, w1) => (Raise e, w1)
  end.

Definition compute_class : ClassAttrs :=
  {| cls_auth_url := Some "https://auth.example.com";
     cls_service_type := Some "compute";
     cls_service_name := Some "nova";
     cls_service_region := Some "RegionOne";
     cls_accept_format := Some "application/json";
     cls_auth_version := None;
     cls_default_content_type := Some "application/json" |}.

Definition base_init : BaseInit :=
  {| b_user_id := "u"; b_key := "k"; b_secure := true; b_host := None;
     b_port := None; b_timeout := None; b_proxy_url := None;
     b_request_path := None |}.

Definition no_kwargs : Kwargs :=
  {| ex_force_base_url := None; ex_force_auth_url := None;
     ex_force_auth_version := None; ex_force_auth_token := None;
     ex_token_scope := Some "project"; ex_domain_name := Some "Default";
     ex_tenant_name := None; ex_tenant_domain_id := Some "default";
     ex_force_service_type := None; ex_force_service_name := None;
     ex_force_service_region := None; ex_force_microversion := None;
     ex_auth_cache := None |}.

(** Keyword arguments with a forced token, base URL, service type and
    microversion. *)
Definition kwargs_with (token base_url stype microversion : option string) : Kwargs :=
  {| ex_force_base_url := base_url; ex_force_auth_url := None;
     ex_force_auth_version := None; ex_force_auth_token := token;
     ex_token_scope := Some "project"; ex_domain_name := Some "Default";
     ex_tenant_name := None; ex_tenant_domain_id := Some "default";
     ex_force_service_type := stype; ex_force_service_name := None;
     ex_force_service_region := None; ex_force_microversion := microversion;
     ex_auth_cache := None |}.

(** The connection that the constructor returns, or a connection without
    any attribute when it raises. *)
Definition constructed (r : result (@Conn identity unit unit)) : @Conn identity unit unit :=
  match r with
  | Ok c => c
  | Raise _ =>
      {| cfg :=
           {| user_id := ""; key := ""; timeout := None; proxy_url := None;
              auth_url := None; service_type := None; service_name := None;
              service_region := None; accept_format := None;
              default_content_type := None; _auth_version := None;
              base_url := None; _ex_force_base_url := None;
              _ex_force_auth_url := None; _ex_force_auth_token := None;
              _ex_token_scope := None; _ex_domain_name := None;
              _ex_tenant_name := None; _ex_tenant_domain_id := None;
              _ex_force_service_type := None; _ex_force_service_name := None;
              _ex_force_service_region := None; _ex_force_microversion := None;
              _ex_auth_cache := None |};
         auth_token := None; auth_token_expires := None; auth_user_info := None;
         service_catalog := None; _osa := None; host := None; port := None;
         secure := false; request_path := None |}
  end.

Definition get_request : RequestArgs :=
  {| action := "/servers/detail"; params := None; data := ""; headers := None;
     method := "GET"; raw := false |}.

Example constructor_defaults :
  is_ok (@__init__ identity unit unit compute_class base_init no_kwargs) = true.
Proof. reflexivity. Qed.

Definition send : RequestArgs -> M unit :=
  request identity_new clear_cached_auth_context base_request.

(** A connection without overrides, one with a forced token and base URL,
    one with the empty string as forced token. *)
Definition plain : @Conn identity unit unit :=
  constructed (__init__ compute_class base_init no_kwargs).

Definition forced_kwargs : Kwargs :=
  kwargs_with (Some "preset-auth-token") (Some "https://api.example.com/v2") None None.

Definition forced : @Conn identity unit unit :=
  constructed (__init__ compute_class base_init forced_kwargs).

Definition empty_token_kwargs : Kwargs := kwargs_with (Some "") None None None.

Definition empty_token : @Conn identity unit unit :=
  constructed (__init__ compute_class base_init empty_token_kwargs).

(** The identity object after the first handshake at time 1000. *)
Definition identity0 : identity :=
  {| issued := 0; cached_token := None; cached_expires := None |}.

Definition identity1 : identity :=
  {| issued := 1; cached_token := Some "T1"; cached_expires := Some 4600 |}.

Definition auth1 : @AuthResult unit unit :=
  {| res_auth_token := Some "T1"; res_auth_token_expires := Some 4600;
     res_auth_user_info := None; res_urls := tt |}.

(** Three preparations at times 1000, 1010 and 4700: the second reuses
    "T1", the third finds it expired and obtains "T2". *)
Example three_preparations :
  let w1 := after_calls populate [1000] (fresh plain 0) in
  let w2 := after_calls populate [1000; 1010] (fresh plain 0) in
  let w3 := after_calls populate [1000; 1010; 4700] (fresh plain 0) in
  (count is_authenticate (log w1), auth_token (self w1)) = (1%nat, Some "T1") /\
  (count is_authenticate (log w2), auth_token (self w2)) = (1%nat, Some "T1") /\
  (count is_authenticate (log w3), auth_token (self w3)) = (2%nat, Some "T2").
Proof. repeat split; vm_compute; reflexivity. Qed.

(** The microversion examples: "compute 2.60" on a compute connection,
    "2.60" alone, and three tokens. *)
Example microversion_examples :
  let c := constructed (__init__ compute_class base_init
                          (kwargs_with None None None (Some "2.60"))) in
  let bad := constructed (__init__ compute_class base_init
                            (kwargs_with None None None (Some "a b c"))) in
  @parse_microversion "compute 2.60" = Ok ("compute", "2.60") /\
  @parse_microversion "2.60" = Ok ("compute", "2.60") /\
  match add_default_headers c ∅ with
  | Ok h => h !! "OpenStack-API-Version"
  | Raise _ => None
  end = Some (Some "compute 2.60") /\
  add_default_headers bad ∅
    = Raise (LibcloudError "Invalid microversion format: servicename X.XX").
Proof. repeat split; vm_compute; reflexivity. Qed.

(** The microversion "  compute   2.60 " laid out as two tokens, "2.60"
    as one and "a b c" as three. *)
Definition spaced_microversion : @Conn identity unit unit :=
  constructed (__init__ compute_class base_init
                 (kwargs_with None None None (Some "  compute   2.60 "))).

Lemma microversion_parsing_witness :
  well_laid_out [("  ", "compute"); ("   ", "2.60")] " " /\
  laid_out [("  ", "compute"); ("   ", "2.60")] " " = "  compute   2.60 " /\
  Py.split (Py.strip "  compute   2.60 ") = ["compute"; "2.60"] /\
  @parse_microversion "  compute   2.60 " = Ok ("compute", "2.60") /\
  add_default_headers spaced_microversion ∅
    = Ok (<["OpenStack-API-Version" := Some "compute 2.60"]>
            (<["Accept" := Some "application/json"]> (<[AUTH_TOKEN_HEADER := None]> ∅))) /\
  well_laid_out [("", "2.60")] "" /\
  @parse_microversion "2.60" = Ok ("compute", "2.60") /\
  well_laid_out [("", "a"); (" ", "b"); (" ", "c")] "" /\
  @parse_microversion "a b c"
    = Raise (LibcloudError "Invalid microversion format: servicename X.XX").
Proof.
  assert (H2 : well_laid_out [("  ", "compute"); ("   ", "2.60")] " ").
  { split; [reflexivity|]. split; [reflexivity|].
    split; [split; [discriminate | reflexivity]|].
    constructor; [|constructor]. simpl.
    split; [reflexivity|]. split; [discriminate|]. split; [discriminate | reflexivity]. }
  assert (H1 : well_laid_out [("", "2.60")] "").
  { split; [reflexivity|]. split; [reflexivity|].
    split; [split; [discriminate | reflexivity] | constructor]. }
  assert (H3 : well_laid_out [("", "a"); (" ", "b"); (" ", "c")] "").
  { split; [reflexivity|]. split; [reflexivity|].
    split; [split; [discriminate | reflexivity]|].
    constructor; [|constructor; [|constructor]]; simpl;
      (split; [reflexivity|]); (split; [discriminate|]);
      (split; [discriminate | reflexivity]). }
  destruct (microversion_parsing _ _ spaced_microversion ∅ H2) as (Hs2 & Hp2 & Hadd & _).
  destruct (microversion_parsing _ _ spaced_microversion ∅ H1) as (_ & Hp1 & _).
  destruct (microversion_parsing _ _ spaced_microversion ∅ H3) as (_ & Hp3 & _).
  split; [exact H2|]. split; [reflexivity|]. split; [exact Hs2|]. split; [exact Hp2|].
  split; [exact (Hadd eq_refl ltac:(discriminate))|].
  split; [exact H1|]. split; [exact Hp1|]. split; [exact H3 | exact Hp3].
Defined.

(** Connections with the empty string and with two blanks as forced
    microversion. *)
Definition empty_microversion : @Conn identity unit unit :=
  constructed (__init__ compute_class base_init (kwargs_with None None None (Some ""))).

Definition blank_microversion : @Conn identity unit unit :=
  constructed (__init__ compute_class base_init (kwargs_with None None None (Some "  "))).

(** C4, as stated, fails for the empty string.  It has no token, which
    is neither one token nor two, and yet nothing fails: the empty string
    is not parsed at all, while a string of blanks, which has no token
    either, is parsed and raises. *)
Lemma empty_microversion_is_not_parsed :
  _ex_force_microversion (cfg empty_microversion) = Some "" /\
  Py.split (Py.strip "") = [] /\
  is_ok (add_default_headers empty_microversion ∅) = true /\
  match add_default_headers empty_microversion ∅ with
  | Ok h => h !! "OpenStack-API-Version"
  | Raise _ => Some None
  end = None /\
  _ex_force_microversion (cfg blank_microversion) = Some "  " /\
  Py.split (Py.strip "  ") = [] /\
  add_default_headers blank_microversion ∅
    = Raise (LibcloudError "Invalid microversion format: servicename X.XX").
Proof. repeat split; vm_compute; reflexivity. Qed.

Lemma init_forced_token_requires_base_url_witness :
  let k := kwargs_with (Some "preset-auth-token") None None None in
  Py.truthy (ex_force_auth_token k) = true /\
  Py.truthy (ex_force_base_url k) = false /\
  @__init__ identity unit unit compute_class base_init k
    = Raise (LibcloudError MSG_TOKEN_NEEDS_BASE_URL) /\
  is_ok (@__init__ identity unit unit compute_class base_init k) = false.
Proof.
  split; [reflexivity|]. split; [reflexivity|].
  apply (init_forced_token_requires_base_url compute_class base_init); reflexivity.
Defined.

Lemma request_unauthorized_witness :
  let w := fresh plain 1000 in
  let w1 := snd (base_request (request_args plain get_request) (entering_base_request w)) in
  let wf := fresh forced 1000 in
  let wf1 := snd (base_request (request_args forced get_request) (entering_base_request wf)) in
  base_request (request_args plain get_request) (entering_base_request w)
    = (Raise (BaseHTTPError UNAUTHORIZED "Unauthorized"), w1) /\
  _ex_force_auth_token (cfg (self w1)) = None /\
  fst (get_auth_class identity_new w1) = Ok identity1 /\
  (exists l,
     send get_request w =
       (Raise (BaseHTTPError UNAUTHORIZED "Unauthorized"),
        {| self := set_osa (clear_cached_auth_context identity1) (self w1);
           now := now w1; log := (log w1 ++ l)%list |}) /\
     count is_clear l = 1%nat /\ count is_base_request l = 0%nat /\
     last l = Some EvClearCachedAuthContext) /\
  _ex_force_auth_token (cfg (self wf1)) = Some "preset-auth-token" /\
  send get_request wf = (Raise (BaseHTTPError UNAUTHORIZED "Unauthorized"), wf1).
Proof.
  intros w w1 wf wf1.
  assert (H1 : base_request (request_args plain get_request) (entering_base_request w)
               = (Raise (BaseHTTPError UNAUTHORIZED "Unauthorized"), w1))
    by (vm_compute; reflexivity).
  assert (H2 : base_request (request_args forced get_request) (entering_base_request wf)
               = (Raise (BaseHTTPError UNAUTHORIZED "Unauthorized"), wf1))
    by (vm_compute; reflexivity).
  split; [exact H1|]. split; [reflexivity|]. split; [reflexivity|].
  split.
  - exact (proj1 (request_unauthorized identity_new clear_cached_auth_context base_request
                    get_request w w1 "Unauthorized" H1)
                 identity1 eq_refl eq_refl).
  - split; [reflexivity|].
    exact (proj2 (request_unauthorized identity_new clear_cached_auth_context base_request
                    get_request wf wf1 "Unauthorized" H2)
                 "preset-auth-token" eq_refl).
Defined.

Lemma forced_token_skips_authentication_witness :
  let w := after_calls (prepare "/servers") [1000; 2000; 9999999] (fresh forced 0) in
  __init__ compute_class base_init forced_kwargs = Ok forced /\
  Py.truthy (ex_force_auth_token forced_kwargs) = true /\
  Py.truthy (ex_force_base_url forced_kwargs) = true /\
  count is_authenticate (log w) = 0%nat /\
  add_default_headers (self w) ∅
    = Ok (<["Accept" := Some "application/json"]>
            (<[AUTH_TOKEN_HEADER := Some "preset-auth-token"]> ∅)) /\
  (exists h',
     add_default_headers (self w) ∅ = Ok h' /\
     h' !! AUTH_TOKEN_HEADER = Some (Some "preset-auth-token")) /\
  _tuple_from_url (Some "https://api.example.com/v2")
    = Ok (Some "https://api.example.com/v2", Some 443, true, Some "/") /\
  is_ok (fst (prepare "/servers" (at_time 5 w))) = true /\
  conn_info (self (snd (prepare "/servers" (at_time 5 w))))
    = (Some "https://api.example.com/v2", Some 443, true, Some "/").
Proof.
  intros w.
  assert (Hinit : __init__ compute_class base_init forced_kwargs = Ok forced)
    by reflexivity.
  destruct (forced_token_skips_authentication identity_new is_token_valid authenticate
              OpenStackServiceCatalog catalog_get_endpoint _tuple_from_url connect
              base_morph_action_hook compute_class base_init forced_kwargs forced
              "/servers" [1000; 2000; 9999999] 0 Hinit eq_refl eq_refl)
    as (Hcount & _ & _ & _ & Hheaders & Hprepared).
  fold prepare in Hcount, Hheaders, Hprepared. fold w in Hcount, Hheaders, Hprepared.
  destruct (Hheaders ∅) as (Hok & Hplain & Hsome).
  destruct (Hprepared 5 (Some "https://api.example.com/v2", Some 443, true, Some "/"))
    as (Hreturns & Hinfo); [vm_compute; reflexivity | reflexivity | reflexivity|].
  split; [exact Hinit|]. split; [reflexivity|]. split; [reflexivity|].
  split; [exact Hcount|]. split; [exact (Hplain eq_refl)|].
  split; [apply Hsome; rewrite Hok; reflexivity|].
  split; [reflexivity|]. split; [exact Hreturns | exact Hinfo].
Defined.

Lemma valid_token_is_reused_witness :
  let w := fresh plain 1000 in
  let w1 := snd (populate w) in
  let w2 := snd (populate (at_time 1010 w1)) in
  Py.truthy (_ex_force_auth_token (cfg (self w))) = false /\
  fst (get_auth_class identity_new w) = Ok identity0 /\
  is_token_valid 1000 identity0 = false /\
  authenticate (auth_kwargs (_auth_version (cfg (self w)))) 1000 identity0
    = Ok (identity1, auth1) /\
  _osa (self (at_time 1010 w1)) = Some identity1 /\
  is_token_valid 1010 identity1 = true /\
  (exists l,
     log w2 = (log (at_time 1010 w1) ++ l)%list /\
     count is_authenticate l = 0%nat /\
     session (self w2) = session (self w1)) /\
  (exists l,
     log w2 = (log w ++ l)%list /\
     count is_authenticate l = 1%nat /\
     session (self w2) = session (self w1) /\
     auth_token (self w2) = Some "T1" /\
     auth_token_expires (self w2) = Some 4600 /\
     auth_user_info (self w2) = None).
Proof.
  intros w w1 w2.
  destruct (valid_token_is_reused identity_new is_token_valid authenticate
              OpenStackServiceCatalog catalog_get_endpoint _tuple_from_url connect)
    as [Hreuse Htwice].
  split; [reflexivity|]. split; [reflexivity|]. split; [reflexivity|].
  split; [reflexivity|]. split; [reflexivity|]. split; [reflexivity|].
  split.
  - exact (Hreuse (at_time 1010 w1) identity1 eq_refl eq_refl).
  - exact (Htwice w identity0 identity1 auth1 1010 eq_refl eq_refl eq_refl eq_refl eq_refl).
Defined.

(** A connection whose forced service type differs from the class's. *)
Definition volume_kwargs : Kwargs :=
  kwargs_with None None (Some "volumev3") (Some "compute 2.60").

Definition compute_forced_volume : @Conn identity unit unit :=
  constructed (__init__ compute_class base_init volume_kwargs).

Definition base_url_kwargs : Kwargs :=
  kwargs_with None (Some "https://api.example.com/v2") None None.

Definition forced_base_url : @Conn identity unit unit :=
  constructed (__init__ compute_class base_init base_url_kwargs).

Lemma endpoint_overrides_witness :
  let w := snd (populate (fresh compute_forced_volume 1000)) in
  let wb := fresh forced_base_url 1000 in
  service_catalog (self w) = Some tt /\
  log (snd (get_endpoint catalog_get_endpoint w))
    = (log w ++ [EvCatalogGetEndpoint (Some "volumev3") (Some "nova") (Some "RegionOne")])%list /\
  fst (get_endpoint catalog_get_endpoint w) = Ok (Some "https://compute.example.com/v2") /\
  Py.truthy (_ex_force_base_url (cfg (self wb))) = true /\
  (exists l,
     log (snd (populate wb)) = (log wb ++ l)%list /\
     count is_catalog_lookup l = 0%nat) /\
  _tuple_from_url (Some "https://api.example.com/v2")
    = Ok (Some "https://api.example.com/v2", Some 443, true, Some "/") /\
  fst (populate wb) = Ok tt /\
  conn_info (self (snd (populate wb)))
    = (Some "https://api.example.com/v2", Some 443, true, Some "/").
Proof.
  intros w wb.
  destruct (endpoint_overrides identity_new is_token_valid authenticate
              OpenStackServiceCatalog catalog_get_endpoint _tuple_from_url connect)
    as (_ & Hlookup & Hforced & Hreturns & _).
  split; [reflexivity|].
  destruct (Hlookup w tt eq_refl) as [Hlog Hres].
  split; [exact Hlog|]. split; [exact Hres|]. split; [reflexivity|].
  destruct (Hforced wb eq_refl) as (l & Hl & Hcount & _).
  split; [exists l; split; assumption|].
  split; [reflexivity|].
  apply (Hreturns wb identity0
           (Some "https://api.example.com/v2", Some 443, true, Some "/"));
    try reflexivity.
  right. right. exists identity1, auth1, tt. split; reflexivity.
Defined.

(** The same connection when the catalog of the authentication response
    cannot be parsed. *)
Definition malformed_catalog (urls : unit) (version : option string) : result unit :=
  Raise (OtherError "KeyError").

Definition populate_malformed : M unit :=
  _populate_hosts_and_request_paths identity_new is_token_valid authenticate
    malformed_catalog catalog_get_endpoint _tuple_from_url connect.

(** C7, as stated, fails.  With a forced base URL and no forced token
    the first preparation authenticates and builds the catalog from the
    response; when that fails the preparation raises, no connection is
    opened and the connection details are not those of the forced URL,
    whereas with a catalog that can be built the same call returns and
    uses the URL.  So the catalog is not left alone altogether: only the
    lookup in it is skipped. *)
Lemma forced_base_url_still_builds_catalog :
  Py.truthy (_ex_force_base_url (cfg forced_base_url)) = true /\
  fst (populate_malformed (fresh forced_base_url 1000)) = Raise (OtherError "KeyError") /\
  conn_info (self (snd (populate_malformed (fresh forced_base_url 1000))))
    = (None, None, true, None) /\
  count is_connect (log (snd (populate_malformed (fresh forced_base_url 1000)))) = 0%nat /\
  fst (populate (fresh forced_base_url 1000)) = Ok tt /\
  conn_info (self (snd (populate (fresh forced_base_url 1000))))
    = (Some "https://api.example.com/v2", Some 443, true, Some "/") /\
  service_catalog (self (snd (populate (fresh forced_base_url 1000)))) = Some tt /\
  count is_catalog_lookup (log (snd (populate (fresh forced_base_url 1000)))) = 0%nat.
Proof. repeat split; vm_compute; reflexivity. Qed.

(** A volume connection on which the compute service type is forced. *)
Definition volume_class : ClassAttrs :=
  {| cls_auth_url := Some "https://auth.example.com";
     cls_service_type := Some "volumev3";
     cls_service_name := Some "cinder";
     cls_service_region := Some "RegionOne";
     cls_accept_format := Some "application/json";
     cls_auth_version := None;
     cls_default_content_type := Some "application/json" |}.

Definition volume_forced_compute : @Conn identity unit unit :=
  constructed (__init__ volume_class base_init
                 (kwargs_with None None (Some "compute") (Some "compute 2.60"))).

(** The value of the microversion header among the default headers, if
    the header is there. *)
Definition microversion_header (c : @Conn identity unit unit) : option (option string) :=
  match add_default_headers c ∅ with
  | Ok h' => h' !! "OpenStack-API-Version"
  | Raise _ => None
  end.

(** C2, as stated, fails.  With class service type "compute", forced
    service type "volumev3" and forced microversion "compute 2.60", the
    effective service type does not start with "compute", yet the header
    is attached; with class service type "volumev3" and forced service
    type "compute" the effective service type starts with "compute", yet
    no header is attached. *)
Lemma microversion_header_ignores_forced_service_type :
  parse_microversion "compute 2.60" = Ok ("compute", "2.60") /\
  (effective_service_type compute_forced_volume = Some "volumev3" /\
   type_startswith (effective_service_type compute_forced_volume) "compute" = false /\
   is_ok (add_default_headers compute_forced_volume ∅) = true /\
   microversion_header compute_forced_volume = Some (Some "compute 2.60")) /\
  (effective_service_type volume_forced_compute = Some "compute" /\
   type_startswith (effective_service_type volume_forced_compute) "compute" = true /\
   is_ok (add_default_headers volume_forced_compute ∅) = true /\
   microversion_header volume_forced_compute = None).
Proof. repeat split; vm_compute; reflexivity. Qed.

Lemma microversion_header_follows_class_service_type_witness :
  _ex_force_microversion (cfg compute_forced_volume) = Some "compute 2.60" /\
  parse_microversion "compute 2.60" = Ok ("compute", "2.60") /\
  (∅ : dict) !! "OpenStack-API-Version" = None /\
  (exists h',
     add_default_headers compute_forced_volume ∅ = Ok h' /\
     h' !! "OpenStack-API-Version" = Some (Some "compute 2.60")) /\
  (forall forced : option string,
     add_default_headers (with_force_service_type forced compute_forced_volume) ∅
       = add_default_headers compute_forced_volume ∅).
Proof.
  split; [reflexivity|]. split; [reflexivity|]. split; [reflexivity|].
  exact (microversion_header_follows_class_service_type compute_forced_volume ∅
           "compute 2.60" "compute" "2.60" eq_refl eq_refl eq_refl).
Defined.

Lemma empty_forced_token_inconsistent_witness :
  let w := fresh empty_token 1000 in
  let w1 := snd (base_request (request_args empty_token get_request)
                   (entering_base_request w)) in
  ex_force_auth_token empty_token_kwargs = Some "" /\
  ex_force_base_url empty_token_kwargs = None /\
  (exists c,
     @__init__ identity unit unit compute_class base_init empty_token_kwargs = Ok c /\
     auth_token c = None /\
     count is_authenticate (log (snd (populate (fresh c 1000)))) = 1%nat /\
     auth_token (self (snd (populate (fresh c 1000)))) = Some "T1") /\
  _osa (self w1) = Some identity1 /\
  send get_request w = (Raise (BaseHTTPError UNAUTHORIZED "Unauthorized"), w1).
Proof.
  intros w w1.
  destruct (empty_forced_token_inconsistent identity_new is_token_valid authenticate
              clear_cached_auth_context OpenStackServiceCatalog catalog_get_endpoint
              _tuple_from_url connect base_request
              compute_class base_init empty_token_kwargs eq_refl eq_refl eq_refl)
    as (c & Hinit & Htoken & Hauth & Hkeep).
  assert (Hc : c = empty_token) by (injection Hinit as <-; reflexivity).
  split; [reflexivity|]. split; [reflexivity|]. split.
  - exists c. split; [exact Hinit|]. split; [exact Htoken|].
    apply (Hauth 1000 identity0 identity1 auth1); subst c; reflexivity.
  - split; [reflexivity|].
    apply (Hkeep get_request w w1 "Unauthorized").
    + subst c. reflexivity.
    + subst c. vm_compute. reflexivity.
Defined.

(** A transport that answers with status 403 after preparing the
    request. *)
Definition base_request_forbidden (a : RequestArgs) (w : @World identity unit unit)
  : result unit * @World identity unit unit :=
  match prepare (action a) w with
  | (Ok _, w1) => (Raise (BaseHTTPError 403 "Forbidden"), w1)
  | (Raise e, w1) => (Raise e, w1)
  end.

Lemma request_passes_through_witness :
  let w := fresh plain 1000 in
  let w1 := snd (base_request_forbidden (request_args plain get_request)
                   (entering_base_request w)) in
  base_request_forbidden (request_args plain get_request) (entering_base_request w)
    = (Raise (BaseHTTPError 403 "Forbidden"), w1) /\
  is_unauthorized (Raise (BaseHTTPError 403 "Forbidden") : result unit) = false /\
  _osa (self w1) = Some identity1 /\
  request identity_new clear_cached_auth_context base_request_forbidden get_request w
    = (Raise (BaseHTTPError 403 "Forbidden"), w1).
Proof.
  intros w w1.
  assert (H : base_request_forbidden (request_args plain get_request)
                (entering_base_request w)
              = (Raise (BaseHTTPError 403 "Forbidden"), w1))
    by (vm_compute; reflexivity).
  split; [exact H|]. split; [reflexivity|]. split; [reflexivity|].
  exact (request_passes_through identity_new clear_cached_auth_context
           base_request_forbidden get_request w w1 _ H eq_refl).
Defined.

Lemma set_up_connection_info_reuses_witness :
  let url := Some "https://api.example.com/v2" in
  let w := fresh plain 0 in
  let w1 := snd (_set_up_connection_info _tuple_from_url connect url w) in
  _tuple_from_url url = Ok (url, Some 443, true, Some "/") /\
  log w1 = [EvConnect url (Some 443) true] /\
  conn_info (self w1) = (url, Some 443, true, Some "/") /\
  _set_up_connection_info _tuple_from_url connect url w1 = (Ok tt, w1).
Proof.
  intros url w w1. split; [reflexivity|].
  exact (set_up_connection_info_reuses _tuple_from_url connect url w
           url (Some 443) true (Some "/") eq_refl).
Defined.

(** The identity object after the eviction and after the second
    handshake, at time 2000. *)
Definition identity1_cleared : identity :=
  {| issued := 1; cached_token := None; cached_expires := None |}.

Definition identity2 : identity :=
  {| issued := 2; cached_token := Some "T2"; cached_expires := Some 5600 |}.

Definition auth2 : @AuthResult unit unit :=
  {| res_auth_token := Some "T2"; res_auth_token_expires := Some 5600;
     res_auth_user_info := None; res_urls := tt |}.

Lemma eviction_forces_reauthentication_witness :
  let w := fresh plain 1000 in
  let w1 := snd (base_request (request_args plain get_request) (entering_base_request w)) in
  let w2 := snd (send get_request w) in
  let w3 := snd (populate (at_time 2000 w2)) in
  base_request (request_args plain get_request) (entering_base_request w)
    = (Raise (BaseHTTPError UNAUTHORIZED "Unauthorized"), w1) /\
  _ex_force_auth_token (cfg (self w1)) = None /\
  fst (get_auth_class identity_new w1) = Ok identity1 /\
  is_token_valid 2000 (clear_cached_auth_context identity1) = false /\
  authenticate (auth_kwargs (_auth_version (cfg (self w1)))) 2000
    (clear_cached_auth_context identity1) = Ok (identity2, auth2) /\
  auth_token (self w2) = Some "T1" /\
  exists l,
    log w3 = (log w2 ++ l)%list /\
    count is_authenticate l = 1%nat /\
    auth_token (self w3) = Some "T2" /\
    _osa (self w3) = Some identity2.
Proof.
  intros w w1 w2 w3.
  assert (H : base_request (request_args plain get_request) (entering_base_request w)
              = (Raise (BaseHTTPError UNAUTHORIZED "Unauthorized"), w1))
    by (vm_compute; reflexivity).
  split; [exact H|]. split; [reflexivity|]. split; [reflexivity|].
  split; [reflexivity|]. split; [reflexivity|].
  exact (eviction_forces_reauthentication identity_new is_token_valid authenticate
           clear_cached_auth_context OpenStackServiceCatalog catalog_get_endpoint
           _tuple_from_url connect base_request
           get_request w w1 "Unauthorized" identity1 identity2 auth2 2000
           H eq_refl eq_refl eq_refl eq_refl).
Defined.

Lemma microversion_header_reparses_witness :
  @parse_microversion "  2.60 " = Ok ("compute", "2.60") /\
  @parse_microversion "compute 2.60" = Ok ("compute", "2.60").
Proof.
  split; [reflexivity|].
  exact (microversion_header_reparses "  2.60 " "compute" "2.60" eq_refl).
Defined.


End Scenario.

(** ** [OpenStackResponse] *)

Module Body.

(** [httplib.NO_CONTENT]. *)
Definition NO_CONTENT : Z := 204.

(** [str.lower] on one character below 256: A..Z and the capital letters
    of Latin-1 (192..214, 216..222) move up by 32. *)
Definition lower_ascii (a : ascii) : ascii :=
  let n := N_of_ascii a in
  if ((65 <=? n) && (n <=? 90) || (192 <=? n) && (n <=? 214)
      || (216 <=? n) && (n <=? 222))%N
  then ascii_of_N (n + 32) else a.

Fixpoint lower (s : string) : string :=
  match s with
  | EmptyString => ""
  | String a s' => String (lower_ascii a) (lower s')
  end.

(** [s.find(sub)], searching from index [i] of the whole string. *)
Fixpoint find_from (i : Z) (s sub : string) : Z :=
  if String.prefix sub s then i
  else
    match s with
    | EmptyString => -1
    | String _ s' => find_from (i + 1) s' sub
    end.

Definition find (s sub : string) : Z := find_from 0 s sub.

(** The response: status, headers and body. *)
Record Response : Type := {
  status : Z;
  headers : gmap string string;
  body : string;
}.

(** [success]. *)
Definition success (r : Response) : bool :=
  Z.leb 200 (status r) && Z.leb (status r) 299.

(** [self.headers.get("content-type") or ""]. *)
Definition content_type_value (r : Response) : string :=
  match headers r !! "content-type" with
  | Some v => if String.eqb v "" then "" else v
  | None => ""
  end.

(** [has_content_type]. *)
Definition has_content_type (r : Response) (content_type : string) : bool :=
  Z.ltb (-1) (find (lower (content_type_value r)) (lower content_type)).

Section Parsers.

(** [ET.XML] and [json.loads]; [None] stands for any exception. *)
Context {Xml Json : Type}.
Variable ET_XML : string -> option Xml.
Variable json_loads : string -> option Json.

Inductive parsed : Type :=
| NoBody
| XmlBody (x : Xml)
| JsonBody (j : Json)
| RawBody (s : string).

(** What [parse_body] returns, or the [MalformedResponseError] it
    raises. *)
Inductive body_result : Type :=
| Parsed (p : parsed)
| MalformedResponseError (value : string) (body : string).

(** [parse_body]. *)
Definition parse_body (r : Response) : body_result :=
  if Z.eqb (status r) NO_CONTENT || String.eqb (body r) "" then Parsed NoBody
  else if has_content_type r "application/xml" then
    match ET_XML (body r) with
    | Some x => Parsed (XmlBody x)
    | None => MalformedResponseError "Failed to parse XML" (body r)
    end
  else if has_content_type r "application/json" then
    match json_loads (body r) with
    | Some j => Parsed (JsonBody j)
    | None => MalformedResponseError "Failed to parse JSON" (body r)
    end
  else Parsed (RawBody (body r)).

(** *** Searching *)

Lemma prefix_app (sub s : string) :
  String.prefix sub s = true <-> exists post, s = sub +:+ post.
Proof.
  revert s. induction sub as [|a sub IH]; intros s; simpl.
  - split; [intros _; exists s; reflexivity | intros _; destruct s; reflexivity].
  - destruct s as [|b s]; simpl.
    + split; [discriminate | intros (post & H); discriminate H].
    + destruct (Ascii.ascii_dec a b) as [->|Hne].
      * rewrite IH. split; intros (post & H); exists post.
        -- rewrite H. reflexivity.
        -- rewrite append_cons in H. injection H as ->. reflexivity.
      * split; [discriminate|]. intros (post & H).
        rewrite append_cons in H. injection H as -> _. contradiction.
Qed.

Lemma find_from_eq (i : Z) (s sub : string) :
  find_from i s sub =
    if String.prefix sub s then i
    else match s with
         | EmptyString => -1
         | String _ s' => find_from (i + 1) s' sub
         end.
Proof. destruct s; reflexivity. Qed.

Lemma find_from_found (s sub : string) :
  forall i, 0 <= i ->
    (-1 < find_from i s sub <-> exists pre post, s = pre +:+ sub +:+ post).
Proof.
  induction s as [|a s IH]; intros i Hi; rewrite find_from_eq.
  - destruct (String.prefix sub "") eqn:Hp.
    + split; [intros _ | intros _; lia]. apply prefix_app in Hp as (post & H).
      exists "", post. exact H.
    + split; [intros Hlt; lia|]. intros (pre & post & H).
      destruct pre; [|discriminate H]. change ("" +:+ sub +:+ post) with (sub +:+ post) in H.
      assert (Hp' : String.prefix sub "" = true) by (apply prefix_app; exists post; exact H).
      congruence.
  - destruct (String.prefix sub (String a s)) eqn:Hp.
    + split; [intros _ | intros _; lia]. apply prefix_app in Hp as (post & H).
      exists "", post. exact H.
    + rewrite IH by lia. split.
      * intros (pre & post & H). exists (String a pre), post. rewrite H. reflexivity.
      * intros (pre & post & H). destruct pre as [|b pre].
        -- change ("" +:+ sub +:+ post) with (sub +:+ post) in H.
           assert (Hp' : String.prefix sub (String a s) = true)
             by (apply prefix_app; exists post; exact H).
           congruence.
        -- rewrite append_cons in H. injection H as _ ->. exists pre, post. reflexivity.
Qed.

Lemma lower_ascii_idempotent (a : ascii) : lower_ascii (lower_ascii a) = lower_ascii a.
Proof.
  destruct a as [[] [] [] [] [] [] [] []]; vm_compute; reflexivity.
Qed.

Lemma lower_idempotent (s : string) : lower (lower s) = lower s.
Proof.
  induction s as [|a s IH]; simpl; [reflexivity|].
  rewrite lower_ascii_idempotent, IH. reflexivity.
Qed.

(** X8. [has_content_type] holds exactly when the lower-cased argument
    occurs somewhere in the lower-cased value of the [content-type]
    header, a missing header counting as the empty value.  So it does not
    depend on the case of the argument, it holds for the empty argument
    on every response, and it fails for any other argument when the
    header is missing. *)
Theorem has_content_type_substring (r : Response) (content_type : string) :
  (has_content_type r content_type = true <->
   exists pre post,
     lower (content_type_value r) = pre +:+ lower content_type +:+ post) /\
  has_content_type r (lower content_type) = has_content_type r content_type /\
  has_content_type r "" = true /\
  (headers r !! "content-type" = None -> content_type <> "" ->
   has_content_type r content_type = false).
Proof.
  split; [|split; [|split]].
  - unfold has_content_type, find. rewrite Z.ltb_lt. apply find_from_found. lia.
  - unfold has_content_type. rewrite lower_idempotent. reflexivity.
  - unfold has_content_type, find. apply Z.ltb_lt. apply find_from_found; [lia|].
    exists "", (lower (content_type_value r)). reflexivity.
  - intros Hnone Hne. unfold has_content_type, content_type_value, find.
    rewrite Hnone. simpl. destruct content_type as [|a ct]; [contradiction|]. reflexivity.
Qed.

(** X9. [parse_body] gives [None] for status 204 and for an empty body
    whatever the content type, and the parsers are not consulted.  It
    raises only when the body is not empty, the status is not 204 and the
    content type names XML or JSON, and then exactly when the parser
    chosen fails; XML is chosen when the content type names both.  With
    neither, the body comes back as it is. *)
Theorem parse_body_cases (r : Response) :
  (status r = NO_CONTENT \/ body r = "" -> parse_body r = Parsed NoBody) /\
  (forall value b,
     parse_body r = MalformedResponseError value b ->
     b = body r /\ body r <> "" /\ status r <> NO_CONTENT /\
     (has_content_type r "application/xml" = true /\ ET_XML (body r) = None /\
      value = "Failed to parse XML" \/
      has_content_type r "application/xml" = false /\
      has_content_type r "application/json" = true /\ json_loads (body r) = None /\
      value = "Failed to parse JSON")) /\
  (status r <> NO_CONTENT -> body r <> "" ->
   has_content_type r "application/xml" = true ->
   parse_body r = match ET_XML (body r) with
                  | Some x => Parsed (XmlBody x)
                  | None => MalformedResponseError "Failed to parse XML" (body r)
                  end) /\
  (status r <> NO_CONTENT -> body r <> "" ->
   has_content_type r "application/xml" = false ->
   has_content_type r "application/json" = false ->
   parse_body r = Parsed (RawBody (body r))).
Proof.
  unfold parse_body.
  destruct (Z.eqb_spec (status r) NO_CONTENT) as [Hs|Hs];
    destruct (String.eqb_spec (body r) "") as [Hb|Hb]; simpl;
    try (repeat split; try discriminate; try contradiction; tauto).
  split; [intros [H|H]; contradiction|].
  split.
  - intros value b.
    destruct (has_content_type r "application/xml").
    + destruct (ET_XML (body r)); [discriminate|]. intros [= <- <-]. auto 10.
    + destruct (has_content_type r "application/json").
      * destruct (json_loads (body r)); [discriminate|]. intros [= <- <-]. auto 10.
      * discriminate.
  - split.
    + intros _ _ ->. reflexivity.
    + intros _ _ -> ->. reflexivity.
Qed.

End Parsers.

End Body.

End OpenStack.

(** ** [libcloud/compute/drivers/vcloud.py]

    Clock readings and timeouts are whole seconds. *)

Module VCloud.

(** Default timeout (in seconds) for long running tasks. *)
Definition DEFAULT_TASK_COMPLETION_TIMEOUT : Z := 600.

(** ** [fixxpath] *)

Module XPath.

(** [s.split(sep)] for a separator of one character. *)
Fixpoint split_on (sep : ascii) (s : string) : list string :=
  match s with
  | EmptyString => [""]
  | String a s' =>
      if Ascii.eqb a sep then "" :: split_on sep s'
      else
        match split_on sep s' with
        | h :: t => String a h :: t
        | [] => [String a ""]
        end
  end.

(** [s.split(sep, 1)]: one piece when [sep] does not occur, else the part
    before its first occurrence and the part after. *)
Fixpoint split_once (sep : ascii) (s : string) : list string :=
  match s with
  | EmptyString => [""]
  | String a s' =>
      if Ascii.eqb a sep then [""; s']
      else
        match split_once sep s' with
        | h :: t => String a h :: t
        | [] => [String a ""]
        end
  end.

(** [sep.join(l)]. *)
Fixpoint join (sep : string) (l : list string) : string :=
  match l with
  | [] => ""
  | [x] => x
  | x :: l' => x +:+ sep +:+ join sep l'
  end.

(** [s[1:]]. *)
Definition tail (s : string) : string :=
  match s with
  | EmptyString => ""
  | String _ s' => s'
  end.

(** ["{{{}}}{}".format(namespace, e)]. *)
Definition qualified (namespace e : string) : string :=
  "{" +:+ namespace +:+ "}" +:+ e.

(** [fixxpath(root, xpath)] for [root.tag = tag]; [None] is the
    [ValueError] of the unpacking when the tag holds no closing brace
    after its first character. *)
Definition fixxpath (tag xpath : string) : option string :=
  match split_once "}" (tail tag) with
  | [namespace; root_tag] =>
      Some (join "/" (map (qualified namespace) (split_on "/" xpath)))
  | _ => None
  end.

Fixpoint occurs (c : ascii) (s : string) : bool :=
  match s with
  | EmptyString => false
  | String a s' => Ascii.eqb a c || occurs c s'
  end.

Lemma split_on_nonempty (sep : ascii) (s : string) : split_on sep s <> [].
Proof.
  destruct s as [|a s]; simpl; [discriminate|].
  destruct (Ascii.eqb a sep); [discriminate|].
  destruct (split_on sep s); discriminate.
Qed.

Lemma split_on_app (sep : ascii) (s1 s2 : string) :
  split_on sep (s1 +:+ String sep s2) = (split_on sep s1 ++ split_on sep s2)%list.
Proof.
  induction s1 as [|a s1 IH].
  - change ("" +:+ String sep s2) with (String sep s2). simpl.
    rewrite Ascii.eqb_refl. reflexivity.
  - rewrite OpenStack.append_cons. simpl. rewrite IH.
    destruct (Ascii.eqb a sep); [reflexivity|].
    pose proof (split_on_nonempty sep s1) as Hne.
    destruct (split_on sep s1) as [|h t]; [contradiction|]. reflexivity.
Qed.

Lemma split_on_absent (sep : ascii) (s : string) :
  occurs sep s = false -> split_on sep s = [s].
Proof.
  induction s as [|a s IH]; simpl; [reflexivity|].
  intros H. apply orb_false_iff in H as [Ha Hs].
  rewrite Ha, (IH Hs). reflexivity.
Qed.

Lemma append_assoc (a b c : string) : (a +:+ b) +:+ c = a +:+ b +:+ c.
Proof.
  induction a as [|x a IH]; [reflexivity|].
  rewrite !OpenStack.append_cons, IH. reflexivity.
Qed.

Lemma join_app (sep : string) (l1 l2 : list string) :
  l1 <> [] -> l2 <> [] ->
  join sep (l1 ++ l2) = join sep l1 +:+ sep +:+ join sep l2.
Proof.
  intros H1 H2. induction l1 as [|x l1 IH]; [contradiction|].
  destruct l1 as [|y l1].
  - simpl. destruct l2; [contradiction | reflexivity].
  - change (join sep ((x :: y :: l1) ++ l2))
      with (x +:+ sep +:+ join sep ((y :: l1) ++ l2)).
    rewrite IH by discriminate.
    change (join sep (x :: y :: l1)) with (x +:+ sep +:+ join sep (y :: l1)).
    rewrite !append_assoc. reflexivity.
Qed.

(** Splitting and joining again gives the string back. *)
Lemma join_split_on (sep : ascii) (s : string) :
  join (String sep "") (split_on sep s) = s.
Proof.
  induction s as [|a s IH]; simpl; [reflexivity|].
  destruct (Ascii.eqb_spec a sep) as [->|Hne].
  - pose proof (split_on_nonempty sep s) as Hn.
    destruct (split_on sep s) as [|h t] eqn:Hs; [contradiction|].
    change (join (String sep "") ("" :: h :: t))
      with ("" +:+ String sep "" +:+ join (String sep "") (h :: t)).
    rewrite IH. reflexivity.
  - pose proof (split_on_nonempty sep s) as Hn.
    destruct (split_on sep s) as [|h t] eqn:Hs; [contradiction|].
    destruct t as [|h' t].
    + simpl in *. rewrite IH. reflexivity.
    + change (join (String sep "") (String a h :: h' :: t))
        with (String a h +:+ String sep "" +:+ join (String sep "") (h' :: t)).
      change (join (String sep "") (h :: h' :: t))
        with (h +:+ String sep "" +:+ join (String sep "") (h' :: t)) in IH.
      rewrite <- IH. reflexivity.
Qed.

Lemma split_once_found (sep : ascii) (ns rest : string) :
  occurs sep ns = false -> split_once sep (ns +:+ String sep rest) = [ns; rest].
Proof.
  induction ns as [|a ns IH]; intros H.
  - change ("" +:+ String sep rest) with (String sep rest). simpl.
    rewrite Ascii.eqb_refl. reflexivity.
  - simpl in H. apply orb_false_iff in H as [Ha Hns].
    rewrite OpenStack.append_cons. simpl. rewrite Ha, (IH Hns). reflexivity.
Qed.

Lemma split_once_absent (sep : ascii) (s : string) :
  occurs sep s = false -> split_once sep s = [s].
Proof.
  induction s as [|a s IH]; simpl; [reflexivity|].
  intros H. apply orb_false_iff in H as [Ha Hs].
  rewrite Ha, (IH Hs). reflexivity.
Qed.

Lemma split_once_present (sep : ascii) (s : string) :
  occurs sep s = true -> exists ns rest, split_once sep s = [ns; rest].
Proof.
  induction s as [|a s IH]; simpl; [discriminate|].
  destruct (Ascii.eqb a sep); simpl.
  - intros _. exists "", s. reflexivity.
  - intros H. destruct (IH H) as (ns & rest & ->). exists (String a ns), rest. reflexivity.
Qed.



(** X10. [fixxpath] raises exactly when the root's tag has no closing
    brace after its first character.  For a tag "{namespace}name" it
    puts "{namespace}" before every component of the path: a path
    without a slash becomes "{namespace}path", and the result for
    "a/b" is the result for "a", a slash, and the result for "b". *)
Theorem fixxpath_components (tag : string) :
  (forall xpath, fixxpath tag xpath = None <-> occurs "}" (tail tag) = false) /\
  (forall (c : ascii) (namespace name : string),
     tag = String c (namespace +:+ "}" +:+ name) ->
     occurs "}" namespace = false ->
     (forall xpath, occurs "/" xpath = false ->
        fixxpath tag xpath = Some ("{" +:+ namespace +:+ "}" +:+ xpath)) /\
     (forall a b x y,
        fixxpath tag a = Some x -> fixxpath tag b = Some y ->
        fixxpath tag (a +:+ "/" +:+ b) = Some (x +:+ "/" +:+ y))).
Proof.
  split.
  - intros xpath. unfold fixxpath. split.
    + intros H. destruct (occurs "}" (tail tag)) eqn:Ho; [|reflexivity].
      destruct (split_once_present _ _ Ho) as (ns & rest & Hs).
      rewrite Hs in H. discriminate.
    + intros Ho. rewrite (split_once_absent _ _ Ho). reflexivity.
  - intros c namespace name -> Hns.
    assert (Hsplit : split_once "}" (tail (String c (namespace +:+ "}" +:+ name)))
                     = [namespace; name]).
    { simpl. change (namespace +:+ "}" +:+ name) with (namespace +:+ String "}" name).
      apply split_once_found. exact Hns. }
    unfold fixxpath. rewrite Hsplit. split.
    + intros xpath Hx. rewrite (split_on_absent _ _ Hx). reflexivity.
    + intros a b x y [= <-] [= <-]. f_equal.
      change (a +:+ "/" +:+ b) with (a +:+ String "/" b).
      rewrite split_on_app, map_app.
      apply (join_app "/").
      * intros H. apply map_eq_nil in H. exact (split_on_nonempty _ _ H).
      * intros H. apply map_eq_nil in H. exact (split_on_nonempty _ _ H).
Qed.

Lemma fixxpath_components_witness :
  let tag := "{http://www.vmware.com/vcloud/v1.5}Task" in
  tag = String "{" ("http://www.vmware.com/vcloud/v1.5" +:+ "}" +:+ "Task") /\
  occurs "}" "http://www.vmware.com/vcloud/v1.5" = false /\
  fixxpath tag "Error" = Some "{http://www.vmware.com/vcloud/v1.5}Error" /\
  fixxpath tag "Children/Vm"
    = Some "{http://www.vmware.com/vcloud/v1.5}Children/{http://www.vmware.com/vcloud/v1.5}Vm" /\
  fixxpath "Task" "Error" = None.
Proof.
  intros tag.
  destruct (fixxpath_components tag) as [Hnone Hsome].
  destruct (Hsome "{"%char "http://www.vmware.com/vcloud/v1.5" "Task" eq_refl eq_refl)
    as [Hone Htwo].
  split; [reflexivity|]. split; [reflexivity|].
  split; [exact (Hone "Error" eq_refl)|].
  split; [exact (Htwo "Children" "Vm" _ _ (Hone "Children" eq_refl) (Hone "Vm" eq_refl))|].
  exact (proj2 (proj1 (fixxpath_components "Task") "Error") eq_refl).
Defined.

End XPath.

(** ** [VCloudNodeDriver._wait_for_task_completion] *)

(** What leaves [_wait_for_task_completion] other than a normal return:
    one of its own [raise Exception(...)], the [ValueError] of the
    unpacking in [fixxpath], or whatever [self.connection.request]
    raises. *)
Inductive exn : Type :=
| Exception (msg : string)
| ValueError
| RequestError (name : string).

Inductive outcome : Type :=
| Returned
| Raised (e : exn).

(** [res.object] of a task: the tag of the root, its [status] attribute
    and, for each child in order, its tag and its [message] attribute. *)
Record Task : Type := {
  tag : string;
  status : option string;
  children : list (string * option string);
}.

(** [res.object.find(path)] for a path of one step: the first child with
    that tag. *)
Definition find (res : Task) (path : string) : option (string * option string) :=
  List.find (fun child => String.eqb (fst child) path) (children res).

(** What one call of [self.connection.request] gives. *)
Inductive poll : Type :=
| Answer (t : Task)
| Fails (name : string).

Inductive event : Type :=
| EvTime
| EvRequest (path : string)
| EvSleep (seconds : Z).

(** How many polls and clock readings have been made, and the calls in
    order. *)
Record State : Type := {
  polls : nat;
  reads : nat;
  log : list event;
}.

Definition initial : State := {| polls := 0; reads := 0; log := [] |}.

(** [str(x)] for a string or [None]. *)
Definition str_of (x : option string) : string :=
  match x with
  | Some s => s
  | None => "None"
  end.

Definition error_message (task_href : string) (error_msg : option string) : string :=
  "Error status returned by task " +:+ task_href +:+ ".: " +:+ str_of error_msg.

Definition canceled_message (task_href : string) : string :=
  "Canceled status returned by task " +:+ task_href +:+ ".".

Definition timeout_message (timeout : Z) (task_href : string) : string :=
  "Timeout (" +:+ Py.str_of_Z timeout +:+ " sec) while waiting for task "
    +:+ task_href +:+ ".".

Section Waiter.

(** [urlparse(url).path]. *)
Variable urlparse_path : string -> string.
(** The answer to the [n]-th request, and the [n]-th reading of
    [time.time()], counted from 0. *)
Variable responses : nat -> poll.
Variable clock : nat -> Z.

Definition get_url_path (url : string) : string := urlparse_path (Py.strip url).

Definition time (s : State) : Z * State :=
  (clock (reads s),
   {| polls := polls s; reads := S (reads s); log := log s ++ [EvTime] |}).

Definition sleep (seconds : Z) (s : State) : State :=
  {| polls := polls s; reads := reads s; log := log s ++ [EvSleep seconds] |}.

Definition request (path : string) (s : State) : poll * State :=
  (responses (polls s),
   {| polls := S (polls s); reads := reads s; log := log s ++ [EvRequest path] |}).

(** [error_msg] of the [status == "error"] branch, for the path that
    [fixxpath] has returned. *)
Definition error_msg_of (t : Task) (path : string) : option string :=
  match find t path with
  | Some error_elem => snd error_elem
  | None => Some "Unknown error"
  end.

Definition status_is (t : Task) (s : string) : bool :=
  bool_decide (status t = Some s).

(** The [while] loop; one unit of [fuel] per pass through its body, and
    [None] when the fuel does not reach the end of the loop. *)
Fixpoint wait_loop (fuel : nat) (task_href : string) (timeout start_time : Z)
    (res : Task) (s : State) : option outcome * State :=
  if status_is res "success" then (Some Returned, s)
  else
    match fuel with
    | O => (None, s)
    | S fuel' =>
        if status_is res "error" then
          match XPath.fixxpath (tag res) "Error" with
          | None => (Some (Raised ValueError), s)
          | Some path =>
              (Some (Raised (Exception
                       (error_message task_href (error_msg_of res path)))), s)
          end
        else if status_is res "canceled" then
          (Some (Raised (Exception (canceled_message task_href))), s)
        else
          let (t, s1) := time s in
          if Z.geb (t - start_time) timeout then
            (Some (Raised (Exception (timeout_message timeout task_href))), s1)
          else
            let s2 := sleep 5 s1 in
            match request (get_url_path task_href) s2 with
            | (Answer res', s3) => wait_loop fuel' task_href timeout start_time res' s3
            | (Fails name, s3) => (Some (Raised (RequestError name)), s3)
            end
    end.

Definition _wait_for_task_completion (fuel : nat) (task_href : string) (timeout : Z)
    (s : State) : option outcome * State :=
  let (start_time, s1) := time s in
  match request (get_url_path task_href) s1 with
  | (Answer res, s2) => wait_loop fuel task_href timeout start_time res s2
  | (Fails name, s2) => (Some (Raised (RequestError name)), s2)
  end.

(** *** Runs of the loop *)




(** The calls of [n] passes through the whole body of the loop. *)
Fixpoint rounds (path : string) (n : nat) : list event :=
  match n with
  | O => []
  | S n' => rounds path n' ++ [EvTime; EvSleep 5; EvRequest path]
  end.

(** The state in which poll [n] is examined. *)
Definition state_at (path : string) (n : nat) : State :=
  {| polls := S n; reads := S n; log := [EvTime; EvRequest path] ++ rounds path n |}.





(** *** The four ways out *)













(** *** The order of the checks *)



(** *** The waiter comes to an end *)

(** The number of elapsed-time checks after which a clock that gains five
    seconds per pass has reached the timeout. *)
Definition checks_needed (timeout : Z) : nat := Z.to_nat ((timeout + 4) / 5).

Lemma checks_needed_reached (timeout : Z) (k : nat) :
  5 * Z.of_nat k < timeout -> (k < checks_needed timeout)%nat.
Proof.
  intros H. unfold checks_needed.
  assert (Z.of_nat k + 1 <= (timeout + 4) / 5); [|lia].
  apply Z.div_le_lower_bound; lia.
Qed.

Lemma wait_loop_terminates (task_href : string) (timeout : Z) :
  (forall k, 5 * Z.of_nat k <= clock (S k) - clock 0) ->
  forall (fuel k : nat) (t : Task) (s : State),
    polls s = S k -> reads s = S k ->
    (k <= checks_needed timeout)%nat ->
    (checks_needed timeout < fuel + k)%nat ->
    exists o,
      fst (wait_loop fuel task_href timeout (clock 0) t s) = Some o /\
      (polls (snd (wait_loop fuel task_href timeout (clock 0) t s))
         <= S (checks_needed timeout))%nat.
Proof.
  intros Hclock. induction fuel as [|fuel IH]; intros k t s Hpolls Hreads Hk Hfuel.
  - lia.
  - simpl. destruct (status_is t "success"); [eexists; split; [reflexivity|simpl; lia]|].
    destruct (status_is t "error");
      [destruct (XPath.fixxpath (tag t) "Error"); eexists;
       (split; [reflexivity|simpl; lia])|].
    destruct (status_is t "canceled"); [eexists; split; [reflexivity|simpl; lia]|].
    rewrite Hreads.
    destruct (Z.geb_spec (clock (S k) - clock 0) timeout) as [_|Hlt];
      [eexists; split; [reflexivity|simpl; lia]|].
    assert (Hk' : (k < checks_needed timeout)%nat).
    { apply checks_needed_reached. specialize (Hclock k). lia. }
    rewrite Hpolls.
    destruct (responses (S k)) as [t'|name]; simpl.
    + apply (IH (S k)); simpl; lia.
    + eexists. split; [reflexivity|]. simpl. lia.
Qed.

(** X16. When each pass through the loop takes at least the five seconds
    it sleeps, the waiter ends after at most [checks_needed timeout + 1]
    polls, whatever the task answers: any fuel above [checks_needed
    timeout] gives an outcome.  With the default timeout of 600 seconds
    that is 121 polls. *)
Theorem task_waiter_terminates (task_href : string) (timeout : Z) (fuel : nat) :
  (forall k, 5 * Z.of_nat k <= clock (S k) - clock 0) ->
  (checks_needed timeout < fuel)%nat ->
  (exists o,
     fst (_wait_for_task_completion fuel task_href timeout initial) = Some o) /\
  (polls (snd (_wait_for_task_completion fuel task_href timeout initial))
     <= S (checks_needed timeout))%nat /\
  checks_needed DEFAULT_TASK_COMPLETION_TIMEOUT = 120%nat.
Proof.
  intros Hclock Hfuel. unfold _wait_for_task_completion. simpl.
  destruct (responses 0%nat) as [t|name] eqn:H0.
  - destruct (wait_loop_terminates task_href timeout Hclock fuel 0 t
                {| polls := 1; reads := 1;
                   log := [EvTime; EvRequest (get_url_path task_href)] |})
      as (o & Ho & Hp); simpl; try lia.
    split; [exists o; exact Ho|]. split; [exact Hp | reflexivity].
  - simpl. split; [eexists; reflexivity|]. split; [lia | reflexivity].
Qed.

End Waiter.

(** ** Scripted tasks

    Tasks that answer from a list of statuses and then stay "running",
    polled by a clock that advances five seconds per reading. *)

Module Script.

Definition namespace : string := "http://www.vmware.com/vcloud/v1.5".

Definition task (st : string) : Task :=
  {| tag := "{" +:+ namespace +:+ "}Task"; status := Some st; children := [] |}.




Definition script (l : list Task) (k : nat) : poll :=
  Answer (nth k l (task "running")).

Definition seconds (k : nat) : Z := 5 * Z.of_nat k.

Definition path_of (url : string) : string := url.

Definition href : string := "https://vcloud.example.com/api/task/1".

Definition wait (l : list Task) (fuel : nat) (timeout : Z) : option outcome * State :=
  _wait_for_task_completion path_of (script l) seconds fuel href timeout initial.

Definition succeeding : list Task :=
  [task "queued"; task "running"; task "running"; task "success"].




(** Statuses queued, running, running, success: the waiter returns after
    four polls. *)
Example four_polls :
  wait succeeding 3 DEFAULT_TASK_COMPLETION_TIMEOUT
    = (Some Returned, state_at href 3) /\
  polls (snd (wait succeeding 3 DEFAULT_TASK_COMPLETION_TIMEOUT)) = 4%nat.
Proof. split; vm_compute; reflexivity. Qed.





Lemma task_waiter_terminates_witness :
  (checks_needed 600 < 121)%nat /\
  (exists o, fst (wait [task "queued"] 121 600) = Some o) /\
  (polls (snd (wait [task "queued"] 121 600)) <= S (checks_needed 600))%nat /\
  checks_needed DEFAULT_TASK_COMPLETION_TIMEOUT = 120%nat.
Proof.
  assert (Hclock : forall k, 5 * Z.of_nat k <= seconds (S k) - seconds 0)
    by (intros k; unfold seconds; lia).
  assert (Hfuel : (checks_needed 600 < 121)%nat) by (vm_compute; lia).
  split; [exact Hfuel|].
  exact (task_waiter_terminates path_of (script [task "queued"]) seconds href 600 121
           Hclock Hfuel).
Defined.

End Script.

(** ** [VCloudNodeDriver._uniquer] *)

Module Uniquer.

Local Open Scope list_scope.

Section Uniquer.

(** The items, their markers, and [idfun]; without [idfun] the items are
    their own markers. *)
Context {A K : Type} `{Countable K}.
Variable idfun : A -> K.

(** The [for] loop: [seen] and [result] so far, and the items left. *)
Fixpoint uniquer_loop (seen : gmap K Z) (result : list A) (seq : list A) : list A :=
  match seq with
  | [] => result
  | item :: seq' =>
      let marker := idfun item in
      if decide (is_Some (seen !! marker)) then uniquer_loop seen result seq'
      else uniquer_loop (<[marker := 1%Z]> seen) (result ++ [item]) seq'
  end.

Definition _uniquer (seq : list A) : list A := uniquer_loop ∅ [] seq.

Lemma uniquer_loop_result (seq : list A) :
  forall seen result,
    uniquer_loop seen result seq = result ++ uniquer_loop seen [] seq.
Proof.
  induction seq as [|item seq IH]; intros seen result; simpl.
  - rewrite app_nil_r. reflexivity.
  - destruct (decide (is_Some (seen !! idfun item))); [apply IH|].
    rewrite (IH _ (result ++ [item])), (IH _ [item]), <- app_assoc. reflexivity.
Qed.

Lemma uniquer_loop_cons (seen : gmap K Z) (item : A) (seq : list A) :
  uniquer_loop seen [] (item :: seq) =
    if decide (is_Some (seen !! idfun item)) then uniquer_loop seen [] seq
    else item :: uniquer_loop (<[idfun item := 1%Z]> seen) [] seq.
Proof.
  simpl. destruct (decide (is_Some (seen !! idfun item))); [reflexivity|].
  apply (uniquer_loop_result seq _ [item]).
Qed.

Lemma uniquer_loop_fresh (seq : list A) :
  forall seen y, y ∈ uniquer_loop seen [] seq -> seen !! idfun y = None /\ y ∈ seq.
Proof.
  induction seq as [|item seq IH]; intros seen y.
  - simpl. intros Hy. inversion Hy.
  - rewrite uniquer_loop_cons.
    destruct (decide (is_Some (seen !! idfun item))) as [Hs|Hs].
    + intros Hy. destruct (IH _ _ Hy) as [Hn Hin]. split; [exact Hn|].
      apply elem_of_cons. right. exact Hin.
    + intros Hy. apply elem_of_cons in Hy as [->|Hy].
      * split; [|apply elem_of_cons; left; reflexivity].
        destruct (seen !! idfun item) eqn:Hl; [|reflexivity].
        exfalso. apply Hs. eexists. reflexivity.
      * destruct (IH _ _ Hy) as [Hn Hin]. split; [|apply elem_of_cons; right; exact Hin].
        destruct (decide (idfun item = idfun y)) as [Heq|Hne].
        -- rewrite Heq, lookup_insert_eq in Hn. discriminate.
        -- rewrite lookup_insert_ne in Hn by exact Hne. exact Hn.
Qed.

Lemma filter_all (P : A -> Prop) `{forall x, Decision (P x)} (l : list A) :
  (forall x, x ∈ l -> P x) -> filter P l = l.
Proof.
  induction l as [|x l IH]; intros Hall; [reflexivity|].
  rewrite filter_cons_True by (apply Hall, elem_of_cons; left; reflexivity).
  rewrite IH; [reflexivity|]. intros y Hy. apply Hall, elem_of_cons. right. exact Hy.
Qed.

Lemma uniquer_loop_insert (seq : list A) :
  forall seen m,
    uniquer_loop (<[m := 1%Z]> seen) [] seq
      = filter (fun y => idfun y <> m) (uniquer_loop seen [] seq).
Proof.
  induction seq as [|item seq IH]; intros seen m; [reflexivity|].
  rewrite !uniquer_loop_cons.
  destruct (decide (is_Some (seen !! idfun item))) as [Hs|Hs].
  - rewrite decide_True; [apply IH|].
    destruct (decide (m = idfun item)) as [->|Hne].
    + rewrite lookup_insert_eq. eexists. reflexivity.
    + rewrite lookup_insert_ne by exact Hne. exact Hs.
  - destruct (decide (m = idfun item)) as [->|Hne].
    + rewrite decide_True by (rewrite lookup_insert_eq; eexists; reflexivity).
      rewrite filter_cons_False by (intros Hc; apply Hc; reflexivity).
      symmetry. apply filter_all. intros y Hy.
      apply uniquer_loop_fresh in Hy as [Hn _]. intros Heq.
      rewrite Heq, lookup_insert_eq in Hn. discriminate.
    + rewrite decide_False.
      * rewrite filter_cons_True by (intros Hc; apply Hne; symmetry; exact Hc).
        f_equal. rewrite insert_insert_ne by (intros Hc; apply Hne; symmetry; exact Hc).
        apply IH.
      * rewrite lookup_insert_ne by exact Hne. exact Hs.
Qed.

(** The first item stays, and of the rest what [_uniquer] keeps of it
    minus the items with the first one's marker. *)
Lemma uniquer_cons (item : A) (seq : list A) :
  _uniquer (item :: seq)
    = item :: filter (fun y => idfun y <> idfun item) (_uniquer seq).
Proof.
  unfold _uniquer. rewrite uniquer_loop_cons, decide_False.
  - rewrite uniquer_loop_insert. reflexivity.
  - rewrite lookup_empty. intros [x Hx]. discriminate.
Qed.

Lemma uniquer_sublist (seq : list A) : sublist (_uniquer seq) seq.
Proof.
  induction seq as [|item seq IH]; [constructor|].
  rewrite uniquer_cons. apply sublist_skip.
  etransitivity; [apply sublist_filter | exact IH].
Qed.

Lemma uniquer_markers (seq : list A) (k : K) :
  k ∈ idfun <$> _uniquer seq <-> k ∈ idfun <$> seq.
Proof.
  induction seq as [|item seq IH]; [reflexivity|].
  rewrite uniquer_cons, !fmap_cons, !elem_of_cons, <- IH.
  rewrite !list_elem_of_fmap. split.
  - intros [->|(y & -> & Hy)]; [left; reflexivity|].
    apply list_elem_of_filter in Hy as [_ Hy]. right. exists y. auto.
  - intros [->|(y & -> & Hy)]; [left; reflexivity|].
    destruct (decide (idfun y = idfun item)) as [Heq|Hne]; [left; exact Heq|].
    right. exists y. split; [reflexivity|]. apply list_elem_of_filter. auto.
Qed.

Lemma uniquer_NoDup (seq : list A) : NoDup (idfun <$> _uniquer seq).
Proof.
  induction seq as [|item seq IH]; [constructor|].
  rewrite uniquer_cons, fmap_cons. constructor.
  - rewrite list_elem_of_fmap. intros (y & Heq & Hy).
    apply list_elem_of_filter in Hy as [Hne _]. apply Hne. symmetry. exact Heq.
  - apply (sublist_NoDup _ _ IH). apply fmap_sublist, sublist_filter.
Qed.

Lemma uniquer_id (seq : list A) : NoDup (idfun <$> seq) -> _uniquer seq = seq.
Proof.
  induction seq as [|item seq IH]; [reflexivity|].
  rewrite fmap_cons. intros Hnd. apply NoDup_cons in Hnd as [Hnotin Hnd].
  rewrite uniquer_cons, (IH Hnd). f_equal. apply filter_all.
  intros y Hy Heq. apply Hnotin. rewrite <- Heq. apply list_elem_of_fmap. exists y. auto.
Qed.

(** X11. [_uniquer] keeps, in their order, exactly the items that are the
    first with their marker: the result is a sublist of the input with
    pairwise different markers and the same markers as the input; the
    first item always stays and removes the later items with its marker;
    an input whose markers are pairwise different comes back as it is,
    and so does the result when it is passed in again. *)
Theorem uniquer_keeps_first_occurrences (seq : list A) :
  sublist (_uniquer seq) seq /\
  NoDup (idfun <$> _uniquer seq) /\
  (forall k, k ∈ idfun <$> _uniquer seq <-> k ∈ idfun <$> seq) /\
  (forall item,
     _uniquer (item :: seq)
       = item :: filter (fun y => idfun y <> idfun item) (_uniquer seq)) /\
  (NoDup (idfun <$> seq) -> _uniquer seq = seq) /\
  _uniquer (_uniquer seq) = _uniquer seq.
Proof.
  split; [apply uniquer_sublist|]. split; [apply uniquer_NoDup|].
  split; [apply uniquer_markers|]. split; [intros item; apply uniquer_cons|].
  split; [apply uniquer_id|]. apply uniquer_id, uniquer_NoDup.
Qed.

End Uniquer.

(** Catalog items by name: the second "ubuntu" and the second "centos"
    go. *)
Example uniquer_names :
  _uniquer (fun x : string * Z => fst x)
    [("ubuntu", 1%Z); ("centos", 2%Z); ("ubuntu", 3%Z); ("debian", 4%Z); ("centos", 5%Z)]
    = [("ubuntu", 1%Z); ("centos", 2%Z); ("debian", 4%Z)].
Proof. vm_compute. reflexivity. Qed.

End Uniquer.

(** ** Memory sizes: [list_sizes] and [_validate_vm_memory] *)

Module Sizes.

(** [[512] + [1024 * i for i in range(1, 9)]]. *)
Definition VIRTUAL_MEMORY_VALS : list Z :=
  512 :: map (fun i => 1024 * i) (seqZ 1 8).

(** The fields of [NodeSize] that [_to_size] fills; the others are
    [None]. *)
Record NodeSize : Type := {
  name : string;
  ram : Z;
}.

(** [_to_size]. *)
Definition _to_size (ram : Z) : NodeSize :=
  {| name := Py.str_of_Z ram +:+ " Ram"; ram := ram |}.

(** [list_sizes]. *)
Definition list_sizes : list NodeSize := map _to_size VIRTUAL_MEMORY_VALS.

(** A validator returns [None] or raises [ValueError]. *)
Inductive validation : Type :=
| Accepted
| ValueError (msg : string).

Definition memory_error (vm_memory : Z) : string :=
  Py.str_of_Z vm_memory +:+ " is not a valid vApp VM memory value".

(** [VCloud_1_5_NodeDriver._validate_vm_memory]. *)
Definition _validate_vm_memory (vm_memory : option Z) : validation :=
  match vm_memory with
  | None => Accepted
  | Some m =>
      if bool_decide (m ∈ VIRTUAL_MEMORY_VALS) then Accepted
      else ValueError (memory_error m)
  end.

(** [VCloud_5_1_NodeDriver._validate_vm_memory]. *)
Definition _validate_vm_memory_5_1 (vm_memory : option Z) : validation :=
  match vm_memory with
  | None => Accepted
  | Some m =>
      if negb (Z.eqb (m mod 4) 0) then ValueError (memory_error m)
      else Accepted
  end.

Lemma memory_vals (m : Z) :
  m ∈ VIRTUAL_MEMORY_VALS <-> m = 512 \/ exists i, 1 <= i <= 8 /\ m = 1024 * i.
Proof.
  unfold VIRTUAL_MEMORY_VALS. rewrite elem_of_cons, list_elem_of_fmap.
  split.
  - intros [->|(i & -> & Hi)]; [left; reflexivity|].
    right. exists i. apply elem_of_seqZ in Hi. split; [lia | reflexivity].
  - intros [->|(i & Hi & ->)]; [left; reflexivity|].
    right. exists i. split; [reflexivity|]. apply elem_of_seqZ. lia.
Qed.

(** X12. The 1.5 driver accepts as memory exactly 512 and the first eight
    multiples of 1024; the 5.1 driver accepts exactly the multiples of 4,
    zero and negative ones included, so whatever the 1.5 driver accepts
    the 5.1 driver accepts too.  Every size of [list_sizes] passes both,
    and both accept a missing value. *)
Theorem memory_validators (m : Z) :
  (_validate_vm_memory (Some m) = Accepted <->
   m = 512 \/ exists i, 1 <= i <= 8 /\ m = 1024 * i) /\
  (_validate_vm_memory_5_1 (Some m) = Accepted <-> exists q, m = 4 * q) /\
  (_validate_vm_memory (Some m) = Accepted ->
   _validate_vm_memory_5_1 (Some m) = Accepted) /\
  (forall size, size ∈ list_sizes ->
     _validate_vm_memory (Some (ram size)) = Accepted /\
     _validate_vm_memory_5_1 (Some (ram size)) = Accepted) /\
  _validate_vm_memory None = Accepted /\ _validate_vm_memory_5_1 None = Accepted.
Proof.
  assert (H15 : forall x, _validate_vm_memory (Some x) = Accepted <->
                          x = 512 \/ exists i, 1 <= i <= 8 /\ x = 1024 * i).
  { intros x. rewrite <- memory_vals. unfold _validate_vm_memory.
    destruct (bool_decide_reflect (x ∈ VIRTUAL_MEMORY_VALS)) as [Hin|Hout].
    - split; auto.
    - split; [discriminate | contradiction]. }
  assert (H51 : forall x, _validate_vm_memory_5_1 (Some x) = Accepted <-> exists q, x = 4 * q).
  { intros x. unfold _validate_vm_memory_5_1.
    destruct (Z.eqb_spec (x mod 4) 0) as [Hz|Hnz]; simpl.
    - split; [intros _|reflexivity]. exists (x / 4). apply Z.div_exact; lia.
    - split; [discriminate|]. intros (q & ->). exfalso. apply Hnz.
      rewrite Z.mul_comm. apply Z.mod_mul. lia. }
  assert (Hsub : forall x, _validate_vm_memory (Some x) = Accepted ->
                           _validate_vm_memory_5_1 (Some x) = Accepted).
  { intros x Hx. apply H51. apply H15 in Hx as [->|(i & _ & ->)].
    - exists 128. reflexivity.
    - exists (256 * i). lia. }
  split; [apply H15|]. split; [apply H51|]. split; [apply Hsub|].
  split; [|split; reflexivity].
  intros size Hsize. unfold list_sizes in Hsize.
  apply list_elem_of_fmap in Hsize as (x & -> & Hx). simpl.
  assert (Hok : _validate_vm_memory (Some x) = Accepted).
  { unfold _validate_vm_memory. rewrite bool_decide_eq_true_2 by exact Hx. reflexivity. }
  split; [exact Hok | apply Hsub, Hok].
Qed.

End Sizes.

(** ** [VCloudConnection]: the session token *)

Module Session.

(** What [_get_auth_token] raises: [InvalidCredsError] itself, or an
    exception of the transport, of [ET.XML], of the unpacking in
    [fixxpath] or of an attribute access on [None]. *)
Inductive exn : Type :=
| InvalidCredsError
| OtherError (name : string).

Inductive result (A : Type) : Type :=
| Ok (a : A)
| Raise (e : exn).
Arguments Ok {A} a.
Arguments Raise {A} e.

(** The parsed body of the login response: the tag of the root and, for
    each child in order, its tag and its [href] attribute. *)
Record Element : Type := {
  tag : string;
  children : list (string * option string);
}.

(** [body.find(path)] for a path of one step: the first child with that
    tag. *)
Definition find (body : Element) (path : string) : option (string * option string) :=
  List.find (fun child => String.eqb (fst child) path) (children body).

(** The answer to a login: the transport raises, or there is a response
    with its headers and its text, which [ET.XML] parses or not. *)
Inductive login_answer : Type :=
| Refused (name : string)
| Responded (headers : gmap string string) (body : option Element).

(** The connection (and [driver.org]), and the logins sent so far. *)
Record State : Type := {
  user_id : string;
  key : string;
  token : option string;
  org : option string;
  logins : list (gmap string string);
}.

Section Session.

(** [urlparse(url).path], [base64.b64encode(...).decode("utf-8")], and
    the answer to the [n]-th login. *)
Variable urlparse_path : string -> string.
Variable b64encode : string -> string.
Variable login : nat -> login_answer.

(** [_get_auth_headers]. *)
Definition _get_auth_headers (s : State) : gmap string string :=
  <["Accept" := "application/*+xml"]>
    (<["Content-Length" := "0"]>
       (<["Authorization" := "Basic " +:+ b64encode (user_id s +:+ ":" +:+ key s)]> ∅)).

Definition set_token (t : string) (s : State) : State :=
  {| user_id := user_id s; key := key s; token := Some t; org := org s;
     logins := logins s |}.

Definition set_org (o : string) (s : State) : State :=
  {| user_id := user_id s; key := key s; token := token s; org := Some o;
     logins := logins s |}.

Definition sent (h : gmap string string) (s : State) : State :=
  {| user_id := user_id s; key := key s; token := token s; org := org s;
     logins := logins s ++ [h] |}.

(** [_get_auth_token]. *)
Definition _get_auth_token (s : State) : result unit * State :=
  if negb (Py.truthy (token s)) then
    let s1 := sent (_get_auth_headers s) s in
    match login (length (logins s)) with
    | Refused name => (Raise (OtherError name), s1)
    | Responded headers None => (Raise (OtherError "ParseError"), s1)
    | Responded headers (Some body) =>
        match headers !! "set-cookie" with
        | None => (Raise InvalidCredsError, s1)
        | Some cookie =>
            let s2 := set_token cookie s1 in
            match XPath.fixxpath (tag body) "Org" with
            | None => (Raise (OtherError "ValueError"), s2)
            | Some path =>
                match find body path with
                | Some (_, Some href) =>
                    (Ok tt, set_org (get_url_path urlparse_path href) s2)
                | _ => (Raise (OtherError "AttributeError"), s2)
                end
            end
        end
    end
  else (Ok tt, s).

(** [add_default_headers]; the cookie may be [None]. *)
Definition add_default_headers (s : State) (headers : gmap string (option string))
  : gmap string (option string) :=
  <["Accept" := Some "application/*+xml"]> (<["Cookie" := token s]> headers).

(** [n] calls of [_get_auth_token], one before each request. *)
Fixpoint after_requests (n : nat) (s : State) : State :=
  match n with
  | O => s
  | S n' => after_requests n' (snd (_get_auth_token s))
  end.

Lemma get_auth_token_cached (s : State) :
  Py.truthy (token s) = true -> _get_auth_token s = (Ok tt, s).
Proof. intros H. unfold _get_auth_token. rewrite H. reflexivity. Qed.

Lemma after_requests_cached (n : nat) (s : State) :
  Py.truthy (token s) = true -> after_requests n s = s.
Proof.
  intros H. induction n as [|n IH]; [reflexivity|].
  simpl. rewrite (get_auth_token_cached s H). exact IH.
Qed.

Lemma get_auth_token_logins (s : State) :
  Py.truthy (token s) = false ->
  length (logins (snd (_get_auth_token s))) = S (length (logins s)).
Proof.
  intros Htok. unfold _get_auth_token. rewrite Htok. simpl.
  destruct (login _) as [name|h [b|]]; simpl.
  - rewrite length_app. simpl. lia.
  - destruct (h !! "set-cookie"); simpl.
    + destruct (XPath.fixxpath (tag b) "Org") as [path|]; simpl.
      * destruct (find b path) as [[t [href|]]|]; simpl; rewrite length_app; simpl; lia.
      * rewrite length_app. simpl. lia.
    + rewrite length_app. simpl. lia.
  - rewrite length_app. simpl. lia.
Qed.

(** X14. A login whose response carries a cookie that is not empty is
    the last one: the token is that cookie, whether or not the
    organisation could be read from the body, and every later request
    sends no login and changes nothing, so an organisation that could not
    be read stays unset.  A response without the [set-cookie] header
    raises [InvalidCredsError] and leaves token and organisation as they
    were, so the next request logs in again. *)
Theorem login_happens_once
    (s : State) (headers : gmap string string) (body : Element) :
  Py.truthy (token s) = false ->
  login (length (logins s)) = Responded headers (Some body) ->
  let s1 := snd (_get_auth_token s) in
  (forall cookie, headers !! "set-cookie" = Some cookie -> cookie <> "" ->
     token s1 = Some cookie /\
     length (logins s1) = S (length (logins s)) /\
     add_default_headers s1 ∅ !! "Cookie" = Some (Some cookie) /\
     (forall n, after_requests n s1 = s1) /\
     (forall e, fst (_get_auth_token s) = Raise e -> org s1 = org s)) /\
  (headers !! "set-cookie" = None ->
   fst (_get_auth_token s) = Raise InvalidCredsError /\
   token s1 = token s /\ org s1 = org s /\
   length (logins (snd (_get_auth_token s1))) = S (S (length (logins s)))).
Proof.
  intros Htok Hlogin s1. subst s1. split.
  - intros cookie Hcookie Hne.
    assert (Htruthy : Py.truthy (Some cookie) = true).
    { simpl. destruct (String.eqb_spec cookie ""); [contradiction | reflexivity]. }
    unfold _get_auth_token. rewrite Htok, Hlogin, Hcookie. simpl.
    destruct (XPath.fixxpath (tag body) "Org") as [path|]; simpl.
    + destruct (find body path) as [[t [href|]]|]; simpl;
        (split; [reflexivity|]); (split; [rewrite length_app; simpl; lia|]);
        (split; [reflexivity|]);
        (split; [intros n; apply after_requests_cached; exact Htruthy|]);
        intros e He; try discriminate He; reflexivity.
    + split; [reflexivity|]. split; [rewrite length_app; simpl; lia|].
      split; [reflexivity|].
      split; [intros n; apply after_requests_cached; exact Htruthy|].
      intros e He. reflexivity.
  - intros Hnone.
    assert (H1 : _get_auth_token s = (Raise InvalidCredsError, sent (_get_auth_headers s) s)).
    { unfold _get_auth_token. rewrite Htok, Hlogin, Hnone. reflexivity. }
    rewrite H1. simpl.
    split; [reflexivity|]. split; [reflexivity|]. split; [reflexivity|].
    rewrite get_auth_token_logins by exact Htok.
    simpl. rewrite length_app. simpl. lia.
Qed.

End Session.

(** A first login that is refused a cookie, and a second one that gets
    it. *)
Module Login.

Definition namespace : string := "{http://www.vmware.com/vcloud/v0.8}".

Definition body : Element :=
  {| tag := namespace +:+ "OrgList";
     children := [(namespace +:+ "Org", Some "https://vcloud.example.com/api/v0.8/org/1")] |}.

Definition cookie : string := "vcloud-token=0a1b2c".

Definition login (n : nat) : login_answer :=
  match n with
  | O => Responded ∅ (Some body)
  | _ => Responded {[ "set-cookie" := cookie ]} (Some body)
  end.

Definition path_of (url : string) : string := url.
Definition b64encode (s : string) : string := s.

Definition fresh : State :=
  {| user_id := "user@org"; key := "secret"; token := None; org := None; logins := [] |}.

Definition retried : State := snd (_get_auth_token path_of b64encode login fresh).

Lemma login_happens_once_witness :
  Py.truthy (token fresh) = false /\
  login (length (logins fresh)) = Responded ∅ (Some body) /\
  fst (_get_auth_token path_of b64encode login fresh) = Raise InvalidCredsError /\
  token retried = None /\
  login (length (logins retried)) = Responded {[ "set-cookie" := cookie ]} (Some body) /\
  token (snd (_get_auth_token path_of b64encode login retried)) = Some cookie /\
  length (logins (snd (_get_auth_token path_of b64encode login retried))) = 2%nat.
Proof.
  destruct (login_happens_once path_of b64encode login fresh ∅ body eq_refl eq_refl)
    as [_ Hrefused].
  destruct (Hrefused eq_refl) as (Hraise & Htoken & _ & _).
  destruct (login_happens_once path_of b64encode login retried
              {[ "set-cookie" := cookie ]} body eq_refl eq_refl) as [Haccepted _].
  destruct (Haccepted cookie eq_refl) as (Htoken' & Hlen & _);
    [discriminate|].
  split; [reflexivity|]. split; [reflexivity|]. split; [exact Hraise|].
  split; [exact Htoken|]. split; [reflexivity|]. split; [exact Htoken'|].
  exact Hlen.
Defined.

End Login.

End Session.

(** ** [VCloudNodeDriver.destroy_node] *)

Module Node.

(** [httplib.ACCEPTED]. *)
Definition ACCEPTED : Z := 202.

(** What [self.connection.request] gives: a response with its status,
    the [href] attribute of its object and the object read as a task, or
    an exception. *)
Inductive reply : Type :=
| Reply (http_status : Z) (href : option string) (task : Task)
| Refused (name : string).

Definition poll_of (r : reply) : poll :=
  match r with
  | Reply _ _ t => Answer t
  | Refused name => Fails name
  end.

Inductive result (A : Type) : Type :=
| Ok (a : A)
| Raise (name : string).
Arguments Ok {A} a.
Arguments Raise {A} name.

Section Destroy.

Variable urlparse_path : string -> string.
(** The answer to the [n]-th request of the connection, whoever makes
    it, and the [n]-th reading of the clock. *)
Variable replies : nat -> reply.
Variable clock : nat -> Z.

Definition responses (n : nat) : poll := poll_of (replies n).

(** [self.connection.request(path, method=...)]. *)
Definition send (path : string) (s : State) : reply * State :=
  (replies (polls s),
   {| polls := S (polls s); reads := reads s; log := log s ++ [EvRequest path] |}).

(** [try: res = request(path, method="POST");
    self._wait_for_task_completion(res.object.get("href"))
    except Exception: pass].  Without an [href] the waiter reads the
    clock and then fails on [None].  [None] when the fuel of the waiter
    does not reach the end of its loop. *)
Definition post_and_wait (fuel : nat) (path : string) (s : State) : option State :=
  match send path s with
  | (Refused _, s1) => Some s1
  | (Reply _ None _, s1) => Some (snd (time clock s1))
  | (Reply _ (Some task_href) _, s1) =>
      match _wait_for_task_completion urlparse_path responses clock fuel task_href
              DEFAULT_TASK_COMPLETION_TIMEOUT s1 with
      | (Some _, s2) => Some s2
      | (None, _) => None
      end
  end.

(** [destroy_node], for [node.id = node_id]. *)
Definition destroy_node (fuel : nat) (node_id : string) (s : State)
  : option (result bool * State) :=
  let node_path := get_url_path urlparse_path node_id in
  match post_and_wait fuel (node_path +:+ "/power/action/poweroff") s with
  | None => None
  | Some s1 =>
      match post_and_wait fuel (node_path +:+ "/action/undeploy") s1 with
      | None => None
      | Some s2 =>
          match send node_path s2 with
          | (Reply http_status _ _, s3) => Some (Ok (Z.eqb http_status ACCEPTED), s3)
          | (Refused name, s3) => Some (Raise name, s3)
          end
      end
  end.






End Destroy.

(** A node that is already off: the power-off is refused, the undeploy
    task never completes, the DELETE is accepted. *)
Definition already_off (n : nat) : reply :=
  match n with
  | O => Refused "Exception"
  | 1%nat => Reply 202 (Some Script.href) (Script.task "queued")
  | 122%nat => Reply 202 None (Script.task "queued")
  | _ => Reply 200 None (Script.task "running")
  end.


Example destroy_node_already_off :
  option_map fst
    (destroy_node Script.path_of already_off Script.seconds 121 "/api/vApp/7" initial)
  = Some (Ok true).
Proof. vm_compute. reflexivity. Qed.

End Node.

End VCloud.

(** * [mist.api.dns.methods] *)

Module Dns.

Local Open Scope list_scope.

(** What [filter_list_zones] lets through: only
    [PolicyUnauthorizedError] is caught. *)
Inductive result (A : Type) : Type :=
| Ok (a : A)
| Raise (name : string).
Arguments Ok {A} a.
Arguments Raise {A} name.

(** The outcome of [auth_context.check_perm]. *)
Inductive permission : Type :=
| Granted
| PolicyUnauthorizedError
| Failed (name : string).

Section Zones.

(** The entries of a record's and of a zone's dict other than ["id"] and
    ["records"]. *)
Context {Fields : Type}.

Record RecordDict : Type := {
  record_id : string;
  record_fields : Fields;
}.

Record ZoneDict : Type := {
  zone_id : string;
  records : list RecordDict;
  zone_fields : Fields;
}.

(** [auth_context]: [is_owner()], [check_perm(rtype, action, rid)] and
    [get_allowed_resources(rtype=...)]. *)
Record AuthContext : Type := {
  is_owner : bool;
  check_perm : string -> string -> string -> permission;
  get_allowed_resources : string -> list string;
}.

(** [list_zones(auth_context.owner, cloud)]. *)
Variable list_zones : list ZoneDict.

(** [x in set(l)]. *)
Definition member (x : string) (l : list string) : bool :=
  existsb (String.eqb x) l.

(** The inner loop: the records whose id is allowed, in order. *)
Fixpoint allowed_of (allowed_records : list string) (recs : list RecordDict)
  : list RecordDict :=
  match recs with
  | [] => []
  | record :: rest =>
      if member (record_id record) allowed_records
      then record :: allowed_of allowed_records rest
      else allowed_of allowed_records rest
  end.

(** [zone['records'] = recs]; the dict is the caller's, which sees the
    new records too. *)
Definition set_records (recs : list RecordDict) (zone : ZoneDict) : ZoneDict :=
  {| zone_id := zone_id zone; records := recs; zone_fields := zone_fields zone |}.

(** The outer loop, giving [return_zones]. *)
Fixpoint return_zones (allowed_zones allowed_records : list string)
    (zones : list ZoneDict) : list ZoneDict :=
  match zones with
  | [] => []
  | zone :: rest =>
      if member (zone_id zone) allowed_zones
      then set_records (allowed_of allowed_records (records zone)) zone
             :: return_zones allowed_zones allowed_records rest
      else return_zones allowed_zones allowed_records rest
  end.

(** [filter_list_zones(auth_context, cloud, zones)], with [perm] unused
    as in the source; the result is the pair of ['cloud_id'] and
    ['zones']. *)
Definition filter_list_zones (auth_context : AuthContext) (cloud_id : string)
    (zones : option (list ZoneDict)) : result (string * list ZoneDict) :=
  let zones := match zones with None => list_zones | Some zones => zones end in
  match zones with
  | [] => Ok (cloud_id, [])
  | _ =>
      if negb (is_owner auth_context) then
        match check_perm auth_context "cloud" "read" cloud_id with
        | Failed name => Raise name
        | PolicyUnauthorizedError => Ok (cloud_id, [])
        | Granted =>
            let allowed_records := get_allowed_resources auth_context "records" in
            let allowed_zones := get_allowed_resources auth_context "zones" in
            Ok (cloud_id, return_zones allowed_zones allowed_records zones)
        end
      else Ok (cloud_id, zones)
  end.

(** A zone as a user without the owner's rights may see it. *)
Definition visible (auth_context : AuthContext) (zone : ZoneDict) : Prop :=
  member (zone_id zone) (get_allowed_resources auth_context "zones") = true /\
  Forall (fun record =>
            member (record_id record) (get_allowed_resources auth_context "records") = true)
         (records zone).

Lemma allowed_of_allowed (ar : list string) (recs : list RecordDict) :
  Forall (fun record => member (record_id record) ar = true) (allowed_of ar recs).
Proof.
  induction recs as [|r recs IH]; simpl; [constructor|].
  destruct (member (record_id r) ar) eqn:Hr; [constructor; assumption | exact IH].
Qed.

Lemma allowed_of_fixed (ar : list string) (recs : list RecordDict) :
  Forall (fun record => member (record_id record) ar = true) recs ->
  allowed_of ar recs = recs.
Proof.
  induction 1 as [|r recs Hr _ IH]; simpl; [reflexivity|].
  rewrite Hr, IH. reflexivity.
Qed.

Lemma return_zones_visible (auth_context : AuthContext) (zones : list ZoneDict) :
  Forall (visible auth_context)
    (return_zones (get_allowed_resources auth_context "zones")
                  (get_allowed_resources auth_context "records") zones).
Proof.
  induction zones as [|z zones IH]; simpl; [constructor|].
  destruct (member (zone_id z) _) eqn:Hz; [|exact IH].
  constructor; [|exact IH]. split; [exact Hz|]. simpl. apply allowed_of_allowed.
Qed.

Lemma return_zones_fixed (auth_context : AuthContext) (zones : list ZoneDict) :
  Forall (visible auth_context) zones ->
  return_zones (get_allowed_resources auth_context "zones")
               (get_allowed_resources auth_context "records") zones = zones.
Proof.
  induction 1 as [|z zones [Hz Hr] _ IH]; simpl; [reflexivity|].
  rewrite Hz, IH, (allowed_of_fixed _ _ Hr). destruct z; reflexivity.
Qed.

Lemma return_zones_ids (az ar : list string) (zones : list ZoneDict) :
  map zone_id (return_zones az ar zones)
  = List.filter (fun i => member i az) (map zone_id zones).
Proof.
  induction zones as [|z zones IH]; simpl; [reflexivity|].
  destruct (member (zone_id z) az); simpl; rewrite IH; reflexivity.
Qed.

Lemma return_zones_records (az ar : list string) (zones : list ZoneDict) :
  Forall (fun z => exists z0, In z0 zones /\ zone_id z0 = zone_id z /\
                              zone_fields z0 = zone_fields z /\
                              records z = allowed_of ar (records z0))
         (return_zones az ar zones).
Proof.
  induction zones as [|z zones IH]; simpl; [constructor|].
  assert (IH' : Forall (fun z1 => exists z0, (z = z0 \/ In z0 zones) /\
                                   zone_id z0 = zone_id z1 /\
                                   zone_fields z0 = zone_fields z1 /\
                                   records z1 = allowed_of ar (records z0))
                       (return_zones az ar zones)).
  { eapply Forall_impl; [exact IH|]. intros z1 (z0 & Hin & H1 & H2 & H3).
    exists z0. auto. }
  destruct (member (zone_id z) az); [|exact IH'].
  constructor; [|exact IH']. exists z. simpl. auto.
Qed.

(** The two loops are a filter inside a filter. *)
Lemma allowed_of_filter (ar : list string) (recs : list RecordDict) :
  allowed_of ar recs = List.filter (fun record => member (record_id record) ar) recs.
Proof.
  induction recs as [|r recs IH]; simpl; [reflexivity|].
  rewrite IH. reflexivity.
Qed.

Lemma return_zones_filter (az ar : list string) (zones : list ZoneDict) :
  return_zones az ar zones
  = map (fun zone =>
           {| zone_id := zone_id zone;
              records := List.filter (fun record => member (record_id record) ar)
                           (records zone);
              zone_fields := zone_fields zone |})
        (List.filter (fun zone => member (zone_id zone) az) zones).
Proof.
  induction zones as [|z zones IH]; simpl; [reflexivity|].
  destruct (member (zone_id z) az); simpl; rewrite IH; [|reflexivity].
  unfold set_records. rewrite allowed_of_filter. reflexivity.
Qed.

(** X13. What [filter_list_zones] shows.  The owner gets the zones as
    they are.  Anyone else who may read the cloud gets, in the order of
    the listing, exactly the zones whose id is allowed, each with its
    other entries unchanged and with exactly its allowed records in
    their order, so nothing that is returned is outside the allowed
    zones and records; without the right to read the cloud the list is
    empty, and any other exception of the permission check is raised,
    by a user who is not the owner and only when there are zones.
    Filtering what was returned once more for the same user returns it
    unchanged. *)
Theorem filter_list_zones_visibility
    (auth_context : AuthContext) (cloud_id : string) (zones : option (list ZoneDict)) :
  let given := match zones with None => list_zones | Some zones => zones end in
  let allowed_zone zone :=
    member (zone_id zone) (get_allowed_resources auth_context "zones") in
  let allowed_record record :=
    member (record_id record) (get_allowed_resources auth_context "records") in
  filter_list_zones auth_context cloud_id zones
  = match given with
    | [] => Ok (cloud_id, [])
    | _ :: _ =>
        if is_owner auth_context then Ok (cloud_id, given)
        else
          match check_perm auth_context "cloud" "read" cloud_id with
          | Failed name => Raise name
          | PolicyUnauthorizedError => Ok (cloud_id, [])
          | Granted =>
              Ok (cloud_id,
                  map (fun zone =>
                         {| zone_id := zone_id zone;
                            records := List.filter allowed_record (records zone);
                            zone_fields := zone_fields zone |})
                      (List.filter allowed_zone given))
          end
    end /\
  match filter_list_zones auth_context cloud_id zones with
  | Ok (cid, shown) =>
      cid = cloud_id /\
      (is_owner auth_context = true -> shown = given) /\
      (is_owner auth_context = false ->
       Forall (visible auth_context) shown /\
       (shown <> [] -> check_perm auth_context "cloud" "read" cloud_id = Granted) /\
       (check_perm auth_context "cloud" "read" cloud_id = Granted ->
        map zone_id shown = List.filter
                              (fun i => member i (get_allowed_resources auth_context "zones"))
                              (map zone_id given) /\
        Forall (fun z => exists z0, In z0 given /\ zone_id z0 = zone_id z /\
                           zone_fields z0 = zone_fields z /\
                           records z = List.filter allowed_record (records z0))
               shown)) /\
      filter_list_zones auth_context cloud_id (Some shown) = Ok (cid, shown)
  | Raise name =>
      is_owner auth_context = false /\ given <> [] /\
      check_perm auth_context "cloud" "read" cloud_id = Failed name
  end /\
  (forall (x : string) (l : list string), member x l = true <-> In x l).
Proof.
  intros given allowed_zone allowed_record.
  assert (Hmember : forall (x : string) (l : list string), member x l = true <-> In x l).
  { intros x l. unfold member. rewrite existsb_exists. split.
    - intros (y & Hin & Heq). apply String.eqb_eq in Heq. subst. exact Hin.
    - intros Hin. exists x. split; [exact Hin | apply String.eqb_refl]. }
  split; [|split; [|exact Hmember]].
  { unfold filter_list_zones. fold given.
    destruct given as [|z zs]; [reflexivity|].
    destruct (is_owner auth_context); unfold negb; [reflexivity|].
    destruct (check_perm auth_context "cloud" "read" cloud_id); try reflexivity.
    rewrite return_zones_filter. reflexivity. }
  unfold filter_list_zones. fold given.
  destruct given as [|z zs] eqn:Hgiven.
  - split; [reflexivity|]. split; [reflexivity|]. split; [|reflexivity].
    intros _. split; [constructor|]. split; [congruence|]. intros _.
    split; [reflexivity | constructor].
  - rewrite <- Hgiven. destruct (is_owner auth_context) eqn:Hown; simpl.
    + split; [reflexivity|]. split; [reflexivity|]. split; [discriminate|].
      rewrite Hgiven. reflexivity.
    + destruct (check_perm auth_context "cloud" "read" cloud_id) eqn:Hperm.
      * split; [reflexivity|]. split; [discriminate|]. split.
        { intros _. split; [apply return_zones_visible|]. split; [reflexivity|].
          intros _. split; [apply return_zones_ids|].
          eapply Forall_impl; [apply return_zones_records|].
          intros z1 (z0 & Hin & H1 & H2 & H3). exists z0.
          rewrite H3, allowed_of_filter. auto. }
        pose proof (return_zones_visible auth_context given) as Hvis.
        destruct (return_zones _ _ given) as [|s shown] eqn:Hshown; [reflexivity|].
        rewrite (return_zones_fixed auth_context (s :: shown) Hvis). reflexivity.
      * split; [reflexivity|]. split; [discriminate|]. split; [|reflexivity].
        intros _. split; [constructor|]. split; [congruence|]. discriminate.
      * split; [reflexivity|]. split; [congruence | reflexivity].
Qed.

End Zones.

(** Two zones of which the second is allowed, with one of its two
    records. *)
Example filter_list_zones_member :
  let zone1 := {| zone_id := "z1"; zone_fields := "example.org";
                  records := [{| record_id := "r1"; record_fields := "A" |}] |} in
  let zone2 := {| zone_id := "z2"; zone_fields := "example.net";
                  records := [{| record_id := "r2"; record_fields := "A" |};
                              {| record_id := "r3"; record_fields := "MX" |}] |} in
  let member_of_team :=
    {| is_owner := false;
       check_perm := fun _ _ _ => Granted;
       get_allowed_resources := fun rtype => if String.eqb rtype "zones" then ["z2"]
                                             else ["r1"; "r3"] |} in
  filter_list_zones [zone1; zone2] member_of_team "cloud1" None
  = Ok ("cloud1",
        [{| zone_id := "z2"; zone_fields := "example.net";
            records := [{| record_id := "r3"; record_fields := "MX" |}] |}]).
Proof. reflexivity. Qed.

End Dns.
